(** * User-process and user-thread subsystem of the Pintos teaching kernel

    A shallow embedding of [userprog/process.c] and [threads/thread.c]:
    the ELF segment validator, the argument packer, the ready queue and the
    fair-scheduler priority formula, and the join-record protocol behind
    [process_execute], [process_wait], [process_exit] and [pthread_join]. *)

From Stdlib Require Import ZArith Lia List Bool Sorted.
From stdpp Require Import base option list gmap.
Import ListNotations.

Local Open Scope Z_scope.

(** ** Machine integers

    [uint32_t] values are integers in [[0, 2^32)]; arithmetic on them wraps. *)

Definition u32_modulus : Z := 2 ^ 32.

Definition to_u32 (x : Z) : Z := x mod u32_modulus.

Definition is_u32 (x : Z) : Prop := 0 <= x < u32_modulus.

(** A C [int] is an integer in [[-2^31, 2^31)]; [to_i32] reduces a result
    into that range. *)
Definition to_i32 (x : Z) : Z := (x + 2 ^ 31) mod 2 ^ 32 - 2 ^ 31.

Definition is_i32 (x : Z) : Prop := - 2 ^ 31 <= x < 2 ^ 31.

(** Thread identifiers ([typedef int tid_t]) and the error sentinel. *)

Definition tid_t : Type := Z.
Definition TID_ERROR : tid_t := -1.

Definition PRI_MIN : Z := 0.
Definition PRI_DEFAULT : Z := 31.
Definition PRI_MAX : Z := 63.

(** * ELF segment validation *)

Module Loader.

(** Modelled from the spec: [threads/vaddr.h] is not part of the sources at
    hand.  Pages are 4 kB ([PGSIZE]), [PGMASK] selects the intra-page offset,
    and a user virtual address is one strictly below [PHYS_BASE], which is
    kept as a parameter of the validator. *)
Definition PGSIZE : Z := 4096.
Definition PGMASK : Z := 4095.

Definition is_user_vaddr (PHYS_BASE vaddr : Z) : bool := vaddr <? PHYS_BASE.

(** [struct Elf32_Phdr]: every field is a 32-bit unsigned word. *)
Record Elf32_Phdr : Type := mkPhdr {
  p_type : Z;
  p_offset : Z;
  p_vaddr : Z;
  p_paddr : Z;
  p_filesz : Z;
  p_memsz : Z;
  p_flags : Z;
  p_align : Z
}.

Definition phdr_wf (h : Elf32_Phdr) : Prop :=
  is_u32 (p_type h) /\ is_u32 (p_offset h) /\ is_u32 (p_vaddr h) /\
  is_u32 (p_paddr h) /\ is_u32 (p_filesz h) /\ is_u32 (p_memsz h) /\
  is_u32 (p_flags h) /\ is_u32 (p_align h).

Definition PT_LOAD : Z := 1.

(** [validate_segment], one guard per early [return false] of the source.
    [file_len] is the value of [file_length (file)], an [off_t], which the
    source casts to [Elf32_Off]. *)
Definition validate_segment (PHYS_BASE : Z) (phdr : Elf32_Phdr) (file_len : Z) : bool :=
  if negb (Z.land (p_offset phdr) PGMASK =? Z.land (p_vaddr phdr) PGMASK) then false
  else if p_offset phdr >? to_u32 file_len then false
  else if p_memsz phdr <? p_filesz phdr then false
  else if p_memsz phdr =? 0 then false
  else if negb (is_user_vaddr PHYS_BASE (p_vaddr phdr)) then false
  else if negb (is_user_vaddr PHYS_BASE (to_u32 (p_vaddr phdr + p_memsz phdr))) then false
  else if to_u32 (p_vaddr phdr + p_memsz phdr) <? p_vaddr phdr then false
  else if p_vaddr phdr <? PGSIZE then false
  else true.

(** The byte counts [load] hands to [load_segment] for an accepted
    [PT_LOAD] header; the source distinguishes [p_filesz > 0] from the
    all-zero segment. *)
Definition ROUND_UP (x step : Z) : Z := (x + step - 1) / step * step.

Definition load_counts (phdr : Elf32_Phdr) : Z * Z :=
  let page_offset := Z.land (p_vaddr phdr) PGMASK in
  if p_filesz phdr >? 0 then
    let read_bytes := to_u32 (page_offset + p_filesz phdr) in
    (read_bytes, to_u32 (ROUND_UP (to_u32 (page_offset + p_memsz phdr)) PGSIZE - read_bytes))
  else
    (0, to_u32 (ROUND_UP (to_u32 (page_offset + p_memsz phdr)) PGSIZE)).

(** The acceptance condition as the specification words it. *)
Definition spec_valid (PHYS_BASE : Z) (phdr : Elf32_Phdr) (file_len : Z) : Prop :=
  Z.land (p_offset phdr) PGMASK = Z.land (p_vaddr phdr) PGMASK /\
  p_offset phdr <= file_len /\
  p_memsz phdr >= p_filesz phdr /\ p_filesz phdr > 0 /\
  p_vaddr phdr + p_memsz phdr <= PHYS_BASE /\
  p_vaddr phdr >= PGSIZE.

(** The acceptance condition the validator implements. *)
Definition code_valid (PHYS_BASE : Z) (phdr : Elf32_Phdr) (file_len : Z) : Prop :=
  Z.land (p_offset phdr) PGMASK = Z.land (p_vaddr phdr) PGMASK /\
  p_offset phdr <= file_len /\
  p_memsz phdr >= p_filesz phdr /\ p_memsz phdr > 0 /\
  p_vaddr phdr + p_memsz phdr < PHYS_BASE /\
  p_vaddr phdr >= PGSIZE.

Definition bss_only : Elf32_Phdr :=
  mkPhdr PT_LOAD 0 0x08048000 0 0 4096 6 4096.

Definition top_segment : Elf32_Phdr :=
  mkPhdr PT_LOAD 0 0xBFFFF000 0 4096 4096 6 4096.

End Loader.

(** * Threads and the ready queue ([threads/thread.c]) *)

Module Sched.

Inductive thread_status : Type :=
| THREAD_RUNNING | THREAD_READY | THREAD_BLOCKED | THREAD_DYING.

Inductive sched_policy : Type :=
| SCHED_FIFO | SCHED_PRIO | SCHED_FAIR | SCHED_MLFQS.

(** ** Fixed-point numbers *)

(** Modelled from the spec: [threads/fixed-point.h] is not part of the
    sources at hand.  A [fixed_point_t] is a C [int] holding the represented
    value scaled by [F]; [fix_int] scales an integer, [fix_unscale] divides
    the raw value by an integer, [fix_sub] subtracts two fixed-point values,
    [fix_sub_mix] subtracts an integer from one, and [fix_trunc] drops the
    fraction.  All divisions are C divisions (towards zero) and every result
    is reduced to the range of a 32-bit [int]. *)
Definition fix_int (F n : Z) : Z := to_i32 (n * F).
Definition fix_unscale (x n : Z) : Z := to_i32 (Z.quot x n).
Definition fix_sub (x y : Z) : Z := to_i32 (x - y).
Definition fix_sub_mix (F x n : Z) : Z := to_i32 (x - to_i32 (n * F)).
Definition fix_trunc (F x : Z) : Z := Z.quot x F.

(** ** Thread descriptors *)

(** A [struct thread *]. *)
Definition tptr : Type := positive.

Record thread : Type := mkThread {
  tid : tid_t;
  status : thread_status;
  priority : Z;
  blocked_ticks : Z;
  base_priority : Z;
  nice : Z;
  recent_cpu : Z
}.

Definition set_status (s : thread_status) (t : thread) : thread :=
  mkThread (tid t) s (priority t) (blocked_ticks t) (base_priority t) (nice t) (recent_cpu t).

Definition set_priority (p : Z) (t : thread) : thread :=
  mkThread (tid t) (status t) p (blocked_ticks t) (base_priority t) (nice t) (recent_cpu t).

(** The globals of [thread.c], with the thread pages as a store. *)
Record kernel : Type := mkKernel {
  threads : gmap tptr thread;
  fifo_ready_list : list tptr;
  all_list : list tptr;
  idle_thread : option tptr;
  initial_thread : tptr;
  running : tptr;
  active_sched_policy : sched_policy;
  schedule_started : bool;
  is_mls : bool;
  next_tid : Z;
  thread_ticks : Z
}.

Definition with_threads (ts : gmap tptr thread) (k : kernel) : kernel :=
  mkKernel ts (fifo_ready_list k) (all_list k) (idle_thread k) (initial_thread k)
    (running k) (active_sched_policy k) (schedule_started k) (is_mls k) (next_tid k)
    (thread_ticks k).

Definition with_ready (l : list tptr) (k : kernel) : kernel :=
  mkKernel (threads k) l (all_list k) (idle_thread k) (initial_thread k)
    (running k) (active_sched_policy k) (schedule_started k) (is_mls k) (next_tid k)
    (thread_ticks k).

Definition with_all_list (l : list tptr) (k : kernel) : kernel :=
  mkKernel (threads k) (fifo_ready_list k) l (idle_thread k) (initial_thread k)
    (running k) (active_sched_policy k) (schedule_started k) (is_mls k) (next_tid k)
    (thread_ticks k).

Definition with_running (t : tptr) (k : kernel) : kernel :=
  mkKernel (threads k) (fifo_ready_list k) (all_list k) (idle_thread k) (initial_thread k)
    t (active_sched_policy k) (schedule_started k) (is_mls k) (next_tid k)
    (thread_ticks k).

Definition with_thread_ticks (n : Z) (k : kernel) : kernel :=
  mkKernel (threads k) (fifo_ready_list k) (all_list k) (idle_thread k) (initial_thread k)
    (running k) (active_sched_policy k) (schedule_started k) (is_mls k) (next_tid k) n.

Definition with_next_tid (n : Z) (k : kernel) : kernel :=
  mkKernel (threads k) (fifo_ready_list k) (all_list k) (idle_thread k) (initial_thread k)
    (running k) (active_sched_policy k) (schedule_started k) (is_mls k) n
    (thread_ticks k).

(** [t->priority]; a stray pointer reads as 0. *)
Definition priority_of (k : kernel) (t : tptr) : Z :=
  match threads k !! t with
  | Some th => priority th
  | None => 0
  end.

Definition update_thread (f : thread -> thread) (t : tptr) (k : kernel) : kernel :=
  with_threads (alter f t (threads k)) k.

(** ** Kernel lists *)

(** Modelled from the spec: [lib/kernel/list.c] is not part of the sources
    at hand.  [list_insert_ordered] walks the list from the front and puts
    the element before the first one it is [less] than, so that ties keep
    their insertion order. *)
Fixpoint list_insert_ordered (less : tptr -> tptr -> bool) (elem : tptr) (l : list tptr)
  : list tptr :=
  match l with
  | [] => [elem]
  | e :: l' => if less elem e then elem :: e :: l' else e :: list_insert_ordered less elem l'
  end.

Definition list_push_back (l : list tptr) (elem : tptr) : list tptr := l ++ [elem].

(** [thread_cmp_priority]: strictly higher priority sorts first. *)
Definition thread_cmp_priority (k : kernel) (a b : tptr) : bool :=
  priority_of k a >? priority_of k b.

(** ** Operations; [None] is a failed [ASSERT] or a [PANIC]. *)

Definition is_thread (k : kernel) (t : tptr) : bool :=
  match threads k !! t with Some _ => true | None => false end.

Definition status_of (k : kernel) (t : tptr) : option thread_status :=
  status <$> threads k !! t.

(** [thread_enqueue]: the policy-aware insertion.  Its two call sites are
    commented out in the source, so nothing below goes through it. *)
Definition thread_enqueue (k : kernel) (t : tptr) : option kernel :=
  if negb (is_thread k t) then None
  else match active_sched_policy k with
       | SCHED_FIFO => Some (with_ready (list_push_back (fifo_ready_list k) t) k)
       | SCHED_PRIO | SCHED_FAIR =>
           Some (with_ready
                   (list_insert_ordered (thread_cmp_priority k) t (fifo_ready_list k)) k)
       | SCHED_MLFQS => None
       end.

(** [thread_unblock]. *)
Definition thread_unblock (k : kernel) (t : tptr) : option kernel :=
  match status_of k t with
  | Some THREAD_BLOCKED =>
      let k1 := with_ready
                  (list_insert_ordered (thread_cmp_priority k) t (fifo_ready_list k)) k in
      Some (update_thread (set_status THREAD_READY) t k1)
  | _ => None
  end.

(** [thread_schedule_fifo], and [next_thread_to_run], which [schedule]
    calls and which has the same body: the selected thread (or the idle
    thread) and the ready list left behind. *)
Definition thread_schedule_fifo (k : kernel) : option tptr * kernel :=
  match fifo_ready_list k with
  | t :: rest => (Some t, with_ready rest k)
  | [] => (idle_thread k, k)
  end.

Definition next_thread_to_run (k : kernel) : option tptr * kernel :=
  match fifo_ready_list k with
  | t :: rest => (Some t, with_ready rest k)
  | [] => (idle_thread k, k)
  end.

(** [thread_switch_tail]: the new thread runs, a dying predecessor other
    than the initial thread has its page freed. *)
Definition thread_switch_tail (k : kernel) (prev : option tptr) : kernel :=
  let k1 := with_thread_ticks 0
              (update_thread (set_status THREAD_RUNNING) (running k) k) in
  match prev with
  | Some p =>
      match status_of k1 p with
      | Some THREAD_DYING =>
          if decide (p = initial_thread k1) then k1
          else with_threads (delete p (threads k1)) k1
      | _ => k1
      end
  | None => k1
  end.

(** [schedule]. *)
Definition schedule (k : kernel) : option kernel :=
  let cur := running k in
  let '(next, k1) := next_thread_to_run k in
  match status_of k1 cur, next with
  | Some THREAD_RUNNING, _ => None
  | None, _ => None
  | _, None => None
  | Some _, Some n =>
      if negb (is_thread k1 n) then None
      else if decide (cur = n) then Some (thread_switch_tail k1 None)
      else Some (thread_switch_tail (with_running n k1) (Some cur))
  end.

(** [thread_yield]. *)
Definition thread_yield (k : kernel) : option kernel :=
  if negb (schedule_started k) then Some k
  else
    let cur := running k in
    match status_of k cur with
    | Some THREAD_RUNNING =>
        let k1 :=
          if decide (Some cur = idle_thread k) then k
          else with_ready
                 (list_insert_ordered (thread_cmp_priority k) cur (fifo_ready_list k)) k in
        schedule (update_thread (set_status THREAD_READY) cur k1)
    | _ => None
    end.

(** The static nice table of [init_thread], used when [is_mls] is off;
    a priority outside the table leaves the zeroed field alone. *)
Definition initial_nice (mls : bool) (prio : Z) : Z :=
  if mls then 0
  else if prio =? 56 then 0
  else if prio =? 48 then 1
  else if prio =? 40 then 2
  else if prio =? 32 then 3
  else if prio =? 24 then 4
  else if prio =? 16 then 5
  else if prio =? 8 then 6
  else if prio =? 0 then 7
  else 0.

(** [init_thread].  The all-threads list is ordered through
    [thread_cmp_priority] applied to [allelem] links, which does not read
    the priority field; [allelem_less] stands for that comparison. *)
Definition init_thread (F : Z) (allelem_less : tptr -> tptr -> bool)
    (k : kernel) (t : tptr) (prio : Z) : option kernel :=
  if negb ((PRI_MIN <=? prio) && (prio <=? PRI_MAX)) then None
  else
    let th := mkThread 0 THREAD_BLOCKED prio 0 prio (initial_nice (is_mls k) prio)
                (fix_int F 0) in
    Some (with_all_list (list_insert_ordered allelem_less t (all_list k))
            (with_threads (<[t := th]> (threads k)) k)).

Definition allocate_tid (k : kernel) : tid_t * kernel :=
  (next_tid k, with_next_tid (to_i32 (next_tid k + 1)) k).

Definition set_tid (n : tid_t) (t : thread) : thread :=
  mkThread n (status t) (priority t) 0 (base_priority t) (nice t) (recent_cpu t).

(** [thread_create]; [page] is what [palloc_get_page (PAL_ZERO)] returns. *)
Definition thread_create (F : Z) (allelem_less : tptr -> tptr -> bool)
    (page : option tptr) (k : kernel) (prio : Z) : option (tid_t * kernel) :=
  match page with
  | None => Some (TID_ERROR, k)
  | Some t =>
      k1 ← init_thread F allelem_less k t prio;
      let '(n, k2) := allocate_tid k1 in
      let k3 := update_thread (set_tid n) t k2 in
      k4 ← thread_unblock k3 t;
      if priority_of k4 (running k4) <? prio
      then k5 ← thread_yield k4; Some (n, k5)
      else Some (n, k4)
  end.

(** [thread_fair_update_priority]. *)
Definition thread_fair_update_priority (F : Z) (k : kernel) (t : tptr) : option kernel :=
  if decide (Some t = idle_thread k) then Some k
  else
    match active_sched_policy k with
    | SCHED_FAIR =>
        match threads k !! t with
        | None => None
        | Some th =>
            let p :=
              if is_mls k
              then fix_trunc F (fix_sub_mix F
                     (fix_sub (fix_int F PRI_MAX) (fix_unscale (recent_cpu th) 4)) (nice th))
              else fix_trunc F
                     (fix_sub (fix_int F PRI_MAX) (fix_unscale (recent_cpu th) 4)) in
            let p' := if p <? PRI_MIN then PRI_MIN
                      else if p >? PRI_MAX then PRI_MAX else p in
            Some (update_thread (set_priority p') t k)
        end
    | _ => None
    end.

(** Where a thread lands when it is inserted in priority order: behind
    every queued thread of at least its priority and in front of the first
    one of lower priority. *)
Definition placed_by_priority (k : kernel) (t : tptr) (before after : list tptr) : Prop :=
  exists front back,
    before = front ++ back /\ after = front ++ t :: back /\
    Forall (fun e => priority_of k t <= priority_of k e) front /\
    match back with
    | [] => True
    | e :: _ => priority_of k e < priority_of k t
    end.

(** The ready-queue entries all point at live thread pages. *)
Definition ready_wf (k : kernel) : Prop :=
  Forall (fun e => is_Some (threads k !! e)) (fifo_ready_list k).

(** What [thread_unblock] does to the ready list. *)
Definition unblock_placement (k : kernel) : Prop :=
  forall t, status_of k t = Some THREAD_BLOCKED ->
    exists k', thread_unblock k t = Some k' /\
      status_of k' t = Some THREAD_READY /\
      placed_by_priority k t (fifo_ready_list k) (fifo_ready_list k') /\
      (fifo_ready_list k' = fifo_ready_list k ++ [t] <->
       Forall (fun e => priority_of k t <= priority_of k e) (fifo_ready_list k)).

(** What [thread_yield] does to the ready list once scheduling has started:
    the running thread is queued by priority and the head of the resulting
    queue runs next. *)
Definition yield_placement (k : kernel) : Prop :=
  schedule_started k = true ->
  status_of k (running k) = Some THREAD_RUNNING ->
  Some (running k) <> idle_thread k ->
  exists k' next rest, thread_yield k = Some k' /\
    placed_by_priority k (running k) (fifo_ready_list k) (next :: rest) /\
    running k' = next /\ fifo_ready_list k' = rest /\
    status_of k' next = Some THREAD_RUNNING.

(** What [thread_create] does to the ready list when the page allocation
    succeeds: the new thread is queued by priority, and a creator of lower
    priority then yields. *)
Definition create_placement (k : kernel) : Prop :=
  forall F allelem_less t prio,
    PRI_MIN <= prio <= PRI_MAX ->
    threads k !! t = None ->
    status_of k (running k) = Some THREAD_RUNNING ->
    Some (running k) <> idle_thread k ->
    exists k' queued,
      thread_create F allelem_less (Some t) k prio = Some (next_tid k, k') /\
      priority_of k' t = prio /\
      placed_by_priority k' t (fifo_ready_list k) queued /\
      (fifo_ready_list k' = queued \/
       exists next rest,
         placed_by_priority k' (running k) queued (next :: rest) /\
         running k' = next /\ fifo_ready_list k' = rest).

(** What the scheduler selects. *)
Definition head_selected (k : kernel) : Prop :=
  match fifo_ready_list k with
  | t :: rest =>
      thread_schedule_fifo k = (Some t, with_ready rest k) /\
      next_thread_to_run k = (Some t, with_ready rest k)
  | [] =>
      thread_schedule_fifo k = (idle_thread k, k) /\
      next_thread_to_run k = (idle_thread k, k)
  end.

(** The priority the specification prescribes under the fair policy, on the
    raw fixed-point representation: [PRI_MAX - recent_cpu / 4 - nice],
    truncated, then clamped. *)
Definition clamp_priority (p : Z) : Z := Z.max PRI_MIN (Z.min PRI_MAX p).

Definition fair_priority (F : Z) (mls : bool) (rc n : Z) : Z :=
  clamp_priority
    (Z.quot (PRI_MAX * F - Z.quot rc 4 - (if mls then n * F else 0)) F).

(** No intermediate result of the formula leaves the range of an [int]. *)
Definition fair_fits (F : Z) (mls : bool) (rc n : Z) : Prop :=
  is_i32 (PRI_MAX * F) /\ is_i32 rc /\ is_i32 (PRI_MAX * F - Z.quot rc 4) /\
  (mls = true -> is_i32 (n * F) /\ is_i32 (PRI_MAX * F - Z.quot rc 4 - n * F)).

(** A fair-policy kernel whose thread 2 has accumulated 10 ticks of CPU. *)
Definition fair_demo : kernel :=
  mkKernel
    (<[1%positive := mkThread 1 THREAD_RUNNING 31 0 31 0 0]>
       (<[2%positive := mkThread 2 THREAD_READY 31 0 31 2 (10 * 65536)]> ∅))
    [2%positive] [1%positive; 2%positive] None 1%positive 1%positive
    SCHED_FAIR true true 3 0.

(** A FIFO-policy kernel with one queued thread of priority 10 and a
    blocked thread of priority 20. *)
Definition fifo_demo : kernel :=
  mkKernel
    (<[1%positive := mkThread 1 THREAD_RUNNING 31 0 31 0 0]>
       (<[2%positive := mkThread 2 THREAD_READY 10 0 10 0 0]>
          (<[3%positive := mkThread 3 THREAD_BLOCKED 20 0 20 0 0]> ∅)))
    [2%positive] [1%positive; 2%positive; 3%positive] None 1%positive 1%positive
    SCHED_FIFO true false 4 0.

End Sched.

(** * Argument packing ([args_push_stack]) *)

Module Args.

(** User memory: a byte at every address. *)
Definition mem : Type := Z -> Z.

Definition store8 (m : mem) (a v : Z) : mem := fun x => if x =? a then v else m x.

Fixpoint store_bytes (m : mem) (a : Z) (bs : list Z) : mem :=
  match bs with
  | [] => m
  | b :: bs' => store_bytes (store8 m a b) (a + 1) bs'
  end.

Fixpoint load_bytes (m : mem) (a : Z) (n : nat) : list Z :=
  match n with
  | O => []
  | S n' => m a :: load_bytes m (a + 1) n'
  end.

(** A 32-bit word as the i386 stores it: least significant byte first. *)
Definition le32 (v : Z) : list Z :=
  let w := to_u32 v in
  [w mod 256; (w / 256) mod 256; (w / 65536) mod 256; (w / 16777216) mod 256].

Definition store32 (m : mem) (a v : Z) : mem := store_bytes m a (le32 v).

Definition load32 (m : mem) (a : Z) : Z :=
  m a + 256 * m (a + 1) + 65536 * m (a + 2) + 16777216 * m (a + 3).

(** ** The C library calls the packer makes *)

(** Modelled from the spec: [lib/string.c] is not part of the sources at
    hand; these are the standard C meanings.  A C string is the list of its
    bytes up to the terminating NUL.  [strlcpy] writes at most [size - 1]
    bytes of the source and a NUL; [memset] fills; [strtok_r] with the
    delimiter [" "] skips leading spaces, returns the token up to the next
    space or the end, and leaves the save pointer behind the delimiter it
    overwrote (or at the end). *)
Definition SPACE : Z := 32.

Definition strlen (s : list Z) : Z := Z.of_nat (length s).

Definition strlcpy (m : mem) (dst : Z) (src : list Z) (size : Z) : mem :=
  if size <=? 0 then m
  else store_bytes m dst (firstn (Z.to_nat (size - 1)) src ++ [0]).

Definition memset (m : mem) (dst v n : Z) : mem :=
  store_bytes m dst (replicate (Z.to_nat n) v).

Fixpoint skip_delims (s : list Z) : list Z :=
  match s with
  | c :: s' => if c =? SPACE then skip_delims s' else s
  | [] => []
  end.

Fixpoint span_token (s : list Z) : list Z * list Z :=
  match s with
  | [] => ([], [])
  | c :: s' =>
      if c =? SPACE then ([], s')
      else let '(t, r) := span_token s' in (c :: t, r)
  end.

Definition strtok_r (s : list Z) : option (list Z * list Z) :=
  match skip_delims s with
  | [] => None
  | s1 => Some (span_token s1)
  end.

(** ** The packer *)

Inductive outcome (A : Type) : Type :=
| Done (a : A)
| ArgvOverflow
| OutOfFuel.
Arguments Done {A} a.
Arguments ArgvOverflow {A}.
Arguments OutOfFuel {A}.

Definition max_argv_size : Z := 50.

(** The locals of [args_push_stack] that the tokenising loop updates. *)
Record pack_state : Type := mkPack {
  esp : Z;
  argc : Z;
  args_num : Z;
  argv : list Z;
  stack : mem;
  rest : list Z
}.

(** One iteration of [while ((token = strtok_r (rest, " ", &rest)))]. *)
Definition push_token (st : pack_state) (token rest' : list Z) : outcome pack_state :=
  let size := to_i32 (strlen token + 1) in
  let esp' := esp st - size in
  if (0 <=? argc st) && (argc st <? max_argv_size) then
    Done (mkPack esp' (to_i32 (argc st + 1)) (to_i32 (args_num st + size))
            (<[Z.to_nat (argc st) := esp']> (argv st))
            (strlcpy (stack st) esp' token size) rest')
  else ArgvOverflow.

Fixpoint push_tokens (fuel : nat) (st : pack_state) : outcome pack_state :=
  match fuel with
  | O => OutOfFuel
  | S fuel' =>
      match strtok_r (rest st) with
      | None => Done st
      | Some (token, rest') =>
          match push_token st token rest' with
          | Done st' => push_tokens fuel' st'
          | ArgvOverflow => ArgvOverflow
          | OutOfFuel => OutOfFuel
          end
      end
  end.

(** [for (int i = argc - 1; i >= 0; i--)]: [n] iterations are left and the
    next one reads [argv[n - 1]]. *)
Fixpoint push_argv (n : nat) (av : list Z) (sp : Z) (m : mem) : outcome (Z * mem) :=
  match n with
  | O => Done (sp, m)
  | S i =>
      match av !! i with
      | Some p => push_argv i av (sp - 4) (store32 m (sp - 4) p)
      | None => ArgvOverflow
      end
  end.

(** [args_push_stack (file_name, &if_esp)]: the final stack pointer and
    memory.  The [malloc]ed pointer array starts out as 50 unread slots. *)
Definition args_push_stack (fuel : nat) (file_name : list Z) (if_esp : Z) (m : mem)
  : outcome (Z * mem) :=
  let st0 := mkPack if_esp 0 0 (replicate (Z.to_nat max_argv_size) 0) m file_name in
  match push_tokens fuel st0 with
  | Done st =>
      let total := to_i32 (args_num st + 4 * (argc st + 1) + 4 + 4) in
      let temp := Z.rem total 16 in
      let '(sp1, m1) :=
        if temp >? 0
        then (esp st - (16 - temp), memset (stack st) (esp st - (16 - temp)) 0 (16 - temp))
        else (esp st, stack st) in
      let sp2 := sp1 - 4 in
      let m2 := store32 m1 sp2 0 in
      match push_argv (Z.to_nat (argc st)) (argv st) sp2 m2 with
      | Done (sp3, m3) =>
          let sp4 := sp3 - 4 in
          let m4 := store32 m3 sp4 (sp4 + 4) in
          let sp5 := sp4 - 4 in
          let m5 := store32 m4 sp5 (argc st) in
          let sp6 := sp5 - 4 in
          Done (sp6, memset m5 sp6 0 4)
      | ArgvOverflow => ArgvOverflow
      | OutOfFuel => OutOfFuel
      end
  | ArgvOverflow => ArgvOverflow
  | OutOfFuel => OutOfFuel
  end.

(** ** What the specification expects on the stack *)

(** The space-delimited tokens of a command line. *)
Fixpoint words_from (cur : list Z) (s : list Z) : list (list Z) :=
  match s with
  | [] => match cur with [] => [] | _ => [rev cur] end
  | c :: s' =>
      if c =? SPACE
      then match cur with
           | [] => words_from [] s'
           | _ => rev cur :: words_from [] s'
           end
      else words_from (c :: cur) s'
  end.

Definition words (s : list Z) : list (list Z) := words_from [] s.

(** A token as a C string: its bytes and the terminating NUL. *)
Definition body (t : list Z) : list Z := t ++ [0].

Fixpoint bodies_size (toks : list (list Z)) : Z :=
  match toks with
  | [] => 0
  | t :: ts => (strlen t + 1) + bodies_size ts
  end.

(** The addresses of the string bodies: the first token sits highest. *)
Fixpoint arg_ptrs (top : Z) (toks : list (list Z)) : list Z :=
  match toks with
  | [] => []
  | t :: ts => (top - (strlen t + 1)) :: arg_ptrs (top - (strlen t + 1)) ts
  end.

Definition padding (toks : list (list Z)) : Z :=
  let r := (bodies_size toks + 4 * (Z.of_nat (length toks) + 1) + 8) mod 16 in
  if r =? 0 then 0 else 16 - r.

Definition frame_size (toks : list (list Z)) : Z :=
  16 + 4 * Z.of_nat (length toks) + padding toks + bodies_size toks.

(** The bytes from the final stack pointer up to the initial one, low
    addresses first: fake return address, [argc], [argv], the [argv[i]],
    the NULL sentinel, the padding, the string bodies. *)
Definition frame (top : Z) (toks : list (list Z)) : list Z :=
  let sp := top - frame_size toks in
  le32 0 ++ le32 (Z.of_nat (length toks)) ++ le32 (sp + 12)
  ++ concat (map le32 (arg_ptrs top toks))
  ++ le32 0
  ++ replicate (Z.to_nat (padding toks)) 0
  ++ concat (map body (rev toks)).

(** The stack grows down, and every write of the packer fills the bytes
    it has just reserved: going from [(m, sp)] to [(m', sp')] pushed the
    bytes [bs] and left everything from [sp] upwards and everything below
    [sp'] alone. *)
Definition pushed (m : mem) (sp : Z) (m' : mem) (sp' : Z) (bs : list Z) : Prop :=
  sp' = sp - Z.of_nat (length bs) /\
  (forall x, sp <= x -> m' x = m x) /\
  load_bytes m' sp' (length bs) = bs /\
  (forall x, x < sp' -> m' x = m x).

(** [p] points at a NUL-terminated copy of [t]. *)
Definition cstring_at (m : mem) (p : Z) (t : list Z) : Prop :=
  load_bytes m p (length t) = t /\ m (p + strlen t) = 0 /\ Forall (fun c => c <> 0) t.

(** A command line is a C string: bytes 1..255. *)
Definition is_cstring (s : list Z) : Prop := Forall (fun c => 0 < c < 256) s.

(** The tokens as the specification words them, delimited by white space:
    the space and the control characters TAB to CR that the C library's
    [isspace] accepts. *)
Definition is_whitespace (c : Z) : bool := (c =? SPACE) || ((9 <=? c) && (c <=? 13)).

Fixpoint whitespace_tokens_from (cur : list Z) (s : list Z) : list (list Z) :=
  match s with
  | [] => match cur with [] => [] | _ => [rev cur] end
  | c :: s' =>
      if is_whitespace c
      then match cur with
           | [] => whitespace_tokens_from [] s'
           | _ => rev cur :: whitespace_tokens_from [] s'
           end
      else whitespace_tokens_from (c :: cur) s'
  end.

Definition whitespace_tokens (s : list Z) : list (list Z) := whitespace_tokens_from [] s.

(** ["echo hello world"]. *)
Definition echo_cmd : list Z :=
  [101; 99; 104; 111; 32; 104; 101; 108; 108; 111; 32; 119; 111; 114; 108; 100].

(** ["a<TAB>b c"]: three tokens by white space, two by spaces. *)
Definition tab_cmd : list Z := [97; 9; 98; 32; 99].

(** ["echo"] followed by fifty words that are a single TAB each: one token
    by white space, fifty-one by spaces. *)
Definition tabs_cmd : list Z := [101; 99; 104; 111] ++ concat (replicate 50 [32; 9]).

Definition zero_mem : mem := fun _ => 0.

End Args.

(** * Processes, join records and user threads ([userprog/process.c]) *)

Module Proc.

(** A [struct thread_block *] and a [struct process *]. *)
Definition baddr : Type := positive.
Definition paddr : Type := positive.

(** [struct thread_block], the join record; the two semaphores are kept
    by their values. *)
Record thread_block : Type := mkBlock {
  b_tid : tid_t;
  b_pid : tid_t;
  exit_code : Z;
  was_waited : bool;
  semapth : nat;
  load_semapth : nat;
  load_success : bool
}.

(** [struct process]; a file is its handle, a sync object its id. *)
Record process : Type := mkProcess {
  pagedir : option Z;
  main_thread : option tid_t;
  all_files_list : list (Z * Z);
  next_fd : Z;
  all_threads : list tid_t;
  p_semapth : nat;
  prog_lock_list : list Z;
  next_sema_id : Z;
  file : option Z;
  next_lock_id : Z;
  prog_sema_list : list Z
}.

(** What this file reads of a [struct thread]; threads go by their tid. *)
Record uthread : Type := mkThread {
  t_status : Sched.thread_status;
  t_pcb : option paddr
}.

(** The kernel state the process code works on: the heap of join records
    and the global [thread_block_list] linking them, the thread pages, the
    PCBs, and logs of what was handed back to the file system and the page
    allocator. *)
Record kernel : Type := mkKernel {
  blocks : gmap baddr thread_block;
  thread_block_list : list baddr;
  threads : gmap tid_t uthread;
  pcbs : gmap paddr process;
  initial_thread : tid_t;
  closed_files : list Z;
  destroyed_pagedirs : list Z;
  freed_pages : list Z
}.

Definition with_blocks (x : gmap baddr thread_block) (k : kernel) : kernel :=
  mkKernel x (thread_block_list k) (threads k) (pcbs k) (initial_thread k)
    (closed_files k) (destroyed_pagedirs k) (freed_pages k).

Definition with_list (x : list baddr) (k : kernel) : kernel :=
  mkKernel (blocks k) x (threads k) (pcbs k) (initial_thread k)
    (closed_files k) (destroyed_pagedirs k) (freed_pages k).

Definition with_threads (x : gmap tid_t uthread) (k : kernel) : kernel :=
  mkKernel (blocks k) (thread_block_list k) x (pcbs k) (initial_thread k)
    (closed_files k) (destroyed_pagedirs k) (freed_pages k).

Definition with_pcbs (x : gmap paddr process) (k : kernel) : kernel :=
  mkKernel (blocks k) (thread_block_list k) (threads k) x (initial_thread k)
    (closed_files k) (destroyed_pagedirs k) (freed_pages k).

Definition with_closed (x : list Z) (k : kernel) : kernel :=
  mkKernel (blocks k) (thread_block_list k) (threads k) (pcbs k) (initial_thread k)
    x (destroyed_pagedirs k) (freed_pages k).

Definition with_destroyed (x : list Z) (k : kernel) : kernel :=
  mkKernel (blocks k) (thread_block_list k) (threads k) (pcbs k) (initial_thread k)
    (closed_files k) x (freed_pages k).

Definition with_freed (x : list Z) (k : kernel) : kernel :=
  mkKernel (blocks k) (thread_block_list k) (threads k) (pcbs k) (initial_thread k)
    (closed_files k) (destroyed_pagedirs k) x.

Definition update_block (f : thread_block -> thread_block) (a : baddr) (k : kernel) : kernel :=
  with_blocks (alter f a (blocks k)) k.

Definition update_pcb (f : process -> process) (p : paddr) (k : kernel) : kernel :=
  with_pcbs (alter f p (pcbs k)) k.

Definition update_thread (f : uthread -> uthread) (t : tid_t) (k : kernel) : kernel :=
  with_threads (alter f t (threads k)) k.

(** Field assignments. *)
Definition set_was_waited (v : bool) (b : thread_block) : thread_block :=
  mkBlock (b_tid b) (b_pid b) (exit_code b) v (semapth b) (load_semapth b) (load_success b).

Definition set_exit_code_field (v : Z) (b : thread_block) : thread_block :=
  mkBlock (b_tid b) (b_pid b) v (was_waited b) (semapth b) (load_semapth b) (load_success b).

Definition set_b_tid (v : tid_t) (b : thread_block) : thread_block :=
  mkBlock v (b_pid b) (exit_code b) (was_waited b) (semapth b) (load_semapth b)
    (load_success b).

Definition map_semapth (f : nat -> nat) (b : thread_block) : thread_block :=
  mkBlock (b_tid b) (b_pid b) (exit_code b) (was_waited b) (f (semapth b))
    (load_semapth b) (load_success b).

Definition map_load_semapth (f : nat -> nat) (b : thread_block) : thread_block :=
  mkBlock (b_tid b) (b_pid b) (exit_code b) (was_waited b) (semapth b)
    (f (load_semapth b)) (load_success b).

Definition map_p_semapth (f : nat -> nat) (p : process) : process :=
  mkProcess (pagedir p) (main_thread p) (all_files_list p) (next_fd p) (all_threads p)
    (f (p_semapth p)) (prog_lock_list p) (next_sema_id p) (file p) (next_lock_id p)
    (prog_sema_list p).

Definition free_sync_objects (p : process) : process :=
  mkProcess (pagedir p) (main_thread p) (all_files_list p) (next_fd p) (all_threads p)
    (p_semapth p) [] (next_sema_id p) (file p) (next_lock_id p) [].

Definition clear_files (p : process) : process :=
  mkProcess (pagedir p) (main_thread p) [] (next_fd p) (all_threads p)
    (p_semapth p) (prog_lock_list p) (next_sema_id p) (file p) (next_lock_id p)
    (prog_sema_list p).

Definition clear_all_threads (p : process) : process :=
  mkProcess (pagedir p) (main_thread p) (all_files_list p) (next_fd p) []
    (p_semapth p) (prog_lock_list p) (next_sema_id p) (file p) (next_lock_id p)
    (prog_sema_list p).

Definition clear_pagedir (p : process) : process :=
  mkProcess None (main_thread p) (all_files_list p) (next_fd p) (all_threads p)
    (p_semapth p) (prog_lock_list p) (next_sema_id p) (file p) (next_lock_id p)
    (prog_sema_list p).

Definition set_status (s : Sched.thread_status) (t : uthread) : uthread :=
  mkThread s (t_pcb t).

Definition set_pcb (p : option paddr) (t : uthread) : uthread :=
  mkThread (t_status t) p.

(** ** Outcomes of a kernel call made by a thread *)

Inductive sema_ref : Type :=
| JoinSem (a : baddr)
| LoadSem (a : baddr)
| PcbSem (p : paddr).

(** A call returns a value, or suspends the caller in [sema_down] on a
    semaphore whose value is 0 ([resume] is the rest of the call, run from
    the state in which the caller has at last taken the semaphore), or ends
    in [thread_exit], or faults (a NULL or dangling pointer is followed, an
    [ASSERT] fails). *)
Inductive res (A : Type) : Type :=
| Ret (a : A) (k : kernel)
| Block (k : kernel) (s : sema_ref) (resume : kernel -> res A)
| Exit (k : kernel)
| Fault.
Arguments Ret {A} a k.
Arguments Block {A} k s resume.
Arguments Exit {A} k.
Arguments Fault {A}.

(** Modelled from the spec: [threads/synch.c] is not part of the sources
    at hand.  A semaphore is a counter: [sema_up] adds one and never
    waits; [sema_down] takes one when the counter is positive and
    otherwise puts the caller to sleep until it can. *)
Definition sema_value (k : kernel) (s : sema_ref) : option nat :=
  match s with
  | JoinSem a => semapth <$> blocks k !! a
  | LoadSem a => load_semapth <$> blocks k !! a
  | PcbSem p => p_semapth <$> pcbs k !! p
  end.

Definition sema_map (f : nat -> nat) (s : sema_ref) (k : kernel) : kernel :=
  match s with
  | JoinSem a => update_block (map_semapth f) a k
  | LoadSem a => update_block (map_load_semapth f) a k
  | PcbSem p => update_pcb (map_p_semapth f) p k
  end.

Definition sema_up (s : sema_ref) (k : kernel) : kernel := sema_map S s k.

Definition sema_down {A : Type} (s : sema_ref) (rest : kernel -> res A) (k : kernel) : res A :=
  match sema_value k s with
  | None => Fault
  | Some O => Block k s rest
  | Some (S _) => rest (sema_map pred s k)
  end.

(** A suspended call is resumed once its semaphore has been signalled. *)
Definition wake {A : Type} (r : res A) (k : kernel) : res A :=
  match r with
  | Block _ s resume =>
      match sema_value k s with
      | Some (S _) => resume (sema_map pred s k)
      | _ => Block k s resume
      end
  | _ => r
  end.

(** ** The join-record table *)

Definition has_tid (bs : gmap baddr thread_block) (tid : tid_t) (a : baddr) : bool :=
  match bs !! a with
  | Some b => b_tid b =? tid
  | None => false
  end.

Definition block_has_tid (k : kernel) (tid : tid_t) (a : baddr) : bool :=
  has_tid (blocks k) tid a.

(** [get_thread_block]: the first record on the list with this tid. *)
Definition get_thread_block (k : kernel) (tid : tid_t) : option baddr :=
  find (block_has_tid k tid) (thread_block_list k).

(** [list_remove (&block->elem)]. *)
Definition unlink (a : baddr) (k : kernel) : kernel :=
  with_list (filter (fun x => x ≠ a) (thread_block_list k)) k.

(** [remove_thread_block (pid)]: unlink and free every record whose
    creator is [pid]. *)
Fixpoint remove_blocks (pid : tid_t) (l : list baddr) (bs : gmap baddr thread_block)
  : list baddr * gmap baddr thread_block :=
  match l with
  | [] => ([], bs)
  | a :: l' =>
      match bs !! a with
      | Some b =>
          if b_pid b =? pid then remove_blocks pid l' (delete a bs)
          else let '(l2, bs2) := remove_blocks pid l' bs in (a :: l2, bs2)
      | None => let '(l2, bs2) := remove_blocks pid l' bs in (a :: l2, bs2)
      end
  end.

Definition remove_thread_block (pid : tid_t) (k : kernel) : kernel :=
  let '(l, bs) := remove_blocks pid (thread_block_list k) (blocks k) in
  with_blocks bs (with_list l k).

(** [set_exit_code]. *)
Definition set_exit_code (t : tid_t) (code : Z) (k : kernel) : kernel :=
  match get_thread_block k t with
  | Some a => update_block (set_exit_code_field code) a k
  | None => k
  end.

(** The pid a thread acts under: its own tid when it has no PCB or the PCB
    has no main thread, the main thread's tid otherwise. *)
Definition current_pid (k : kernel) (cur : tid_t) : option tid_t :=
  match threads k !! cur with
  | None => None
  | Some t =>
      match t_pcb t with
      | None => Some cur
      | Some p =>
          match pcbs k !! p with
          | None => None
          | Some pr =>
              match main_thread pr with
              | None => Some cur
              | Some mt => Some mt
              end
          end
      end
  end.

(** ** [process_wait] *)

Definition process_wait (cur child_pid : tid_t) (k : kernel) : res Z :=
  match get_thread_block k child_pid with
  | None => Ret (-1) k
  | Some a =>
      match blocks k !! a with
      | None => Fault
      | Some b =>
          if was_waited b then Ret (-1) k
          else
            let k1 := update_block (set_was_waited true) a k in
            let pid := b_pid b in
            match current_pid k1 cur with
            | None => Fault
            | Some cur_pid =>
                if negb (pid =? cur_pid) then Ret (-1) k1
                else
                  sema_down (JoinSem a)
                    (fun k2 =>
                       match blocks k2 !! a with
                       | None => Fault
                       | Some b2 => Ret (exit_code b2) (unlink a k2)
                       end) k1
            end
      end
  end.

(** ** [process_exit] *)

Definition thread_exit {A : Type} (cur : tid_t) (k : kernel) : res A :=
  Exit (update_thread (set_status Sched.THREAD_DYING) cur k).

(** [kill_thread]: the victim's page is freed. *)
Definition kill_thread (t : tid_t) (k : kernel) : option kernel :=
  if decide (t = initial_thread k) then None
  else match threads k !! t with
       | None => None
       | Some _ => Some (with_threads (delete t (threads k)) k)
       end.

(** The loop over [all_threads] that signals every peer's join record and
    unlinks it; a peer without a record makes [list_remove] follow a NULL
    block. *)
Fixpoint signal_roster (roster : list tid_t) (k : kernel) : option kernel :=
  match roster with
  | [] => Some k
  | t :: rest =>
      match get_thread_block k t with
      | None => None
      | Some a => signal_roster rest (unlink a (sema_up (JoinSem a) k))
      end
  end.

(** The loop that pops [all_threads] and kills every peer but the caller. *)
Fixpoint kill_roster (cur : tid_t) (roster : list tid_t) (k : kernel) : option kernel :=
  match roster with
  | [] => Some k
  | t :: rest =>
      if decide (cur = t) then kill_roster cur rest k
      else match kill_thread t k with
           | None => None
           | Some k1 => kill_roster cur rest k1
           end
  end.

Definition signal_own (block : option baddr) (k : kernel) : kernel :=
  match block with
  | Some a => sema_up (JoinSem a) k
  | None => k
  end.

(** The last part of [process_exit], after the peers are gone: close the
    executable, destroy the page directory, free the PCB, signal the
    caller's own record, drop the records the caller made, and end the
    thread. *)
Definition release_process (cur : tid_t) (p : paddr) (pr : process)
    (block : option baddr) (k5 : kernel) : res unit :=
  let k6 := update_pcb clear_all_threads p k5 in
  let k7 := match file pr with
            | Some f => with_closed (closed_files k6 ++ [f]) k6
            | None => k6
            end in
  let k8 := match pagedir pr with
            | Some pd =>
                with_destroyed (destroyed_pagedirs k7 ++ [pd])
                  (update_pcb clear_pagedir p k7)
            | None => k7
            end in
  let k9 := with_pcbs (delete p (pcbs k8)) (update_thread (set_pcb None) cur k8) in
  let k10 := signal_own block k9 in
  thread_exit cur (remove_thread_block cur k10).

Definition process_exit (cur : tid_t) (k : kernel) : res unit :=
  match threads k !! cur with
  | None => Fault
  | Some t =>
      let block := get_thread_block k cur in
      match t_pcb t with
      | None => thread_exit cur (signal_own block k)
      | Some p =>
          match pcbs k !! p with
          | None => Fault
          | Some pr =>
              let k1 := update_pcb free_sync_objects p k in
              let k2 := with_closed (closed_files k1 ++ rev (map snd (all_files_list pr)))
                          (update_pcb clear_files p k1) in
              match signal_roster (all_threads pr) k2 with
              | None => Fault
              | Some k3 =>
                  let k4 :=
                    if decide (main_thread pr = Some cur) then Some k3
                    else match main_thread pr with
                         | None => None
                         | Some mt => kill_thread mt (signal_own (get_thread_block k3 mt) k3)
                         end in
                  match k4 with
                  | None => Fault
                  | Some k4 =>
                      match kill_roster cur (all_threads pr) k4 with
                      | None => Fault
                      | Some k5 => release_process cur p pr block k5
                      end
                  end
              end
          end
      end
  end.

(** ** [process_execute] *)

(** The load barrier as the loader trampolines signal it: [start_process]
    and [start_pthread] look up the record of the thread they run in. *)
Definition signal_load_barrier (cur : tid_t) (k : kernel) : option kernel :=
  match get_thread_block k cur with
  | None => None
  | Some a => Some (sema_up (LoadSem a) k)
  end.

(** [process_execute] up to the return of [thread_create].  The fresh
    join record is on the list, made out to the caller's pid, its [tid]
    field still holding what [malloc] left there ([junk]); the new thread,
    if [thread_create] made one, is ready.  The new thread may run from
    this state on, before the caller goes any further: [thread_create]
    yields to it when the caller's priority is below [PRI_DEFAULT], and a
    timer interrupt may preempt the caller. *)
Definition process_execute_created (pid : tid_t) (a : baddr) (junk : tid_t)
    (created : option tid_t) (k : kernel) : kernel :=
  let b := mkBlock junk pid (-1) false 0 0 false in
  let k1 := with_list (thread_block_list k ++ [a])
              (with_blocks (<[a := b]> (blocks k)) k) in
  match created with
  | Some t => with_threads (<[t := mkThread Sched.THREAD_READY None]> (threads k1)) k1
  | None => k1
  end.

(** The rest of [process_execute]: the tid is stored in the record, the
    scratch page is freed when no thread was made, and the caller waits on
    the load barrier. *)
Definition process_execute_store (fn_copy : Z) (a : baddr) (created : option tid_t)
    (k2 : kernel) : res tid_t :=
  let tid := match created with Some t => t | None => TID_ERROR end in
  let k3 := update_block (set_b_tid tid) a k2 in
  let k4 := if tid =? TID_ERROR
            then with_freed (freed_pages k3 ++ [fn_copy]) k3 else k3 in
  sema_down (LoadSem a)
    (fun k5 =>
       match blocks k5 !! a with
       | None => Fault
       | Some b5 => if load_success b5 then Ret tid k5 else Ret TID_ERROR k5
       end) k4.

(** [process_execute], run by a caller that keeps the processor from the
    return of [thread_create] to its [sema_down]: the new thread first
    runs with the tid already in its record.  (The other schedule starts
    the new thread in the state [process_execute_created].)  The
    environment supplies what the allocators and [thread_create] return:
    [page] is the command-line scratch page (or NULL), [a] the address of
    the fresh join record, [created] the tid of the new thread ([None]
    when [thread_create] returns [TID_ERROR]).  What [malloc] left in the
    [tid] field is overwritten before anything reads it. *)
Definition process_execute (cur : tid_t) (page : option Z) (a : baddr)
    (created : option tid_t) (k : kernel) : res tid_t :=
  match page with
  | None => Ret TID_ERROR k
  | Some fn_copy =>
      match current_pid k cur with
      | None => Fault
      | Some pid =>
          process_execute_store fn_copy a created
            (process_execute_created pid a 0 created k)
      end
  end.

(** ** [pthread_join] *)

Definition pthread_join (cur tid : tid_t) (k : kernel) : res tid_t :=
  match threads k !! cur with
  | None => Fault
  | Some t =>
      match t_pcb t with
      | None => Fault
      | Some p =>
          match pcbs k !! p with
          | None => Fault
          | Some pr =>
              match main_thread pr with
              | None => Fault
              | Some mt =>
                  if tid =? mt then sema_down (PcbSem p) (fun k1 => Ret tid k1) k
                  else
                    match get_thread_block k tid with
                    | None => Ret TID_ERROR k
                    | Some a =>
                        match blocks k !! a with
                        | None => Fault
                        | Some b =>
                            if negb (b_pid b =? mt) then Ret TID_ERROR k
                            else if was_waited b then Ret TID_ERROR k
                            else
                              sema_down (JoinSem a) (fun k2 => Ret tid k2)
                                (update_block (set_was_waited true) a k)
                        end
                    end
              end
          end
      end
  end.

(** Whether a call came back with this value. *)
Definition returned {A : Type} (r : res A) (v : A) : Prop :=
  match r with
  | Ret a _ => a = v
  | _ => False
  end.

(** A thread of the process with PCB [p]. *)
Definition peer_of (k : kernel) (p : paddr) (cur : tid_t) : Prop :=
  exists t, threads k !! cur = Some t /\ t_pcb t = Some p.

(** The first [pthread_join] of a thread other than the main thread, whose
    record [b] at [a] is unjoined: it marks the record, and returns the tid
    once it has the join semaphore -- at once when the thread has exited,
    otherwise when the caller is woken after the thread's exit has
    signalled the record. *)
Definition first_join_goes_through (k : kernel) (cur tid : tid_t) (a : baddr)
    (b : thread_block) (k1 : kernel) : Prop :=
  match semapth b with
  | O =>
      k1 = update_block (set_was_waited true) a k /\
      (exists resume, pthread_join cur tid k = Block k1 (JoinSem a) resume) /\
      forall k2 n, sema_value k2 (JoinSem a) = Some (S n) ->
        wake (pthread_join cur tid k) k2 = Ret tid (sema_map pred (JoinSem a) k2)
  | S _ =>
      k1 = sema_map pred (JoinSem a) (update_block (set_was_waited true) a k) /\
      pthread_join cur tid k = Ret tid k1
  end.

(** A [pthread_join] of the main thread: it waits for the PCB semaphore
    and returns the tid; it consults no record. *)
Definition main_join_waits_on_pcb (k : kernel) (cur : tid_t) (p : paddr) (pr : process)
    (mt : tid_t) : Prop :=
  match p_semapth pr with
  | O =>
      (exists resume, pthread_join cur mt k = Block k (PcbSem p) resume) /\
      forall k2 n, sema_value k2 (PcbSem p) = Some (S n) ->
        wake (pthread_join cur mt k) k2 = Ret mt (sema_map pred (PcbSem p) k2)
  | S _ => pthread_join cur mt k = Ret mt (sema_map pred (PcbSem p) k)
  end.

(** [child] is the main thread of a live process with PCB [pc]; each of
    its peers is a live thread of that PCB with a join record of its own. *)
Definition live_process (k : kernel) (child : tid_t) (pc : paddr) (prc : process) : Prop :=
  (exists tc, threads k !! child = Some tc /\ t_pcb tc = Some pc) /\
  child <> initial_thread k /\
  pcbs k !! pc = Some prc /\
  main_thread prc = Some child /\
  NoDup (all_threads prc) /\
  forall t, t ∈ all_threads prc ->
    t <> child /\ t <> initial_thread k /\
    (exists tt, threads k !! t = Some tt /\ t_pcb tt = Some pc) /\
    is_Some (get_thread_block k t).

(** [ex] is a thread of that process: its main thread or a peer. *)
Definition thread_of (child : tid_t) (prc : process) (ex : tid_t) : Prop :=
  ex = child \/ ex ∈ all_threads prc.


(** The child's record is the only one on the list with the child's tid. *)
Definition only_record (child : tid_t) (a : baddr) (k : kernel) : Prop :=
  forall y, y ∈ thread_block_list k -> block_has_tid k child y = true -> y = a.

(** The record at [a] is the child's join record, made by [ppid] and not
    yet waited for, and no other record carries the child's tid. *)
Definition join_record (k : kernel) (child ppid : tid_t) (a : baddr) : Prop :=
  get_thread_block k child = Some a /\
  only_record child a k /\
  exists b, blocks k !! a = Some b /\ b_pid b = ppid /\ was_waited b = false.


(** ** Sample kernels *)

(** Thread 1 (the boot thread, no PCB) has spawned process 5, whose record
    sits at address 1; process 5 has exited with code 42, so its record is
    signalled.  Thread 2 is an unrelated kernel thread. *)
Definition wait_demo : kernel :=
  mkKernel
    (<[1%positive := mkBlock 5 1 42 false 1 1 true]> ∅)
    [1%positive]
    (<[1 := mkThread Sched.THREAD_RUNNING None]>
       (<[2 := mkThread Sched.THREAD_READY None]> ∅))
    ∅ 1 [] [] [].

(** Process 5 (PCB 1, main thread 5, one open file, no peers) is alive;
    its parent is thread 1 and its record sits at address 1. *)
Definition child_demo : kernel :=
  mkKernel
    (<[1%positive := mkBlock 5 1 (-1) false 0 1 true]> ∅)
    [1%positive]
    (<[1 := mkThread Sched.THREAD_BLOCKED None]>
       (<[5 := mkThread Sched.THREAD_RUNNING (Some 1%positive)]> ∅))
    (<[1%positive := mkProcess (Some 7) (Some 5) [(2, 100)] 3 [] 0 [] 1 (Some 99) 1 []]> ∅)
    1 [] [] [].

(** Process 5 again, now with a peer thread 6 whose record sits at
    address 2. *)
Definition peer_demo : kernel :=
  mkKernel
    (<[1%positive := mkBlock 5 1 (-1) false 0 1 true]>
       (<[2%positive := mkBlock 6 5 (-1) false 0 1 true]> ∅))
    [1%positive; 2%positive]
    (<[1 := mkThread Sched.THREAD_BLOCKED None]>
       (<[5 := mkThread Sched.THREAD_READY (Some 1%positive)]>
          (<[6 := mkThread Sched.THREAD_RUNNING (Some 1%positive)]> ∅)))
    (<[1%positive := mkProcess (Some 7) (Some 5) [] 2 [6] 0 [] 1 (Some 99) 1 []]> ∅)
    1 [] [] [].

(** PCB 1 has main thread 1 and peers 2 and 3; the main thread has called
    [pthread_exit_main], which signalled the PCB semaphore once; peer 3 has
    exited, so its record (address 3) is signalled. *)
Definition join_demo : kernel :=
  mkKernel
    (<[2%positive := mkBlock 2 1 (-1) false 0 1 true]>
       (<[3%positive := mkBlock 3 1 (-1) false 1 1 true]> ∅))
    [2%positive; 3%positive]
    (<[1 := mkThread Sched.THREAD_BLOCKED (Some 1%positive)]>
       (<[2 := mkThread Sched.THREAD_RUNNING (Some 1%positive)]>
          (<[3 := mkThread Sched.THREAD_READY (Some 1%positive)]> ∅)))
    (<[1%positive := mkProcess (Some 7) (Some 1) [] 2 [2; 3] 1 [] 1 (Some 99) 1 []]> ∅)
    0 [] [] [].

End Proc.

(** * The per-process file table ([userprog/process.c]) *)

Module Files.
Import Proc.

(** [e->fd = pcb->next_fd++; list_push_back (&pcb->all_files_list, e)];
    [next_fd] is an [int]. *)
Definition push_file (file : Z) (p : process) : process :=
  mkProcess (pagedir p) (main_thread p) (all_files_list p ++ [(next_fd p, file)])
    (to_i32 (next_fd p + 1)) (all_threads p) (p_semapth p) (prog_lock_list p)
    (next_sema_id p) (Proc.file p) (next_lock_id p) (prog_sema_list p).

Definition set_files (l : list (Z * Z)) (p : process) : process :=
  mkProcess (pagedir p) (main_thread p) l (next_fd p) (all_threads p) (p_semapth p)
    (prog_lock_list p) (next_sema_id p) (Proc.file p) (next_lock_id p) (prog_sema_list p).

(** The loop of [fd_to_file] and [close_file]: the first entry with this
    descriptor. *)
Definition find_fd (fd : Z) (l : list (Z * Z)) : option (Z * Z) :=
  find (fun e => fst e =? fd) l.

(** [list_remove (e)] for the entry the loop of [close_file] stopped at. *)
Fixpoint remove_fd (fd : Z) (l : list (Z * Z)) : list (Z * Z) :=
  match l with
  | [] => []
  | e :: l' => if fst e =? fd then l' else e :: remove_fd fd l'
  end.

(** [file_to_fd]; its [malloc] is not checked by the code and is taken to
    succeed. *)
Definition file_to_fd (cur : tid_t) (file : Z) (k : kernel) : res Z :=
  match threads k !! cur with
  | None => Fault
  | Some t =>
      match t_pcb t with
      | None => Ret (-1) k
      | Some p =>
          match pcbs k !! p with
          | None => Fault
          | Some pr => Ret (next_fd pr) (update_pcb (push_file file) p k)
          end
      end
  end.

(** [fd_to_file]; [None] is the NULL result. *)
Definition fd_to_file (cur : tid_t) (fd : Z) (k : kernel) : res (option Z) :=
  match threads k !! cur with
  | None => Fault
  | Some t =>
      match t_pcb t with
      | None => Ret None k
      | Some p =>
          match pcbs k !! p with
          | None => Fault
          | Some pr => Ret (snd <$> find_fd fd (all_files_list pr)) k
          end
      end
  end.

(** [open_for_syscall]; [opened] is what [filesys_open] returns. *)
Definition open_for_syscall (cur : tid_t) (opened : option Z) (k : kernel) : res Z :=
  match opened with
  | None => Ret (-1) k
  | Some f => file_to_fd cur f k
  end.

(** [close_file]; the closed file is handed to [file_close]. *)
Definition close_file (cur : tid_t) (fd : Z) (k : kernel) : res bool :=
  match threads k !! cur with
  | None => Fault
  | Some t =>
      match t_pcb t with
      | None => Ret false k
      | Some p =>
          match pcbs k !! p with
          | None => Fault
          | Some pr =>
              match find_fd fd (all_files_list pr) with
              | None => Ret false k
              | Some e =>
                  let k1 := update_pcb (set_files (remove_fd fd (all_files_list pr))) p k in
                  Ret true (with_closed (closed_files k1 ++ [snd e]) k1)
              end
          end
      end
  end.

(** The PCB a thread runs under. *)
Definition pcb_of (k : kernel) (cur : tid_t) : option (paddr * process) :=
  match threads k !! cur with
  | None => None
  | Some t =>
      match t_pcb t with
      | None => None
      | Some p => match pcbs k !! p with Some pr => Some (p, pr) | None => None end
      end
  end.

(** The descriptors of a file table, in list order. *)
Definition fds (pr : process) : list Z := map fst (all_files_list pr).

(** The table as [start_process] sets it up and the three calls keep it:
    descriptors grow along the list and stay below [next_fd]. *)
Definition fd_table_ok (pr : process) : Prop :=
  StronglySorted Z.lt (fds pr) /\ Forall (fun fd => fd < next_fd pr) (fds pr).

End Files.

(** * More of the scheduler ([threads/thread.c]) *)

Module Threads.
Import Sched.

#[global] Instance thread_status_eq_dec : EqDecision thread_status.
Proof. solve_decision. Defined.

Definition set_blocked_ticks (n : Z) (t : thread) : thread :=
  mkThread (tid t) (status t) (priority t) n (base_priority t) (nice t) (recent_cpu t).

(** [list_remove] of a thread's link from the list it is on. *)
Definition list_remove (t : tptr) (l : list tptr) : list tptr :=
  filter (fun e => e <> t) l.

(** [check_blocked]: one timer tick for a sleeping thread. *)
Definition check_blocked (k : kernel) (t : tptr) : option kernel :=
  match threads k !! t with
  | None => None
  | Some th =>
      match status th with
      | THREAD_BLOCKED =>
          if blocked_ticks th >? 0 then
            let n := blocked_ticks th - 1 in
            let k1 := update_thread (set_blocked_ticks n) t k in
            if n =? 0 then thread_unblock k1 t else Some k1
          else Some k
      | _ => Some k
      end
  end.

(** [check_blocked] on the same thread at [j] successive ticks. *)
Fixpoint check_blocked_times (j : nat) (k : kernel) (t : tptr) : option kernel :=
  match j with
  | O => Some k
  | S j' => k1 ← check_blocked k t; check_blocked_times j' k1 t
  end.

(** [thread_block]; [thread_current] asserts that the caller is running. *)
Definition thread_block (k : kernel) : option kernel :=
  let cur := running k in
  match status_of k cur with
  | Some THREAD_RUNNING => schedule (update_thread (set_status THREAD_BLOCKED) cur k)
  | _ => None
  end.

(** [thread_exit] of [thread.c]. *)
Definition thread_exit (k : kernel) : option kernel :=
  let cur := running k in
  match status_of k cur with
  | Some THREAD_RUNNING =>
      schedule (update_thread (set_status THREAD_DYING) cur
                  (with_all_list (list_remove cur (all_list k)) k))
  | _ => None
  end.

(** What [kill_thread] comes to: the state after it, a failed [ASSERT],
    or a victim one of whose links is on no list of this state. *)
Inductive killed : Type :=
| Killed (k : kernel)
| KillAsserts
| KillOffList.

(** [kill_thread] of [thread.c].  It calls [list_remove] on both links of
    the victim, whatever its status, and frees its page.  This state holds
    the all-threads list and the ready list.  A victim whose [elem] is not
    on the ready list has it on the waiters of a semaphore, which this
    state does not hold, or on no list at all (it sleeps through
    [thread_block], or runs), and then [list_remove] follows what the
    links last pointed at: [KillOffList] stands for both. *)
Definition kill_thread (k : kernel) (t : tptr) : killed :=
  if decide (t = initial_thread k) then KillAsserts
  else match threads k !! t with
       | None => KillAsserts
       | Some _ =>
           if bool_decide (t ∈ all_list k) && bool_decide (t ∈ fifo_ready_list k)
           then Killed (with_threads (delete t (threads k))
                          (with_ready (list_remove t (fifo_ready_list k))
                             (with_all_list (list_remove t (all_list k)) k)))
           else KillOffList
       end.

(** The ready list runs from the highest priority to the lowest. *)
Definition ready_sorted (k : kernel) : Prop :=
  StronglySorted (fun a b => priority_of k b <= priority_of k a) (fifo_ready_list k).

(** A kernel with started scheduling: thread 1 (priority 31) runs, threads
    2 (priority 40) and 3 (priority 31) are ready, thread 4 (priority 35)
    sleeps for three more ticks. *)
Definition sleep_demo : kernel :=
  mkKernel
    (<[1%positive := mkThread 1 THREAD_RUNNING 31 0 31 0 0]>
       (<[2%positive := mkThread 2 THREAD_READY 40 0 40 0 0]>
          (<[3%positive := mkThread 3 THREAD_READY 31 0 31 0 0]>
             (<[4%positive := mkThread 4 THREAD_BLOCKED 35 3 35 0 0]> ∅))))
    [2%positive; 3%positive] [1%positive; 2%positive; 3%positive; 4%positive]
    None 1%positive 1%positive SCHED_PRIO true false 5 0.

End Threads.

(** * Priority donation ([threads/thread.c]) *)

Module Donate.
Import Sched Threads.

(** A [struct lock *]. *)
Definition lptr : Type := positive.

(** The scheduler state together with what the donation code reads
    beyond it: the list [locks] of each thread and the field
    [max_priority] of each lock. *)
Record dkernel : Type := mkDonate {
  sched : kernel;
  locks : gmap tptr (list lptr);
  lock_max : gmap lptr Z
}.

Definition with_sched (k : kernel) (d : dkernel) : dkernel :=
  mkDonate k (locks d) (lock_max d).

Definition with_locks (t : tptr) (l : list lptr) (d : dkernel) : dkernel :=
  mkDonate (sched d) (<[t := l]> (locks d)) (lock_max d).

(** [t->locks]; a thread that has taken no lock has the empty list. *)
Definition held (d : dkernel) (t : tptr) : list lptr :=
  match locks d !! t with
  | Some l => l
  | None => []
  end.

(** [lock->max_priority]; a stray pointer reads as 0. *)
Definition max_priority (d : dkernel) (l : lptr) : Z :=
  match lock_max d !! l with
  | Some p => p
  | None => 0
  end.

(** [lock_cmp_priority]. *)
Definition lock_cmp_priority (d : dkernel) (a b : lptr) : bool :=
  max_priority d a >? max_priority d b.

(** Modelled from the spec: [lib/kernel/list.c] is not part of the sources
    at hand.  [list_sort] puts the list in the order of [less]; elements
    that do not compare keep their order. *)
Fixpoint insert_sorted (less : lptr -> lptr -> bool) (x : lptr) (l : list lptr)
  : list lptr :=
  match l with
  | [] => [x]
  | e :: l' => if less e x then e :: insert_sorted less x l' else x :: e :: l'
  end.

Definition list_sort (less : lptr -> lptr -> bool) (l : list lptr) : list lptr :=
  foldr (insert_sorted less) [] l.

Definition set_base_priority (p : Z) (t : thread) : thread :=
  mkThread (tid t) (status t) (priority t) (blocked_ticks t) p (nice t) (recent_cpu t).

(** [thread_update_priority]. *)
Definition thread_update_priority (d : dkernel) (t : tptr) : option dkernel :=
  match threads (sched d) !! t with
  | None => None
  | Some th =>
      let base := base_priority th in
      match held d t with
      | [] => Some (with_sched (update_thread (set_priority base) t (sched d)) d)
      | _ :: _ =>
          let sorted := list_sort (lock_cmp_priority d) (held d t) in
          let lock_priority := match sorted with
                               | l :: _ => max_priority d l
                               | [] => 0
                               end in
          let p := if lock_priority >? base then lock_priority else base in
          Some (with_sched (update_thread (set_priority p) t (sched d))
                  (with_locks t sorted d))
      end
  end.

(** [thread_donate_priority]. *)
Definition thread_donate_priority (d : dkernel) (t : tptr) : option dkernel :=
  d1 ← thread_update_priority d t;
  match status_of (sched d1) t with
  | None => None
  | Some THREAD_READY =>
      let k := sched d1 in
      let l := list_remove t (fifo_ready_list k) in
      Some (with_sched (with_ready (list_insert_ordered (thread_cmp_priority k) t l) k) d1)
  | Some _ => Some d1
  end.

(** [thread_hold_lock]. *)
Definition thread_hold_lock (d : dkernel) (lock : lptr) : option dkernel :=
  let cur := running (sched d) in
  match threads (sched d) !! cur with
  | None => None
  | Some th =>
      match status th with
      | THREAD_RUNNING =>
          let d1 := with_locks cur
                      (list_insert_ordered (lock_cmp_priority d) lock (held d cur)) d in
          if max_priority d lock >? priority th then
            k2 ← thread_yield
                   (update_thread (set_priority (max_priority d lock)) cur (sched d1));
            Some (with_sched k2 d1)
          else Some d1
      | _ => None
      end
  end.

(** [thread_set_priority]. *)
Definition thread_set_priority (d : dkernel) (new_priority : Z) : option dkernel :=
  match active_sched_policy (sched d) with
  | SCHED_FAIR => Some d
  | _ =>
      let cur := running (sched d) in
      match threads (sched d) !! cur with
      | None => None
      | Some th =>
          match status th with
          | THREAD_RUNNING =>
              let old_priority := priority th in
              let k1 := update_thread (set_base_priority new_priority) cur (sched d) in
              if match held d cur with [] => true | _ => false end
                 || (new_priority >? old_priority)
              then
                k2 ← thread_yield (update_thread (set_priority new_priority) cur k1);
                Some (with_sched k2 d)
              else Some (with_sched k1 d)
          | _ => None
          end
      end
  end.

(** The highest of a base priority and the [max_priority] of the locks
    of a list. *)
Definition donated (d : dkernel) (base : Z) (l : list lptr) : Z :=
  foldr (fun x acc => Z.max (max_priority d x) acc) base l.

(** [sleep_demo] with three locks: the running thread 1 (priority 31)
    holds locks 1 and 2, for which priorities 20 and 45 have been
    donated; thread 3 (ready, priority 31) holds lock 3, for which 50 has
    been donated. *)
Definition donate_demo : dkernel :=
  mkDonate sleep_demo
    (<[1%positive := [1%positive; 2%positive]]> (<[3%positive := [3%positive]]> ∅))
    (<[1%positive := 20]> (<[2%positive := 45]> (<[3%positive := 50]> ∅))).

End Donate.

(** * User-level locks and semaphores ([userprog/process.c]) *)

Module Sync.

(** An [int] stored into a [char] keeps its low eight bits; the i386
    [char] is signed. *)
Definition to_char (x : Z) : Z := (x + 128) mod 256 - 128.

(** Modelled from the spec: [threads/synch.c] is not part of the sources
    at hand.  A semaphore is a counter, a lock is its holder;
    [lock_held_by_current_thread] compares the holder with the caller. *)
Record prog_sema_block : Type := mkSema {
  sema_id : Z;
  sema_value : nat
}.

Record prog_lock_block : Type := mkLock {
  lock_id : Z;
  holder : option tid_t
}.

(** The four fields of [struct process] these calls work on. *)
Record process : Type := mkProcess {
  prog_lock_list : list prog_lock_block;
  next_lock_id : Z;
  prog_sema_list : list prog_sema_block;
  next_sema_id : Z
}.

(** The caller's PCB and the user memory the handles live in: a [char]
    at every address. *)
Record state : Type := mkState {
  pcb : process;
  user : Z -> Z
}.

Definition poke (m : Z -> Z) (a v : Z) : Z -> Z := fun x => if x =? a then v else m x.

(** A call returns a flag, or leaves the caller asleep in [sema_down] or
    [lock_acquire]. *)
Inductive outcome : Type :=
| Returns (b : bool) (s : state)
| Sleeps (s : state).

(** [get_prog_sema_block], [get_prog_lock_block]: the first block with
    this id. *)
Definition get_prog_sema_block (id : Z) (p : process) : option prog_sema_block :=
  find (fun b => sema_id b =? id) (prog_sema_list p).


(** An assignment through the pointer such a lookup returned. *)
Fixpoint update_sema (id : Z) (f : nat -> nat) (l : list prog_sema_block)
  : list prog_sema_block :=
  match l with
  | [] => []
  | b :: l' =>
      if sema_id b =? id then mkSema (sema_id b) (f (sema_value b)) :: l'
      else b :: update_sema id f l'
  end.


Definition with_semas (l : list prog_sema_block) (n : Z) (p : process) : process :=
  mkProcess (prog_lock_list p) (next_lock_id p) l n.

Definition with_locks (l : list prog_lock_block) (n : Z) (p : process) : process :=
  mkProcess l n (prog_sema_list p) (next_sema_id p).

(** [syscall_sema_init]. *)
Definition syscall_sema_init (sema val : Z) (s : state) : bool * state :=
  if (sema =? 0) || (val <? 0) then (false, s)
  else
    let p := pcb s in
    let m := poke (user s) sema (to_char (next_sema_id p)) in
    let block := mkSema (m sema) (Z.to_nat val) in
    (true, mkState (with_semas (prog_sema_list p ++ [block])
                      (to_i32 (next_sema_id p + 1)) p) m).

(** [syscall_sema_up]. *)
Definition syscall_sema_up (sema : Z) (s : state) : bool * state :=
  if sema =? 0 then (false, s)
  else
    match get_prog_sema_block (user s sema) (pcb s) with
    | None => (false, s)
    | Some _ =>
        (true, mkState (with_semas (update_sema (user s sema) S (prog_sema_list (pcb s)))
                          (next_sema_id (pcb s)) (pcb s)) (user s))
    end.

(** [syscall_sema_down]. *)
Definition syscall_sema_down (sema : Z) (s : state) : outcome :=
  if sema =? 0 then Returns false s
  else
    match get_prog_sema_block (user s sema) (pcb s) with
    | None => Returns false s
    | Some b =>
        match sema_value b with
        | O => Sleeps s
        | S _ =>
            Returns true
              (mkState (with_semas (update_sema (user s sema) pred (prog_sema_list (pcb s)))
                          (next_sema_id (pcb s)) (pcb s)) (user s))
        end
    end.








End Sync.

(** * Loading segments and making stacks ([userprog/process.c]) *)

Module Pages.
Import Loader.

(** Modelled from the spec: [userprog/pagedir.c], [threads/palloc.c] and
    [filesys/file.c] are not part of the sources at hand.  A page
    directory maps user pages to frames, with a writable flag and the
    accessed bit the processor sets (clear in a fresh mapping);
    [pagedir_set_page] is taken to find room for its page table.  The user
    pool hands out its free frames from the front of a list, and a freed
    frame goes back to the front.  [file_read] reads what is left of the
    file, up to the size asked for, and moves the position on by as much. *)
Record pte : Type := mkPte {
  frame : Z;
  writable : bool;
  accessed : bool
}.

Record vm : Type := mkVm {
  pagedir : gmap Z pte;
  pool : list Z;
  file_pos : Z
}.

Definition with_pagedir (pd : gmap Z pte) (v : vm) : vm := mkVm pd (pool v) (file_pos v).
Definition with_pool (l : list Z) (v : vm) : vm := mkVm (pagedir v) l (file_pos v).
Definition with_pos (n : Z) (v : vm) : vm := mkVm (pagedir v) (pool v) n.

Definition pagedir_get_page (v : vm) (upage : Z) : option Z := frame <$> pagedir v !! upage.

Definition pagedir_is_accessed (v : vm) (upage : Z) : bool :=
  match pagedir v !! upage with
  | Some e => accessed e
  | None => false
  end.

Definition pagedir_set_page (upage kpage : Z) (w : bool) (v : vm) : vm :=
  with_pagedir (<[upage := mkPte kpage w false]> (pagedir v)) v.

Definition pagedir_clear_page (upage : Z) (v : vm) : vm :=
  with_pagedir (delete upage (pagedir v)) v.

Definition palloc_free_page (kpage : Z) (v : vm) : vm := with_pool (kpage :: pool v) v.

(** The number of bytes [file_read] delivers. *)
Definition file_read (file_len size : Z) (v : vm) : Z :=
  Z.max 0 (Z.min size (file_len - file_pos v)).

(** [install_page]. *)
Definition install_page (upage kpage : Z) (w : bool) (v : vm) : bool * vm :=
  match pagedir_get_page v upage with
  | Some _ => (false, v)
  | None => (true, pagedir_set_page upage kpage w v)
  end.

(** What a call comes to: a result, a failed [ASSERT], or a loop cut
    short by the fuel of the model. *)
Inductive run (A : Type) : Type :=
| Done (a : A) (v : vm)
| Panic
| OutOfFuel.
Arguments Done {A} a v.
Arguments Panic {A}.
Arguments OutOfFuel {A}.

(** The loop of [load_segment]. *)
Fixpoint load_pages (fuel : nat) (file_len upage read_bytes zero_bytes : Z) (w : bool)
    (v : vm) : run bool :=
  match fuel with
  | O => OutOfFuel
  | S fuel' =>
      if (read_bytes >? 0) || (zero_bytes >? 0) then
        let page_read_bytes := if read_bytes <? PGSIZE then read_bytes else PGSIZE in
        let page_zero_bytes := PGSIZE - page_read_bytes in
        match pool v with
        | [] => Done false v
        | kpage :: rest =>
            let v1 := with_pool rest v in
            let got := file_read file_len page_read_bytes v1 in
            let v2 := with_pos (file_pos v1 + got) v1 in
            if negb (got =? page_read_bytes) then Done false (palloc_free_page kpage v2)
            else
              match install_page upage kpage w v2 with
              | (false, v3) => Done false (palloc_free_page kpage v3)
              | (true, v3) =>
                  load_pages fuel' file_len (to_u32 (upage + PGSIZE))
                    (read_bytes - page_read_bytes) (to_u32 (zero_bytes - page_zero_bytes))
                    w v3
              end
        end
      else Done true v
  end.

(** [load_segment]; [ofs] is an [off_t]. *)
Definition load_segment (fuel : nat) (file_len ofs upage read_bytes zero_bytes : Z)
    (w : bool) (v : vm) : run bool :=
  if negb (to_u32 (read_bytes + zero_bytes) mod PGSIZE =? 0) then Panic
  else if negb (Z.land upage PGMASK =? 0) then Panic
  else if negb (Z.rem ofs PGSIZE =? 0) then Panic
  else load_pages fuel file_len upage read_bytes zero_bytes w (with_pos ofs v).

(** The arguments [load] computes for [load_segment] from an accepted
    [PT_LOAD] header. *)
Definition PF_W : Z := 2.

Definition file_page (h : Elf32_Phdr) : Z := Z.land (p_offset h) (to_u32 (Z.lnot PGMASK)).
Definition mem_page (h : Elf32_Phdr) : Z := Z.land (p_vaddr h) (to_u32 (Z.lnot PGMASK)).
Definition segment_writable (h : Elf32_Phdr) : bool := negb (Z.land (p_flags h) PF_W =? 0).

Definition load_accepted (fuel : nat) (file_len : Z) (h : Elf32_Phdr) (v : vm) : run bool :=
  let '(read_bytes, zero_bytes) := load_counts h in
  load_segment fuel file_len (to_i32 (file_page h)) (mem_page h) read_bytes zero_bytes
    (segment_writable h) v.

(** [setup_stack]: the flag, and the initial stack pointer on success. *)
Definition setup_stack (PHYS_BASE : Z) (v : vm) : bool * option Z * vm :=
  match pool v with
  | [] => (false, None, v)
  | kpage :: rest =>
      match install_page (PHYS_BASE - PGSIZE) kpage true (with_pool rest v) with
      | (true, v1) => (true, Some PHYS_BASE, v1)
      | (false, v1) => (false, None, palloc_free_page kpage v1)
      end
  end.

(** The search loop of [setup_thread]: step down from [base] a page at a
    time, at most [n] times, until the page below has its accessed bit
    clear. *)
Fixpoint probe (n : nat) (v : vm) (base : Z) : Z :=
  match n with
  | O => base
  | S n' =>
      let base' := to_u32 (base - PGSIZE) in
      if negb (pagedir_is_accessed v (to_u32 (base' - PGSIZE))) then base'
      else probe n' v base'
  end.

Definition max_pthread_num : nat := Z.to_nat 1000000.

(** [setup_thread] for a thread whose PCB has a page directory: the flag,
    and on success the page recorded in [cur->upage] and the stack
    pointer. *)
Definition setup_thread (PHYS_BASE : Z) (v : vm) : bool * option (Z * Z) * vm :=
  match pool v with
  | [] => (false, None, v)
  | kpage :: rest =>
      let v0 := with_pool rest v in
      let base := probe max_pthread_num v0 PHYS_BASE in
      let upage := to_u32 (base - PGSIZE) in
      match install_page upage kpage true v0 with
      | (true, v1) => (true, Some (upage, base), v1)
      | (false, v1) => (false, None, palloc_free_page kpage v1)
      end
  end.

(** The [j]-th page below the main stack page. *)
Definition stack_slot (PHYS_BASE : Z) (j : nat) : Z :=
  PHYS_BASE - (Z.of_nat j + 2) * PGSIZE.

(** The processor's access to a mapped page sets its accessed bit. *)
Definition touch (upage : Z) (v : vm) : vm :=
  with_pagedir (alter (fun e => mkPte (frame e) (writable e) true) upage (pagedir v)) v.

(** The stack [start_pthread] builds below the pointer [setup_thread]
    handed out: eight bytes of padding, the argument, the thread function
    and a null return address. *)
Definition thread_frame (esp tf arg : Z) (m : Args.mem) : Z * Args.mem :=
  let sp1 := esp - 8 in
  let m1 := Args.memset m sp1 0 8 in
  let sp2 := sp1 - 4 in
  let m2 := Args.store32 m1 sp2 arg in
  let sp3 := sp2 - 4 in
  let m3 := Args.store32 m2 sp3 tf in
  let sp4 := sp3 - 4 in
  (sp4, Args.memset m3 sp4 0 4).

(** The part of [pthread_exit] that gives the stack page back. *)
Definition release_stack (upage : Z) (v : vm) : vm :=
  let v1 := match pagedir_get_page v upage with
            | Some kpage => palloc_free_page kpage v
            | None => v
            end in
  pagedir_clear_page upage v1.

(** The pages [upage], [upage + PGSIZE], ... a segment occupies, and
    their number for a program header. *)
Definition segment_page (upage : Z) (i : nat) : Z := upage + Z.of_nat i * PGSIZE.

Definition segment_pages (h : Elf32_Phdr) : nat :=
  Z.to_nat (ROUND_UP (Z.land (p_vaddr h) PGMASK + p_memsz h) PGSIZE / PGSIZE).

(** A program with one page of code at 0x08048000 whose main stack page
    has been touched; five frames are free. *)
Definition stack_demo : vm :=
  mkVm (<[0x08048000 := mkPte 100 false true]>
          (<[0xBFFFF000 := mkPte 101 true true]> ∅))
       [102; 103; 104; 105; 106] 0.

Definition code_segment : Elf32_Phdr :=
  mkPhdr PT_LOAD 0x1000 0x08049000 0 0x1234 0x2000 6 4096.

End Pages.

(** * Starting and ending processes and user threads ([userprog/process.c]) *)

Module Spawn.
Import Proc.

(** [get_argv]: the first word of a copy of the command line, NULL when
    there is none.  The copy's [malloc] is not checked by the code and is
    taken to succeed. *)
Definition get_argv (file_name : list Z) : option (list Z) :=
  let num := to_i32 (Args.strlen file_name + 1) in
  let copy := firstn (Z.to_nat (num - 1)) file_name in
  match Args.strtok_r copy with
  | Some (token, _) => Some token
  | None => None
  end.

(** Where in its block the pointer [get_argv] returns lies: [strtok_r]
    has stepped over the leading spaces of the copy, so the token starts
    that many bytes behind the address [malloc] returned. *)
Definition get_argv_offset (file_name : list Z) : Z :=
  let num := to_i32 (Args.strlen file_name + 1) in
  let copy := firstn (Z.to_nat (num - 1)) file_name in
  Args.strlen copy - Args.strlen (Args.skip_delims copy).

(** The PCB as [start_process] initialises it; the executable is not yet
    set. *)
Definition new_process (cur : tid_t) : process :=
  mkProcess None (Some cur) [] 2 [] 0 [] 1 None 1 [].

(** What [load] comes to: the page directory and the executable it leaves
    in the PCB and the initial stack pointer it hands back ([setup_stack]
    sets it to [PHYS_BASE], the upper end of the one stack page it maps);
    or a failure, after which the page directory it may have made stays in
    the PCB and the file it may have opened is closed. *)
Inductive load_outcome : Type :=
| Loaded (pd : Z) (f : Z) (esp : Z)
| NotLoaded (pd : option Z) (opened : option Z).

Definition set_loaded (pd f : Z) (p : process) : process :=
  mkProcess (Some pd) (main_thread p) (all_files_list p) (next_fd p) (all_threads p)
    (p_semapth p) (prog_lock_list p) (next_sema_id p) (Some f) (next_lock_id p)
    (prog_sema_list p).

Definition set_pagedir (pd : option Z) (p : process) : process :=
  mkProcess pd (main_thread p) (all_files_list p) (next_fd p) (all_threads p)
    (p_semapth p) (prog_lock_list p) (next_sema_id p) (file p) (next_lock_id p)
    (prog_sema_list p).

Definition set_roster (l : list tid_t) (p : process) : process :=
  mkProcess (pagedir p) (main_thread p) (all_files_list p) (next_fd p) l
    (p_semapth p) (prog_lock_list p) (next_sema_id p) (file p) (next_lock_id p)
    (prog_sema_list p).

Definition set_load_success (v : bool) (b : thread_block) : thread_block :=
  mkBlock (b_tid b) (b_pid b) (exit_code b) (was_waited b) (semapth b) (load_semapth b) v.

(** [list_push_back (&pcb->all_threads, &cur->p_elem)], and
    [list_remove (&cur->p_elem)] for a thread that is on the roster. *)
Definition push_roster (t : tid_t) (p : process) : process :=
  set_roster (all_threads p ++ [t]) p.

Definition drop_roster (t : tid_t) (p : process) : process :=
  set_roster (filter (fun x => x <> t) (all_threads p)) p.

(** Modelled from the spec: [threads/malloc.c] is not part of the sources
    at hand.  [free] takes the address [malloc] returned; given an address
    inside a block it fails an assertion of the allocator, a fatal panic.
    [free_argv] tells whether [free (argv)] in [start_process] is given the
    start of the block [get_argv] allocated. *)
Definition free_argv (file_name : list Z) : bool := get_argv_offset file_name =? 0.

(** Modelled from the spec: [userprog/exception.c] is not part of the
    sources at hand.  A write of the kernel to a user page that is not
    mapped is a page fault that stops the kernel, and below the one stack
    page nothing is mapped when [start_process] packs the arguments.
    [in_stack_page] tells whether the packer, which started at [esp] and
    ended at [sp], has stayed in the page below [esp]. *)
Definition in_stack_page (esp sp : Z) : bool := esp - Loader.PGSIZE <=? sp.

(** [start_process], run by the new thread [cur].  The environment
    supplies the command line and the page [fn_page] it was copied to, the
    address [new_pcb] of the fresh PCB (NULL when [malloc] fails), the
    outcome of [load] and the user memory [m] it leaves.  A call that
    returns [true] has jumped to user mode; [false] is returned when the
    fuel of the packer's loop runs out. *)
Definition start_process (fuel : nat) (cur : tid_t) (file_name : list Z) (fn_page : Z)
    (new_pcb : option paddr) (ld : load_outcome) (m : Args.mem) (k : kernel) : res bool :=
  match threads k !! cur with
  | None => Fault
  | Some _ =>
      match new_pcb with
      | Some p =>
          match get_argv file_name with
          | None => Fault
          | Some _ =>
              let k1 := update_thread (set_pcb (Some p)) cur
                          (with_pcbs (<[p := new_process cur]> (pcbs k)) k) in
              match get_thread_block k1 cur with
              | None => Fault
              | Some a =>
                  match ld with
                  | Loaded pd f esp =>
                      let k2 := update_pcb (set_loaded pd f) p k1 in
                      let k3 := update_block (set_load_success true) a k2 in
                      let k4 := sema_up (LoadSem a) k3 in
                      match Args.args_push_stack fuel file_name esp m with
                      | Args.Done (sp, _) =>
                          if negb (in_stack_page esp sp) then Fault
                          else if negb (free_argv file_name) then Fault
                          else Ret true (with_freed (freed_pages k4 ++ [fn_page]) k4)
                      | Args.ArgvOverflow => Fault
                      | Args.OutOfFuel => Ret false k4
                      end
                  | NotLoaded pd opened =>
                      let k2 := update_pcb (set_pagedir pd) p k1 in
                      let k2' := match opened with
                                 | Some f => with_closed (closed_files k2 ++ [f]) k2
                                 | None => k2
                                 end in
                      let k3 := update_block (set_load_success false) a k2' in
                      let k4 := sema_up (LoadSem a) k3 in
                      let k5 := with_pcbs (delete p (pcbs k4))
                                  (update_thread (set_pcb None) cur k4) in
                      thread_exit cur (with_freed (freed_pages k5 ++ [fn_page]) k5)
                  end
              end
          end
      | None =>
          match get_thread_block k cur with
          | None => Fault
          | Some a =>
              let k1 := sema_up (LoadSem a) k in
              thread_exit cur (with_freed (freed_pages k1 ++ [fn_page]) k1)
          end
      end
  end.

(** [pthread_execute] up to the return of [thread_create]: as in
    [process_execute], the fresh join record, made out to the main thread
    of the process, is on the list with its [tid] field not yet written
    ([junk]), and the new thread, if one was made, is ready and may run
    before the caller stores the tid. *)
Definition pthread_execute_created (mt : tid_t) (a : baddr) (junk : tid_t)
    (created : option tid_t) (k : kernel) : kernel :=
  let b := mkBlock junk mt (-1) false 0 0 false in
  let k1 := with_list (thread_block_list k ++ [a])
              (with_blocks (<[a := b]> (blocks k)) k) in
  match created with
  | Some t => with_threads (<[t := mkThread Sched.THREAD_READY None]> (threads k1)) k1
  | None => k1
  end.

(** The rest of [pthread_execute]: the tid is stored in the record and the
    caller waits on the load barrier. *)
Definition pthread_execute_store (a : baddr) (created : option tid_t) (k2 : kernel)
  : res tid_t :=
  let tid := match created with Some t => t | None => TID_ERROR end in
  let k3 := update_block (set_b_tid tid) a k2 in
  sema_down (LoadSem a)
    (fun k5 =>
       match blocks k5 !! a with
       | None => Fault
       | Some b5 => if load_success b5 then Ret tid k5 else Ret TID_ERROR k5
       end) k3.

(** [pthread_execute], run by a caller that keeps the processor from the
    return of [thread_create] to its [sema_down]; [a] is the address of the
    fresh join record and [created] the tid of the new thread ([None] when
    [thread_create] returns [TID_ERROR]). *)
Definition pthread_execute (cur : tid_t) (a : baddr) (created : option tid_t)
    (k : kernel) : res tid_t :=
  match threads k !! cur with
  | None => Fault
  | Some t =>
      match t_pcb t with
      | None => Fault
      | Some p =>
          match pcbs k !! p with
          | None => Fault
          | Some pr =>
              match main_thread pr with
              | None => Fault
              | Some mt =>
                  pthread_execute_store a created
                    (pthread_execute_created mt a 0 created k)
              end
          end
      end
  end.

(** Sequencing for calls that may sleep on the way. *)
Fixpoint bind {A B : Type} (r : res A) (f : A -> kernel -> res B) : res B :=
  match r with
  | Ret a k => f a k
  | Block k s resume => Block k s (fun k' => bind (resume k') f)
  | Exit k => Exit k
  | Fault => Fault
  end.

(** The loop of [pthread_exit_main]: pop the roster and join each thread
    popped.  The roster is read afresh at each turn; [fuel] bounds the
    turns of the model, and [false] is returned when it runs out. *)
Fixpoint join_roster (fuel : nat) (cur : tid_t) (p : paddr) (k : kernel) : res bool :=
  match fuel with
  | O => Ret false k
  | S fuel' =>
      match pcbs k !! p with
      | None => Fault
      | Some pr =>
          match all_threads pr with
          | [] => Ret true k
          | t :: rest =>
              bind (pthread_join cur t (update_pcb (set_roster rest) p k))
                (fun _ k1 => join_roster fuel' cur p k1)
          end
      end
  end.

(** [pthread_exit_main].  The source never returns from it; the model
    returns [false] when its fuel runs out. *)
Definition pthread_exit_main (fuel : nat) (cur : tid_t) (k : kernel) : res bool :=
  match threads k !! cur with
  | None => Fault
  | Some t =>
      match t_pcb t with
      | None => Fault
      | Some p =>
          match pcbs k !! p with
          | None => Fault
          | Some _ =>
              bind (join_roster fuel cur p (sema_up (PcbSem p) k))
                (fun emptied k1 =>
                   if emptied
                   then thread_exit cur (signal_own (get_thread_block k1 cur) k1)
                   else Ret false k1)
          end
      end
  end.

(** [pthread_exit].  [kpage] is the frame [pagedir_get_page] finds behind
    the caller's stack page (NULL when there is none), which goes back to
    the page allocator.  [pushed] tells whether [start_pthread] has put the
    caller on the roster, so that the links of its [p_elem] are not NULL
    and [list_remove] is called.  For a caller that was put on the roster
    and is on it no more -- [pthread_exit_main] has popped it --
    [list_remove] follows the links the pop left behind; the model does not
    hold them and stops there, returning [false]. *)
Definition pthread_exit_from (pushed : bool) (fuel : nat) (cur : tid_t) (kpage : option Z)
    (k : kernel) : res bool :=
  match threads k !! cur with
  | None => Fault
  | Some t =>
      match t_pcb t with
      | None => Fault
      | Some p =>
          match pcbs k !! p with
          | None => Fault
          | Some pr =>
              if decide (main_thread pr = Some cur) then pthread_exit_main fuel cur k
              else
                let k1 := signal_own (get_thread_block k cur) k in
                let release k2 :=
                  let k3 := match pagedir pr, kpage with
                            | Some _, Some f => with_freed (freed_pages k2 ++ [f]) k2
                            | _, _ => k2
                            end in
                  thread_exit cur k3 in
                if pushed then
                  if bool_decide (cur ∈ all_threads pr)
                  then release (update_pcb (drop_roster cur) p k1)
                  else Ret false k1
                else release k1
          end
      end
  end.

(** [pthread_exit] as a running user thread calls it: [start_pthread] has
    put every such thread on the roster before it let it run. *)
Definition pthread_exit (fuel : nat) (cur : tid_t) (kpage : option Z) (k : kernel)
  : res bool :=
  pthread_exit_from true fuel cur kpage k.

(** [start_pthread], run by the new thread [cur] for the process with
    PCB [p]; [stack] is what [setup_thread] returns.  A call that returns
    [true] has jumped to user mode.  When there is no stack the thread
    ends in [pthread_exit] without having been put on the roster, and
    without a stack page to give back. *)
Definition start_pthread (fuel : nat) (cur : tid_t) (p : paddr) (stack : bool)
    (k : kernel) : res bool :=
  match threads k !! cur with
  | None => Fault
  | Some _ =>
      let block := get_thread_block k cur in
      let k1 := update_thread (set_pcb (Some p)) cur k in
      match block with
      | None => Fault
      | Some a =>
          let k2 := update_block (set_load_success stack) a k1 in
          if stack then
            match pcbs k2 !! p with
            | None => Fault
            | Some _ => Ret true (sema_up (LoadSem a) (update_pcb (push_roster cur) p k2))
            end
          else pthread_exit_from false fuel cur None (sema_up (LoadSem a) k2)
      end
  end.

(** How a state [k'] differs from [k] once the thread [t] has been added
    to the process with PCB [p]: [t] has the status [st] and that PCB, its
    join record [b] sits at [a] at the end of the table, the roster of the
    process is [roster], and everything else is as in [k]. *)
Definition thread_added (k k' : kernel) (p : paddr) (pr : process) (t : tid_t)
    (st : Sched.thread_status) (a : baddr) (b : thread_block) (roster : list tid_t)
  : Prop :=
  (blocks k' !! a = Some b) /\
  (forall y, y <> a -> blocks k' !! y = blocks k !! y) /\
  (thread_block_list k' = thread_block_list k ++ [a]) /\
  (threads k' !! t = Some (mkThread st (Some p))) /\
  (forall u, u <> t -> threads k' !! u = threads k !! u) /\
  (pcbs k' !! p = Some (set_roster roster pr)) /\
  (forall q, q <> p -> pcbs k' !! q = pcbs k !! q).

(** Process 5 (PCB 1, main thread 5, no peers yet) with its parent,
    thread 1. *)
Definition solo_demo : kernel :=
  mkKernel
    (<[1%positive := mkBlock 5 1 (-1) false 0 0 true]> ∅)
    [1%positive]
    (<[1 := mkThread Sched.THREAD_BLOCKED None]>
       (<[5 := mkThread Sched.THREAD_RUNNING (Some 1%positive)]> ∅))
    (<[1%positive := mkProcess (Some 7) (Some 5) [] 2 [] 0 [] 1 (Some 99) 1 []]> ∅)
    1 [] [] [].

(** The thread [par] (no PCB: it acts under its own tid) is about to
    spawn a process from the command line ["echo hello world"]. *)
Definition spawn_demo : kernel :=
  mkKernel ∅ [] (<[1 := mkThread Sched.THREAD_RUNNING None]> ∅) ∅ 1 [] [] [].

End Spawn.

(** * Theorems: machine integers *)

Lemma to_u32_range x : is_u32 (to_u32 x).
Proof. unfold is_u32, to_u32, u32_modulus. apply Z.mod_pos_bound. lia. Qed.

Lemma to_u32_small x : is_u32 x -> to_u32 x = x.
Proof. unfold is_u32, to_u32. intros H. now apply Z.mod_small. Qed.

Lemma to_i32_small x : is_i32 x -> to_i32 x = x.
Proof.
  unfold is_i32, to_i32. intros H. rewrite Z.mod_small by lia. lia.
Qed.

(** * Theorems: ELF segment validation *)

Module LoaderFacts.
Import Loader.

Lemma wrapped_end_ok PB v m :
  is_u32 v -> is_u32 m -> 0 <= PB <= u32_modulus ->
  (v < PB /\ to_u32 (v + m) < PB /\ v <= to_u32 (v + m)) <-> v + m < PB.
Proof.
  unfold is_u32, to_u32, u32_modulus. intros Hv Hm HPB. split.
  - intros (H1 & H2 & H3).
    destruct (Z_lt_ge_dec (v + m) (2 ^ 32)) as [Hs | Hb].
    + rewrite Z.mod_small in H2 by lia. exact H2.
    + exfalso.
      assert (E : (v + m) mod 2 ^ 32 = v + m - 2 ^ 32).
      { symmetry. apply Z.mod_unique with (q := 1); lia. }
      lia.
  - intros H. rewrite Z.mod_small by lia. lia.
Qed.

(** C5, as amended.  [validate_segment] accepts a program header exactly
    when: [p_offset] and [p_vaddr] share their intra-page offset, [p_offset]
    is at most the file length, [p_memsz >= p_filesz] and [p_memsz > 0]
    (so [p_filesz] may be 0), the end address [p_vaddr + p_memsz] does not
    wrap and is itself strictly below [PHYS_BASE], and
    [p_vaddr >= PGSIZE]. *)
Theorem validate_segment_iff PHYS_BASE phdr file_len :
  phdr_wf phdr ->
  0 <= PHYS_BASE <= u32_modulus ->
  0 <= file_len < 2 ^ 31 ->
  validate_segment PHYS_BASE phdr file_len = true <->
  code_valid PHYS_BASE phdr file_len.
Proof.
  intros (_ & Ho & Hv & _ & Hf & Hm & _) HPB Hlen.
  assert (Hl : to_u32 file_len = file_len).
  { apply to_u32_small. unfold is_u32, u32_modulus. lia. }
  pose proof (wrapped_end_ok PHYS_BASE (p_vaddr phdr) (p_memsz phdr) Hv Hm HPB) as Hw.
  unfold validate_segment, code_valid, is_user_vaddr. rewrite Hl.
  unfold is_u32 in *.
  destruct (Z.eqb_spec (Z.land (p_offset phdr) PGMASK) (Z.land (p_vaddr phdr) PGMASK));
    cbn [negb]; [| split; [discriminate | tauto]].
  destruct (Z.gtb_spec (p_offset phdr) file_len); [split; [discriminate | lia] |].
  destruct (Z.ltb_spec (p_memsz phdr) (p_filesz phdr)); [split; [discriminate | lia] |].
  destruct (Z.eqb_spec (p_memsz phdr) 0); [split; [discriminate | lia] |].
  destruct (Z.ltb_spec (p_vaddr phdr) PHYS_BASE);
    cbn [negb]; [| split; [discriminate | lia]].
  destruct (Z.ltb_spec (to_u32 (p_vaddr phdr + p_memsz phdr)) PHYS_BASE);
    cbn [negb]; [| split; [discriminate | lia]].
  destruct (Z.ltb_spec (to_u32 (p_vaddr phdr + p_memsz phdr)) (p_vaddr phdr));
    [split; [discriminate | lia] |].
  destruct (Z.ltb_spec (p_vaddr phdr) PGSIZE); [split; [discriminate | lia] |].
  split; [intros _ | reflexivity].
  repeat split; try lia; try assumption.
Qed.

Lemma validate_segment_iff_witness :
  validate_segment 0xC0000000 bss_only 8192 = true <->
  code_valid 0xC0000000 bss_only 8192.
Proof.
  apply validate_segment_iff.
  - unfold phdr_wf, is_u32, u32_modulus, bss_only, PT_LOAD; simpl. lia.
  - unfold u32_modulus. lia.
  - lia.
Defined.

(** C5, as stated, fails in both directions: a header with [p_filesz = 0]
    and [p_memsz > 0] is accepted (and [load] then maps an all-zero
    segment), and a segment ending exactly at [PHYS_BASE] satisfies the
    stated conditions yet is refused. *)
Lemma validate_segment_not_spec :
  (validate_segment 0xC0000000 bss_only 8192 = true /\
   p_type bss_only = PT_LOAD /\ p_filesz bss_only = 0 /\
   ~ spec_valid 0xC0000000 bss_only 8192 /\
   load_counts bss_only = (0, 4096)) /\
  (validate_segment 0xC0000000 top_segment 8192 = false /\
   spec_valid 0xC0000000 top_segment 8192).
Proof.
  split.
  - split; [reflexivity |]. split; [reflexivity |]. split; [reflexivity |].
    split; [| reflexivity].
    unfold spec_valid, bss_only; simpl. intros (_ & _ & _ & H & _). lia.
  - split; [reflexivity |].
    unfold spec_valid, top_segment, PGSIZE; simpl.
    repeat split; try reflexivity; lia.
Qed.

End LoaderFacts.

(** * Theorems: the ready queue and the fair priority *)

Module SchedFacts.
Import Sched.

Lemma priority_of_set_status k s t e :
  priority_of (update_thread (set_status s) t k) e = priority_of k e.
Proof.
  unfold priority_of, update_thread; simpl.
  rewrite lookup_alter. destruct (decide (t = e)) as [-> |]; [| reflexivity].
  destruct (threads k !! e); reflexivity.
Qed.

Lemma status_of_set_status k s t :
  is_Some (threads k !! t) ->
  status_of (update_thread (set_status s) t k) t = Some s.
Proof.
  intros [th Hth]. unfold status_of, update_thread; simpl.
  rewrite lookup_alter_eq, Hth. reflexivity.
Qed.

Lemma status_of_is_Some k t s : status_of k t = Some s -> is_Some (threads k !! t).
Proof.
  unfold status_of. destruct (threads k !! t); simpl; [eauto | discriminate].
Qed.

Lemma is_Some_set_status k s t e :
  is_Some (threads (update_thread (set_status s) t k) !! e) <-> is_Some (threads k !! e).
Proof.
  unfold update_thread; simpl. rewrite lookup_alter.
  destruct (decide (t = e)) as [-> |]; [| reflexivity].
  rewrite fmap_is_Some. reflexivity.
Qed.

Lemma placed_ext k k' t l l' :
  (forall e, priority_of k' e = priority_of k e) ->
  placed_by_priority k t l l' -> placed_by_priority k' t l l'.
Proof.
  intros E (front & back & H1 & H2 & H3 & H4). exists front, back.
  repeat split; try assumption.
  - eapply Forall_impl; [exact H3 |]. intros e He. simpl in He. rewrite !E. exact He.
  - destruct back; [exact I |]. rewrite !E. exact H4.
Qed.

(** [list_insert_ordered] under [thread_cmp_priority] places by priority. *)
Lemma insert_ordered_placed k t l :
  placed_by_priority k t l (list_insert_ordered (thread_cmp_priority k) t l).
Proof.
  induction l as [| e l IH]; simpl.
  - exists [], []. repeat split. constructor.
  - unfold thread_cmp_priority at 1.
    destruct (Z.gtb_spec (priority_of k t) (priority_of k e)) as [Hgt | Hle].
    + exists [], (e :: l). repeat split; [constructor | lia].
    + destruct IH as (front & back & H1 & H2 & H3 & H4).
      exists (e :: front), back. rewrite H2. repeat split.
      * simpl. now rewrite <- H1.
      * constructor; [lia | exact H3].
      * exact H4.
Qed.

Lemma placed_nonempty k t l l' : placed_by_priority k t l l' -> l' <> [].
Proof.
  intros (front & back & _ & -> & _) E. destruct front; discriminate.
Qed.

(** Placement by priority is an append exactly when no queued thread has
    a lower priority. *)
Lemma placed_tail_iff k t l l' :
  placed_by_priority k t l l' ->
  l' = l ++ [t] <-> Forall (fun e => priority_of k t <= priority_of k e) l.
Proof.
  intros (front & back & -> & -> & Hf & Hb). split.
  - intros E. rewrite <- app_assoc in E. apply app_inv_head in E.
    destruct back as [| e back]; [rewrite app_nil_r; exact Hf |].
    simpl in E. injection E as E1 _. subst e. lia.
  - intros HF. apply Forall_app in HF as [_ HF].
    destruct back as [| e back]; [now rewrite app_nil_r |].
    inversion HF; subst. lia.
Qed.

Lemma unblock_placed k : unblock_placement k.
Proof.
  intros t Hst. unfold thread_unblock. rewrite Hst.
  eexists. split; [reflexivity |].
  assert (Hsome : is_Some (threads k !! t)) by (eapply status_of_is_Some; eauto).
  split; [| split].
  - apply status_of_set_status. simpl. exact Hsome.
  - simpl. apply insert_ordered_placed.
  - simpl. apply placed_tail_iff, insert_ordered_placed.
Qed.

Lemma yield_strong k :
  ready_wf k ->
  schedule_started k = true ->
  status_of k (running k) = Some THREAD_RUNNING ->
  Some (running k) <> idle_thread k ->
  exists k' next rest, thread_yield k = Some k' /\
    placed_by_priority k (running k) (fifo_ready_list k) (next :: rest) /\
    running k' = next /\ fifo_ready_list k' = rest /\
    status_of k' next = Some THREAD_RUNNING /\
    forall e, priority_of k' e = priority_of k e.
Proof.
  intros Hwf Hstart Hrun Hidle. unfold thread_yield.
  rewrite Hstart, Hrun; simpl.
  destruct (decide (Some (running k) = idle_thread k)) as [E | _]; [contradiction |].
  set (cur := running k).
  set (l := list_insert_ordered (thread_cmp_priority k) cur (fifo_ready_list k)).
  pose proof (insert_ordered_placed k cur (fifo_ready_list k)) as Hpl. fold l in Hpl.
  assert (Hcur : is_Some (threads k !! cur)) by (eapply status_of_is_Some; eauto).
  assert (Hall : Forall (fun e => is_Some (threads k !! e)) l).
  { destruct Hpl as (front & back & E1 & E2 & _). rewrite E2.
    unfold ready_wf in Hwf. rewrite E1 in Hwf. apply Forall_app in Hwf as [Hf Hb].
    apply Forall_app. split; [exact Hf |]. constructor; assumption. }
  destruct l as [| next rest] eqn:El; [exfalso; eapply placed_nonempty; eauto |].
  inversion Hall as [| ? ? Hnext _]; subst.
  set (k1 := update_thread (set_status THREAD_READY) cur (with_ready (next :: rest) k)).
  assert (Hst1 : status_of k1 cur = Some THREAD_READY).
  { apply status_of_set_status. exact Hcur. }
  assert (Hnext1 : is_Some (threads k1 !! next)).
  { apply is_Some_set_status. exact Hnext. }
  unfold schedule. simpl. fold cur. fold k1.
  change (with_ready rest k1) with (with_ready rest k1).
  set (k2 := with_ready rest k1).
  assert (Hst2 : status_of k2 cur = Some THREAD_READY) by exact Hst1.
  rewrite Hst2.
  assert (Hthr : is_thread k2 next = true).
  { unfold is_thread. destruct Hnext1 as [x Hx]. change (threads k2) with (threads k1).
    now rewrite Hx. }
  rewrite Hthr; simpl.
  assert (Hpr1 : forall e, priority_of k1 e = priority_of k e).
  { intros e. unfold k1. rewrite priority_of_set_status. reflexivity. }
  destruct (decide (cur = next)) as [E | NE].
  - eexists _, next, rest. split; [reflexivity |]. split; [exact Hpl |].
    unfold thread_switch_tail; simpl. repeat split; [now subst | |].
    + change (status_of (update_thread (set_status THREAD_RUNNING) cur k2) next
              = Some THREAD_RUNNING).
      rewrite E. apply status_of_set_status. exact Hnext1.
    + intros e.
      change (priority_of (update_thread (set_status THREAD_RUNNING) cur k2) e
              = priority_of k e).
      rewrite priority_of_set_status. exact (Hpr1 e).
  - eexists _, next, rest. split; [reflexivity |]. split; [exact Hpl |].
    unfold thread_switch_tail. cbn [running with_running].
    set (k3 := with_thread_ticks 0 _).
    assert (Hc3 : status_of k3 cur = Some THREAD_READY).
    { unfold k3, status_of; simpl. rewrite lookup_alter_ne by congruence.
      exact Hst1. }
    rewrite Hc3. repeat split.
    + unfold k3.
      change (status_of (update_thread (set_status THREAD_RUNNING) next
                           (with_running next k2)) next = Some THREAD_RUNNING).
      apply status_of_set_status. exact Hnext1.
    + intros e. unfold k3.
      change (priority_of (update_thread (set_status THREAD_RUNNING) next
                             (with_running next k2)) e = priority_of k e).
      rewrite priority_of_set_status. exact (Hpr1 e).
Qed.

Lemma yield_placed k : ready_wf k -> yield_placement k.
Proof.
  intros Hwf Hstart Hrun Hidle.
  destruct (yield_strong k Hwf Hstart Hrun Hidle)
    as (k' & next & rest & H1 & H2 & H3 & H4 & H5 & _).
  exists k', next, rest. auto.
Qed.

Lemma head_is_selected k : head_selected k.
Proof.
  unfold head_selected, thread_schedule_fifo, next_thread_to_run.
  destruct (fifo_ready_list k); split; reflexivity.
Qed.

Lemma create_placed k : ready_wf k -> create_placement k.
Proof.
  intros Hwf F less t prio Hprio Hfresh Hrun Hidle.
  assert (Hcur : is_Some (threads k !! running k)) by (eapply status_of_is_Some; eauto).
  assert (Hne : running k <> t).
  { intros E. rewrite E, Hfresh in Hcur. destruct Hcur; discriminate. }
  unfold thread_create, init_thread.
  assert (Hr : (PRI_MIN <=? prio) && (prio <=? PRI_MAX) = true).
  { apply andb_true_intro. split; apply Z.leb_le; lia. }
  rewrite Hr. cbn [negb mbind option_bind allocate_tid].
  set (th := mkThread 0 THREAD_BLOCKED prio 0 prio (initial_nice (is_mls k) prio)
               (fix_int F 0)).
  set (k3 := update_thread (set_tid _) t _).
  assert (Hth3 : threads k3 !! t = Some (set_tid (next_tid k) th)).
  { unfold k3, update_thread; simpl. rewrite lookup_alter_eq, lookup_insert_eq.
    reflexivity. }
  assert (Hoth3 : forall e, e <> t -> threads k3 !! e = threads k !! e).
  { intros e He. unfold k3, update_thread; simpl.
    rewrite lookup_alter_ne, lookup_insert_ne by congruence. reflexivity. }
  assert (Hst3 : status_of k3 t = Some THREAD_BLOCKED).
  { unfold status_of. rewrite Hth3. reflexivity. }
  unfold thread_unblock. rewrite Hst3. cbn [mbind option_bind].
  set (queued := list_insert_ordered (thread_cmp_priority k3) t (fifo_ready_list k3)).
  set (k4 := update_thread (set_status THREAD_READY) t (with_ready queued k3)).
  assert (Hpl : placed_by_priority k3 t (fifo_ready_list k) queued)
    by apply (insert_ordered_placed k3 t (fifo_ready_list k3)).
  assert (Hpr4 : forall e, priority_of k4 e = priority_of k3 e).
  { intros e. unfold k4. rewrite priority_of_set_status. reflexivity. }
  assert (Hp4 : priority_of k4 t = prio).
  { rewrite Hpr4. unfold priority_of. rewrite Hth3. reflexivity. }
  destruct (priority_of k4 (running k4) <? prio) eqn:Hlt.
  2:{ exists k4, queued. split; [reflexivity |]. split; [exact Hp4 |].
      split; [| left; reflexivity].
      eapply placed_ext; [| exact Hpl]. exact Hpr4. }
  destruct (schedule_started k) eqn:Hstart.
  2:{ unfold thread_yield.
      change (schedule_started k4) with (schedule_started k). rewrite Hstart.
      cbn [negb mbind option_bind].
      exists k4, queued. split; [reflexivity |]. split; [exact Hp4 |].
      split; [| left; reflexivity].
      eapply placed_ext; [| exact Hpl]. exact Hpr4. }
  assert (Hwf4 : ready_wf k4).
  { unfold ready_wf. change (fifo_ready_list k4) with queued.
    destruct Hpl as (front & back & E1 & E2 & _). rewrite E2.
    unfold ready_wf in Hwf. rewrite E1 in Hwf. apply Forall_app in Hwf as [Hf Hb].
    assert (Hkeep : forall e, is_Some (threads k !! e) -> is_Some (threads k4 !! e)).
    { intros e He. unfold k4. apply is_Some_set_status.
      change (threads (with_ready queued k3)) with (threads k3).
      destruct (decide (e = t)) as [-> |]; [rewrite Hth3; eauto |].
      rewrite Hoth3 by assumption. exact He. }
    apply Forall_app. split; [eapply Forall_impl; eauto |].
    constructor; [| eapply Forall_impl; eauto].
    unfold k4. apply is_Some_set_status.
    change (threads (with_ready queued k3)) with (threads k3). rewrite Hth3. eauto. }
  assert (Hrun4 : status_of k4 (running k4) = Some THREAD_RUNNING).
  { change (running k4) with (running k). unfold k4, status_of, update_thread; simpl.
    rewrite lookup_alter_ne by congruence.
    change (alter (set_tid (next_tid k)) t (<[t:=th]> (threads k))) with (threads k3).
    rewrite Hoth3 by assumption. exact Hrun. }
  destruct (yield_strong k4 Hwf4 Hstart Hrun4 Hidle)
    as (k5 & next & rest & Hy & Hpl5 & Hr5 & Hl5 & _ & Hpr5).
  rewrite Hy. cbn [mbind option_bind].
  exists k5, queued. split; [reflexivity |]. split; [rewrite Hpr5; exact Hp4 |].
  split.
  - eapply placed_ext; [| exact Hpl]. intros e. rewrite Hpr5. apply Hpr4.
  - right. exists next, rest. split; [| split; assumption].
    eapply placed_ext; [| exact Hpl5]. exact Hpr5.
Qed.

(** Without a page for the new thread, [thread_create] returns
    [TID_ERROR] and changes nothing. *)
Lemma thread_create_no_page F less k prio :
  thread_create F less None k prio = Some (TID_ERROR, k).
Proof. reflexivity. Qed.

(** The policy-aware [thread_enqueue] would append under FIFO, but no
    transition to Ready calls it. *)
Lemma thread_enqueue_fifo_appends k t :
  active_sched_policy k = SCHED_FIFO -> is_thread k t = true ->
  thread_enqueue k t = Some (with_ready (fifo_ready_list k ++ [t]) k).
Proof.
  intros Hp Ht. unfold thread_enqueue. rewrite Ht, Hp. reflexivity.
Qed.

(** C7: what the code does under the FIFO policy.  Unblocking a thread of
    priority 20 while a thread of priority 10 is queued puts the newcomer
    at the head of the ready list, not at its tail, because
    [thread_unblock] inserts by priority whatever the policy.  The
    policy-aware [thread_enqueue], whose call is commented out in
    [thread_unblock], appends the same thread at the tail. *)
Lemma fifo_unblock_not_at_tail :
  active_sched_policy fifo_demo = SCHED_FIFO /\
  status_of fifo_demo 3%positive = Some THREAD_BLOCKED /\
  fifo_ready_list <$> thread_unblock fifo_demo 3%positive = Some [3%positive; 2%positive] /\
  [3%positive; 2%positive] <> fifo_ready_list fifo_demo ++ [3%positive] /\
  fifo_ready_list <$> thread_enqueue fifo_demo 3%positive
    = Some (fifo_ready_list fifo_demo ++ [3%positive]).
Proof.
  split; [reflexivity |]. split; [reflexivity |]. split; [reflexivity |].
  split; [simpl; discriminate | reflexivity].
Qed.

(** Where the code does put a thread that becomes ready.  Under the FIFO
    policy (the code does not look at the policy here) every transition of
    a thread to Ready -- [thread_unblock],
    [thread_yield] of the running thread, [thread_create] through
    [thread_unblock] -- inserts the thread into the ready list by priority:
    behind every queued thread of at least its priority and in front of the
    first queued thread of lower priority, hence at the tail exactly when
    no queued thread has a lower priority; the scheduler selects the next
    thread by popping the head of the ready list. *)
Theorem ready_queue_by_priority k :
  active_sched_policy k = SCHED_FIFO ->
  ready_wf k ->
  unblock_placement k /\ yield_placement k /\ create_placement k /\ head_selected k.
Proof.
  intros _ Hwf. split; [apply unblock_placed |].
  split; [apply yield_placed, Hwf |].
  split; [apply create_placed, Hwf | apply head_is_selected].
Qed.

Lemma ready_queue_by_priority_witness :
  unblock_placement fifo_demo /\ yield_placement fifo_demo /\
  create_placement fifo_demo /\ head_selected fifo_demo.
Proof.
  apply ready_queue_by_priority.
  - reflexivity.
  - unfold ready_wf. simpl. constructor; [| constructor].
    exists (mkThread 2 THREAD_READY 10 0 10 0 0). reflexivity.
Defined.

Lemma quot4_fits rc : is_i32 rc -> is_i32 (Z.quot rc 4).
Proof.
  unfold is_i32. intros H.
  pose proof (Z.quot_rem' rc 4) as E.
  pose proof (Z.rem_bound_abs rc 4 ltac:(lia)) as B. lia.
Qed.

Lemma clamp_range p :
  PRI_MIN <= (if p <? PRI_MIN then PRI_MIN else if p >? PRI_MAX then PRI_MAX else p)
          <= PRI_MAX.
Proof.
  unfold PRI_MIN, PRI_MAX.
  destruct (Z.ltb_spec p 0); [lia |]. destruct (Z.gtb_spec p 63); lia.
Qed.

Lemma clamp_is_clamp p :
  (if p <? PRI_MIN then PRI_MIN else if p >? PRI_MAX then PRI_MAX else p)
  = clamp_priority p.
Proof.
  unfold clamp_priority, PRI_MIN, PRI_MAX.
  destruct (Z.ltb_spec p 0); [lia |]. destruct (Z.gtb_spec p 63); lia.
Qed.

(** C8.  Under the fair policy, [thread_fair_update_priority] on a thread
    other than the idle thread returns, and leaves the thread with a
    priority in [[PRI_MIN, PRI_MAX]]; as long as no intermediate value
    overflows an [int], that priority is [PRI_MAX - recent_cpu / 4 - nice]
    truncated and clamped, where [nice] takes part exactly when [is_mls] is
    set. *)
Theorem fair_update_priority F k t th :
  0 < F ->
  Some t <> idle_thread k ->
  active_sched_policy k = SCHED_FAIR ->
  threads k !! t = Some th ->
  exists k' th',
    thread_fair_update_priority F k t = Some k' /\
    threads k' !! t = Some th' /\
    PRI_MIN <= priority th' <= PRI_MAX /\
    (fair_fits F (is_mls k) (recent_cpu th) (nice th) ->
     priority th' = fair_priority F (is_mls k) (recent_cpu th) (nice th)) /\
    nice th' = nice th /\ recent_cpu th' = recent_cpu th.
Proof.
  intros HF Hidle Hpol Hth. unfold thread_fair_update_priority.
  destruct (decide (Some t = idle_thread k)) as [E | _]; [contradiction |].
  rewrite Hpol, Hth.
  eexists _, _. split; [reflexivity |].
  split; [unfold update_thread; simpl; rewrite lookup_alter_eq, Hth; reflexivity |].
  split; [apply clamp_range |]. split; [| split; reflexivity].
  intros (H1 & H2 & H3 & H4). cbn [priority set_priority].
  rewrite clamp_is_clamp. unfold fair_priority. f_equal.
  unfold fix_trunc, fix_sub_mix, fix_sub, fix_int, fix_unscale.
  rewrite (to_i32_small (PRI_MAX * F)) by assumption.
  rewrite (to_i32_small (Z.quot (recent_cpu th) 4)) by (apply quot4_fits; assumption).
  rewrite (to_i32_small (PRI_MAX * F - Z.quot (recent_cpu th) 4)) by assumption.
  destruct (is_mls k).
  - destruct (H4 eq_refl) as [H5 H6].
    rewrite (to_i32_small (nice th * F)) by assumption.
    rewrite to_i32_small by assumption. reflexivity.
  - rewrite Z.sub_0_r. reflexivity.
Qed.

Example fair_priority_demo : fair_priority 65536 true (10 * 65536) 2 = 58.
Proof. reflexivity. Qed.

Lemma fair_update_priority_witness :
  exists k' th',
    thread_fair_update_priority 65536 fair_demo 2%positive = Some k' /\
    threads k' !! 2%positive = Some th' /\
    PRI_MIN <= priority th' <= PRI_MAX /\
    (fair_fits 65536 true (10 * 65536) 2 ->
     priority th' = fair_priority 65536 true (10 * 65536) 2) /\
    nice th' = 2 /\ recent_cpu th' = 10 * 65536.
Proof.
  refine (fair_update_priority 65536 fair_demo 2%positive
            (mkThread 2 THREAD_READY 31 0 31 2 (10 * 65536)) _ _ _ _).
  - lia.
  - discriminate.
  - reflexivity.
  - reflexivity.
Defined.

End SchedFacts.

(** * Theorems: argument packing *)

Module ArgsFacts.
Import Args.

(** ** Tokenising *)

Lemma words_from_skip s : words_from [] (skip_delims s) = words_from [] s.
Proof.
  induction s as [| c s IH]; simpl; [reflexivity |].
  destruct (c =? SPACE) eqn:E; [exact IH |]. simpl. now rewrite E.
Qed.

Lemma rev_nil_inv {A} (l : list A) : rev l = [] -> l = [].
Proof.
  intros H. apply (f_equal (@length A)) in H. rewrite length_rev in H.
  destruct l; [reflexivity | discriminate].
Qed.

Lemma words_from_span s : forall cur,
  words_from cur s =
  match rev cur ++ fst (span_token s) with
  | [] => words_from [] (snd (span_token s))
  | w => w :: words_from [] (snd (span_token s))
  end.
Proof.
  induction s as [| c s IH]; intros cur; simpl.
  - rewrite app_nil_r. destruct cur as [| x cur]; [reflexivity |].
    destruct (rev (x :: cur)) eqn:E; [apply rev_nil_inv in E; discriminate | reflexivity].
  - destruct (c =? SPACE) eqn:Ec.
    + simpl. rewrite app_nil_r. destruct cur as [| x cur]; [reflexivity |].
      destruct (rev (x :: cur)) eqn:E; [apply rev_nil_inv in E; discriminate | reflexivity].
    + rewrite IH. destruct (span_token s) as [t r]. simpl.
      rewrite <- app_assoc. reflexivity.
Qed.

Lemma span_token_length s :
  (length (fst (span_token s)) + length (snd (span_token s)) <= length s)%nat.
Proof.
  induction s as [| c s IH]; simpl; [lia |].
  destruct (c =? SPACE); simpl; [lia |].
  destruct (span_token s) as [t r]. simpl in *. lia.
Qed.

Lemma skip_delims_length s : (length (skip_delims s) <= length s)%nat.
Proof.
  induction s as [| c s IH]; simpl; [lia |].
  destruct (c =? SPACE); simpl; lia.
Qed.

(** [strtok_r] returns NULL exactly when no token is left ... *)
Lemma strtok_r_none s : strtok_r s = None -> words s = [].
Proof.
  unfold strtok_r, words. intros H. rewrite <- words_from_skip.
  destruct (skip_delims s); [reflexivity | discriminate].
Qed.

(** ... and otherwise hands out the first token and a strictly shorter
    remainder holding the other tokens. *)
Lemma strtok_r_some s t r :
  strtok_r s = Some (t, r) ->
  words s = t :: words r /\ (length t + length r <= length s)%nat /\ t <> [].
Proof.
  unfold strtok_r, words. intros H. rewrite <- words_from_skip.
  pose proof (skip_delims_length s) as Hl.
  destruct (skip_delims s) as [| c s1] eqn:E; [discriminate |].
  assert (H' : span_token (c :: s1) = (t, r)) by (injection H as H; exact H).
  clear H.
  assert (Hc : (c =? SPACE) = false).
  { clear Hl H'. revert E. induction s as [| x l IH]; simpl.
    - discriminate.
    - destruct (x =? SPACE) eqn:Ex; [exact IH |]. intros E. injection E as -> _. exact Ex. }
  pose proof (span_token_length (c :: s1)) as Hs.
  rewrite words_from_span, H' in *. cbn [fst snd rev app] in *.
  assert (Ht : t <> []).
  { simpl in H'. rewrite Hc in H'. destruct (span_token s1). injection H' as <- _.
    discriminate. }
  destruct t as [| x t]; [contradiction |].
  simpl length in *. repeat split; [lia | discriminate].
Qed.

Lemma strlen_nonneg s : 0 <= strlen s.
Proof. unfold strlen. lia. Qed.

Lemma bodies_size_nonneg toks : 0 <= bodies_size toks.
Proof.
  induction toks as [| t ts IH]; simpl; [lia |]. pose proof (strlen_nonneg t). lia.
Qed.

Lemma bodies_size_count toks : Z.of_nat (length toks) <= bodies_size toks.
Proof.
  induction toks as [| t ts IH]; simpl length; simpl bodies_size; [lia |].
  pose proof (strlen_nonneg t). lia.
Qed.

Lemma words_from_size s : forall cur,
  bodies_size (words_from cur s) <= Z.of_nat (length cur) + Z.of_nat (length s) + 1.
Proof.
  induction s as [| c s IH]; intros cur; simpl words_from.
  - destruct cur as [| x cur]; cbn [bodies_size]; [simpl; lia |].
    unfold strlen. rewrite length_rev. simpl length. lia.
  - destruct (c =? SPACE).
    + destruct cur as [| x cur].
      * specialize (IH []). simpl length in *. lia.
      * specialize (IH []). cbn [bodies_size]. unfold strlen. rewrite length_rev.
        simpl length in *. lia.
    + specialize (IH (c :: cur)). simpl length in *. lia.
Qed.

Lemma words_size s : bodies_size (words s) <= strlen s + 1.
Proof. unfold words, strlen. pose proof (words_from_size s []). simpl in *. lia. Qed.

Lemma words_from_chars (P : Z -> Prop) s : forall cur,
  Forall P cur -> Forall P s -> Forall (Forall P) (words_from cur s).
Proof.
  induction s as [| c s IH]; intros cur Hc Hs; simpl.
  - destruct cur; constructor; [| constructor]. now apply Forall_rev.
  - inversion Hs; subst. destruct (c =? SPACE).
    + destruct cur.
      * apply IH; [constructor | assumption].
      * constructor; [now apply Forall_rev | apply IH; [constructor | assumption]].
    + apply IH; [constructor |]; assumption.
Qed.

(** ** Memory *)

Lemma store_bytes_outside bs : forall m a x,
  x < a \/ a + Z.of_nat (length bs) <= x -> store_bytes m a bs x = m x.
Proof.
  induction bs as [| b bs IH]; intros m a x H; simpl; [reflexivity |].
  rewrite IH by (simpl length in H; lia). unfold store8.
  destruct (Z.eqb_spec x a); [simpl length in H; lia | reflexivity].
Qed.

Lemma load_bytes_length m n : forall a, length (load_bytes m a n) = n.
Proof. induction n as [| n IH]; intros a; simpl; [reflexivity | now rewrite IH]. Qed.

Lemma load_bytes_ext m m' n : forall a,
  (forall x, a <= x < a + Z.of_nat n -> m x = m' x) ->
  load_bytes m a n = load_bytes m' a n.
Proof.
  induction n as [| n IH]; intros a H; simpl; [reflexivity |].
  rewrite (H a) by lia. f_equal. apply IH. intros x Hx. apply H. lia.
Qed.

Lemma load_bytes_app m n1 n2 : forall a,
  load_bytes m a (n1 + n2) = load_bytes m a n1 ++ load_bytes m (a + Z.of_nat n1) n2.
Proof.
  induction n1 as [| n1 IH]; intros a; simpl.
  - f_equal. lia.
  - f_equal. rewrite IH. f_equal. f_equal. lia.
Qed.

Lemma load_store_bytes bs : forall m a,
  load_bytes (store_bytes m a bs) a (length bs) = bs.
Proof.
  induction bs as [| b bs IH]; intros m a; simpl; [reflexivity |].
  rewrite store_bytes_outside by lia. unfold store8 at 1. rewrite Z.eqb_refl.
  f_equal. apply IH.
Qed.

(** Reading a piece out of a block whose contents are known. *)
Lemma load_bytes_slice m a l1 l2 l3 :
  load_bytes m a (length (l1 ++ l2 ++ l3)) = l1 ++ l2 ++ l3 ->
  load_bytes m (a + Z.of_nat (length l1)) (length l2) = l2.
Proof.
  rewrite !length_app, !load_bytes_app. intros H.
  apply app_inj_1 in H as [_ H]; [| apply load_bytes_length].
  apply app_inj_1 in H as [H _]; [exact H | apply load_bytes_length].
Qed.

(** ** Pushing *)

Lemma pushed_nil m sp : pushed m sp m sp [].
Proof. unfold pushed; simpl. repeat split; lia. Qed.

Lemma pushed_store m sp bs :
  pushed m sp (store_bytes m (sp - Z.of_nat (length bs)) bs) (sp - Z.of_nat (length bs)) bs.
Proof.
  unfold pushed. split; [reflexivity |]. split; [| split; [apply load_store_bytes |]].
  - intros x Hx. apply store_bytes_outside. lia.
  - intros x Hx. apply store_bytes_outside. lia.
Qed.

Lemma pushed_store_at m sp bs k :
  k = Z.of_nat (length bs) -> pushed m sp (store_bytes m (sp - k) bs) (sp - k) bs.
Proof. intros ->. apply pushed_store. Qed.

Lemma pushed_trans m sp m1 sp1 m2 sp2 b1 b2 :
  pushed m sp m1 sp1 b1 -> pushed m1 sp1 m2 sp2 b2 ->
  pushed m sp m2 sp2 (b2 ++ b1).
Proof.
  intros (E1 & U1 & L1 & B1) (E2 & U2 & L2 & B2). unfold pushed.
  rewrite length_app. split; [lia |]. split; [| split].
  - intros x Hx. rewrite U2 by lia. apply U1. exact Hx.
  - rewrite load_bytes_app, L2. f_equal.
    replace (sp2 + Z.of_nat (length b2)) with sp1 by lia.
    rewrite <- L1 at 2. apply load_bytes_ext. intros x Hx. apply U2. lia.
  - intros x Hx. rewrite B2 by lia. apply B1. lia.
Qed.

Lemma le32_length v : length (le32 v) = 4%nat.
Proof. reflexivity. Qed.

Lemma pushed_store32 m sp v :
  pushed m sp (store32 m (sp - 4) v) (sp - 4) (le32 v).
Proof. exact (pushed_store m sp (le32 v)). Qed.

Lemma concat_le32_length ps : length (concat (map le32 ps)) = (4 * length ps)%nat.
Proof.
  induction ps as [| p ps IH]; [reflexivity |].
  cbn [map concat]. rewrite length_app, IH, le32_length. simpl length. lia.
Qed.

(** The pointer loop pushes [argv[n-1]] first, so the pointers end up in
    index order from low to high addresses. *)
Lemma push_argv_pushed av : forall n m sp,
  (n <= length av)%nat ->
  exists sp' m', push_argv n av sp m = Done (sp', m') /\
    pushed m sp m' sp' (concat (map le32 (take n av))).
Proof.
  induction n as [| i IH]; intros m sp Hn.
  - exists sp, m. split; [reflexivity | apply pushed_nil].
  - destruct (lookup_lt_is_Some_2 av i ltac:(lia)) as [p Hp].
    simpl. rewrite Hp.
    destruct (IH (store32 m (sp - 4) p) (sp - 4) ltac:(lia)) as (sp' & m' & E & P).
    exists sp', m'. split; [exact E |].
    rewrite (take_S_r av i p Hp), map_app, concat_app.
    replace (concat (map le32 [p])) with (le32 p) by reflexivity.
    eapply pushed_trans; [apply pushed_store32 | exact P].
Qed.

(** ** The tokenising loop *)

(** With at most 50 tokens left to pack, the loop terminates without ever
    indexing the pointer array out of bounds, and counts the tokens. *)
Lemma push_tokens_done fuel : forall st,
  (length (rest st) < fuel)%nat ->
  0 <= argc st ->
  argc st + Z.of_nat (length (words (rest st))) <= max_argv_size ->
  length (argv st) = 50%nat ->
  exists st', push_tokens fuel st = Done st' /\
    argc st' = argc st + Z.of_nat (length (words (rest st))) /\
    length (argv st') = 50%nat.
Proof.
  unfold max_argv_size.
  induction fuel as [| fuel IH]; intros st Hfuel Hargc Hmax Hlen; [lia |].
  simpl. destruct (strtok_r (rest st)) as [[t r] |] eqn:Etok.
  - destruct (strtok_r_some _ _ _ Etok) as (Ew & Hl & Hne).
    assert (Ht : (0 < length t)%nat) by (destruct t; [contradiction | simpl; lia]).
    rewrite Ew in *. simpl length in Hmax.
    unfold push_token, max_argv_size.
    assert (Hin : (0 <=? argc st) && (argc st <? 50) = true).
    { apply andb_true_intro. split; [apply Z.leb_le | apply Z.ltb_lt]; lia. }
    rewrite Hin.
    assert (Hc : to_i32 (argc st + 1) = argc st + 1).
    { apply to_i32_small. unfold is_i32. lia. }
    set (st1 := mkPack _ _ _ _ _ _).
    destruct (IH st1) as (st' & E & Hc' & Hl').
    + cbn [rest st1]. lia.
    + cbn [argc st1]. lia.
    + cbn [argc rest st1]. lia.
    + cbn [argv st1]. rewrite length_insert. exact Hlen.
    + exists st'. split; [exact E |]. split; [| exact Hl'].
      rewrite Hc'. cbn [argc rest st1]. rewrite Hc. simpl length. lia.
  - exists st. rewrite (strtok_r_none _ Etok). simpl. repeat split; [lia | exact Hlen].
Qed.

(** C9, as amended.  For a command line of at most 50 space-delimited
    tokens -- the space being the one delimiter the code gives [strtok_r]
    -- [args_push_stack] runs to completion: no access to the 50-entry
    pointer array leaves the indices 0..49, so the out-of-bounds outcome
    is never reached. *)
Theorem argv_writes_in_bounds fuel file_name top m :
  (length file_name < fuel)%nat ->
  (length (words file_name) <= 50)%nat ->
  exists sp m', args_push_stack fuel file_name top m = Done (sp, m').
Proof.
  intros Hfuel Hn. unfold args_push_stack.
  destruct (push_tokens_done fuel
              (mkPack top 0 0 (replicate (Z.to_nat max_argv_size) 0) m file_name))
    as (st & E & Hc & Hl); cbn [rest argc argv].
  - exact Hfuel.
  - lia.
  - unfold max_argv_size. lia.
  - apply length_replicate.
  - rewrite E. cbn [argc rest] in Hc.
    destruct (Z.rem _ 16 >? 0).
    + destruct (push_argv_pushed (argv st) (Z.to_nat (argc st))
                  (store32 (memset (stack st) (esp st - (16 - Z.rem (to_i32 (args_num st + 4 * (argc st + 1) + 4 + 4)) 16)) 0 (16 - Z.rem (to_i32 (args_num st + 4 * (argc st + 1) + 4 + 4)) 16)) (esp st - (16 - Z.rem (to_i32 (args_num st + 4 * (argc st + 1) + 4 + 4)) 16) - 4) 0)
                  (esp st - (16 - Z.rem (to_i32 (args_num st + 4 * (argc st + 1) + 4 + 4)) 16) - 4))
        as (sp' & m' & E' & _); [lia |].
      rewrite E'. eauto.
    + destruct (push_argv_pushed (argv st) (Z.to_nat (argc st))
                  (store32 (stack st) (esp st - 4) 0) (esp st - 4))
        as (sp' & m' & E' & _); [lia |].
      rewrite E'. eauto.
Qed.

Lemma argv_writes_in_bounds_witness :
  exists sp m', args_push_stack 17 echo_cmd 0xC0000000 zero_mem = Done (sp, m').
Proof.
  apply argv_writes_in_bounds.
  - simpl. lia.
  - simpl. lia.
Defined.

(** C9, as stated, fails: the bound that counts is the one on
    space-delimited tokens.  The command line [tabs_cmd] has a single
    white-space-delimited token, but [strtok_r] finds 51 words between its
    spaces, and the 51st is stored at index 50 of the pointer array. *)
Lemma tabs_overflow_argv :
  length (whitespace_tokens tabs_cmd) = 1%nat /\
  (length (whitespace_tokens tabs_cmd) <= 50)%nat /\
  length (words tabs_cmd) = 51%nat /\
  args_push_stack 200 tabs_cmd 0xC0000000 zero_mem = ArgvOverflow.
Proof. repeat split; vm_compute; first [reflexivity | lia | discriminate]. Qed.

(** A 51st token does index the array out of bounds. *)
Example argv_overflow_51 :
  length (words (concat (replicate 51 [97; 32]))) = 51%nat /\
  args_push_stack 200 (concat (replicate 51 [97; 32])) 0xC0000000 zero_mem = ArgvOverflow.
Proof. split; vm_compute; reflexivity. Qed.

Lemma concat_bodies_length toks :
  Z.of_nat (length (concat (map body toks))) = bodies_size toks.
Proof.
  induction toks as [| t ts IH]; [reflexivity |].
  cbn [map concat bodies_size]. unfold body at 1.
  rewrite !length_app. simpl length. unfold strlen. lia.
Qed.

Lemma bodies_size_rev toks : bodies_size (rev toks) = bodies_size toks.
Proof.
  rewrite <- !concat_bodies_length, map_rev.
  induction toks as [| t ts IH]; [reflexivity |].
  cbn [map rev concat]. rewrite concat_app, !length_app. simpl concat.
  rewrite app_nil_r. lia.
Qed.

(** The loop in full: it counts the tokens, sums their sizes, records the
    address of each body, and stacks the bodies downwards. *)
Lemma push_tokens_spec fuel : forall st,
  (length (rest st) < fuel)%nat ->
  0 <= argc st ->
  argc st + Z.of_nat (length (words (rest st))) <= 50 ->
  length (argv st) = 50%nat ->
  0 <= args_num st ->
  args_num st + bodies_size (words (rest st)) < 2 ^ 31 ->
  exists st', push_tokens fuel st = Done st' /\
    argc st' = argc st + Z.of_nat (length (words (rest st))) /\
    args_num st' = args_num st + bodies_size (words (rest st)) /\
    length (argv st') = 50%nat /\
    take (Z.to_nat (argc st')) (argv st') =
      take (Z.to_nat (argc st)) (argv st) ++ arg_ptrs (esp st) (words (rest st)) /\
    pushed (stack st) (esp st) (stack st') (esp st')
      (concat (map body (rev (words (rest st))))).
Proof.
  induction fuel as [| fuel IH]; intros st Hfuel Hargc Hmax Hlen Hnum Hsum; [lia |].
  simpl. destruct (strtok_r (rest st)) as [[t r] |] eqn:Etok.
  2:{ exists st. rewrite (strtok_r_none _ Etok). simpl.
      rewrite app_nil_r. split; [reflexivity |]. split; [lia |]. split; [lia |].
      split; [exact Hlen |]. split; [reflexivity | apply pushed_nil]. }
  destruct (strtok_r_some _ _ _ Etok) as (Ew & Hl & Hne).
  assert (Ht : (0 < length t)%nat) by (destruct t; [contradiction | simpl; lia]).
  rewrite Ew in *. simpl length in Hmax. cbn [bodies_size] in Hsum.
  pose proof (bodies_size_nonneg (words r)) as Hws.
  pose proof (strlen_nonneg t) as Hlt.
  unfold push_token, max_argv_size.
  assert (Hin : (0 <=? argc st) && (argc st <? 50) = true).
  { apply andb_true_intro. split; [apply Z.leb_le | apply Z.ltb_lt]; lia. }
  rewrite Hin.
  rewrite (to_i32_small (argc st + 1)) by (unfold is_i32; lia).
  rewrite (to_i32_small (strlen t + 1)) by (unfold is_i32; lia).
  rewrite (to_i32_small (args_num st + (strlen t + 1))) by (unfold is_i32; lia).
  set (p := esp st - (strlen t + 1)).
  set (st1 := mkPack _ _ _ _ _ _).
  destruct (IH st1) as (st' & E & Hc' & Hn' & Hl' & Hav & Hpush).
  { cbn [rest st1]. lia. }
  { cbn [argc st1]. lia. }
  { cbn [argc rest st1]. lia. }
  { cbn [argv st1]. rewrite length_insert. exact Hlen. }
  { cbn [args_num st1]. lia. }
  { cbn [args_num rest st1]. lia. }
  cbn [argc args_num argv esp stack rest st1] in *.
  exists st'. split; [exact E |].
  split; [rewrite Hc'; simpl length; lia |].
  split; [rewrite Hn'; cbn [bodies_size]; lia |].
  split; [exact Hl' |]. split.
  - rewrite Hav. cbn [arg_ptrs]. fold p.
    replace (Z.to_nat (argc st + 1)) with (S (Z.to_nat (argc st))) by lia.
    rewrite (take_S_r _ _ p) by (apply list_lookup_insert_eq; lia).
    rewrite take_insert_ge by lia. rewrite <- app_assoc. reflexivity.
  - cbn [rev]. rewrite map_app, concat_app.
    replace (concat (map body [t])) with (body t) by (simpl; now rewrite app_nil_r).
    eapply pushed_trans; [| exact Hpush].
    unfold strlcpy.
    destruct (Z.leb_spec (strlen t + 1) 0) as [Hbad | _]; [lia |].
    rewrite take_ge by (unfold strlen; lia). fold (body t).
    assert (Ep : p = esp st - Z.of_nat (length (body t))).
    { unfold p, body, strlen. rewrite length_app. simpl length. lia. }
    rewrite Ep. apply pushed_store.
Qed.

(** ** Words in memory *)

Lemma le32_value w :
  0 <= w < 2 ^ 32 ->
  w mod 256 + 256 * ((w / 256) mod 256) + 65536 * ((w / 65536) mod 256)
  + 16777216 * ((w / 16777216) mod 256) = w.
Proof.
  intros Hw.
  replace (w / 65536) with (w / 256 / 256) by (rewrite Z.div_div by lia; reflexivity).
  replace (w / 16777216) with (w / 256 / 256 / 256)
    by (rewrite !Z.div_div by lia; reflexivity).
  pose proof (Z.div_mod w 256 ltac:(lia)) as E1.
  pose proof (Z.div_mod (w / 256) 256 ltac:(lia)) as E2.
  pose proof (Z.div_mod (w / 256 / 256) 256 ltac:(lia)) as E3.
  assert (H3 : 0 <= w / 256 / 256 / 256 < 256).
  { rewrite !Z.div_div by lia. split.
    - apply Z.div_pos; lia.
    - apply Z.div_lt_upper_bound; lia. }
  rewrite (Z.mod_small (w / 256 / 256 / 256)) by exact H3. lia.
Qed.

Lemma load32_le32 m a v : load_bytes m a 4 = le32 v -> load32 m a = to_u32 v.
Proof.
  unfold le32, load32. simpl load_bytes. intros H.
  injection H as H0 H1 H2 H3.
  replace (a + 1 + 1) with (a + 2) in * by lia.
  replace (a + 2 + 1) with (a + 3) in * by lia.
  rewrite H0, H1, H2, H3. apply le32_value, to_u32_range.
Qed.

(** A word read out of a block whose contents are known. *)
Lemma load32_slice m a l1 v l3 :
  load_bytes m a (length (l1 ++ le32 v ++ l3)) = l1 ++ le32 v ++ l3 ->
  load32 m (a + Z.of_nat (length l1)) = to_u32 v.
Proof.
  intros H. apply load32_le32. exact (load_bytes_slice m a l1 (le32 v) l3 H).
Qed.

(** ** The frame *)

Lemma padding_range toks : 0 <= padding toks < 16.
Proof.
  unfold padding.
  pose proof (Z.mod_pos_bound
                (bodies_size toks + 4 * (Z.of_nat (length toks) + 1) + 8) 16 ltac:(lia)).
  destruct (Z.eqb_spec ((bodies_size toks + 4 * (Z.of_nat (length toks) + 1) + 8) mod 16) 0);
    lia.
Qed.

Lemma padding_aligns toks :
  (bodies_size toks + 4 * (Z.of_nat (length toks) + 1) + 8 + padding toks) mod 16 = 0.
Proof.
  unfold padding.
  set (a := bodies_size toks + 4 * (Z.of_nat (length toks) + 1) + 8).
  pose proof (Z.mod_pos_bound a 16 ltac:(lia)) as Hr.
  pose proof (Z.div_mod a 16 ltac:(lia)) as Ha.
  destruct (Z.eqb_spec (a mod 16) 0) as [E | NE].
  - rewrite Z.add_0_r. exact E.
  - replace (a + (16 - a mod 16)) with ((a / 16 + 1) * 16) by lia.
    apply Z.mod_mul. lia.
Qed.

Lemma arg_ptrs_length toks : forall top, length (arg_ptrs top toks) = length toks.
Proof. induction toks as [| t ts IH]; intros top; simpl; [reflexivity | now rewrite IH]. Qed.

Lemma bodies_size_app a b : bodies_size (a ++ b) = bodies_size a + bodies_size b.
Proof. induction a as [| t ts IH]; simpl; [reflexivity | rewrite IH; lia]. Qed.

Lemma arg_ptrs_app a : forall top b,
  arg_ptrs top (a ++ b) = arg_ptrs top a ++ arg_ptrs (top - bodies_size a) b.
Proof.
  induction a as [| t ts IH]; intros top b; simpl.
  - f_equal. lia.
  - f_equal. rewrite IH. f_equal. f_equal. lia.
Qed.

Lemma frame_length top toks : Z.of_nat (length (frame top toks)) = frame_size toks.
Proof.
  unfold frame, frame_size. pose proof (padding_range toks) as Hp.
  rewrite !length_app, !le32_length, concat_le32_length, arg_ptrs_length,
    length_replicate.
  pose proof (concat_bodies_length (rev toks)) as Hb. rewrite bodies_size_rev in Hb.
  lia.
Qed.

(** [args_push_stack] returns, and what it has pushed below the initial
    stack pointer is the frame. *)
Lemma args_push_stack_pushed fuel file_name top m :
  (length file_name < fuel)%nat ->
  strlen file_name < 4096 ->
  (length (words file_name) <= 50)%nat ->
  exists sp m', args_push_stack fuel file_name top m = Done (sp, m') /\
    pushed m top m' sp (frame top (words file_name)).
Proof.
  intros Hfuel Hlen Hn. unfold args_push_stack.
  set (toks := words file_name) in *.
  pose proof (words_size file_name) as Hsz. fold toks in Hsz.
  pose proof (bodies_size_nonneg toks) as Hnn.
  destruct (push_tokens_spec fuel
              (mkPack top 0 0 (replicate (Z.to_nat max_argv_size) 0) m file_name))
    as (st & E & Hc & Hnum & Hl & Hav & Hpush); cbn [rest argc argv args_num].
  { exact Hfuel. } { lia. } { fold toks. lia. } { apply length_replicate. } { lia. }
  { fold toks. lia. }
  cbn [rest argc argv args_num esp stack] in *. fold toks in Hc, Hnum, Hav, Hpush.
  rewrite E. simpl take in Hav. simpl app in Hav.
  set (n := Z.of_nat (length toks)) in *.
  assert (Htot : to_i32 (args_num st + 4 * (argc st + 1) + 4 + 4)
                 = bodies_size toks + 4 * (n + 1) + 8).
  { rewrite Hnum, Hc. rewrite to_i32_small; [lia |]. unfold is_i32. lia. }
  rewrite Htot.
  rewrite Z.rem_mod_nonneg by lia.
  pose proof (padding_range toks) as Hpr.
  assert (Hpad : exists sp1 m1,
            (if (bodies_size toks + 4 * (n + 1) + 8) mod 16 >? 0
             then (esp st - (16 - (bodies_size toks + 4 * (n + 1) + 8) mod 16),
                   memset (stack st)
                     (esp st - (16 - (bodies_size toks + 4 * (n + 1) + 8) mod 16)) 0
                     (16 - (bodies_size toks + 4 * (n + 1) + 8) mod 16))
             else (esp st, stack st)) = (sp1, m1) /\
            pushed (stack st) (esp st) m1 sp1 (replicate (Z.to_nat (padding toks)) 0)).
  { pose proof (Z.mod_pos_bound (bodies_size toks + 4 * (n + 1) + 8) 16 ltac:(lia)) as Hr.
    unfold padding in *. fold n in Hpr |- *.
    destruct (Z.gtb_spec ((bodies_size toks + 4 * (n + 1) + 8) mod 16) 0) as [Hgt | Hle].
    - eexists _, _. split; [reflexivity |].
      destruct (Z.eqb_spec ((bodies_size toks + 4 * (n + 1) + 8) mod 16) 0) as [E0 | _];
        [lia |].
      unfold memset.
      set (pad := 16 - (bodies_size toks + 4 * (n + 1) + 8) mod 16) in *.
      apply pushed_store_at. rewrite length_replicate. lia.
    - eexists _, _. split; [reflexivity |].
      destruct (Z.eqb_spec ((bodies_size toks + 4 * (n + 1) + 8) mod 16) 0) as [_ | NE];
        [| lia].
      apply pushed_nil. }
  destruct Hpad as (sp1 & m1 & -> & Hp1).
  destruct (push_argv_pushed (argv st) (Z.to_nat (argc st)) (store32 m1 (sp1 - 4) 0)
              (sp1 - 4)) as (sp3 & m3 & E3 & Hp3); [lia |].
  rewrite E3. eexists _, _. split; [reflexivity |].
  rewrite Hav in Hp3.
  pose proof (pushed_trans _ _ _ _ _ _ _ _ Hpush Hp1) as A1.
  pose proof (pushed_trans _ _ _ _ _ _ _ _ A1 (pushed_store32 m1 sp1 0)) as A2.
  pose proof (pushed_trans _ _ _ _ _ _ _ _ A2 Hp3) as A3.
  pose proof (pushed_trans _ _ _ _ _ _ _ _ A3 (pushed_store32 m3 sp3 (sp3 - 4 + 4))) as A4.
  pose proof (pushed_trans _ _ _ _ _ _ _ _ A4
                (pushed_store32 _ (sp3 - 4) (argc st))) as A5.
  pose proof (pushed_trans _ _ _ _ _ _ _ _ A5
                (pushed_store32 _ (sp3 - 4 - 4) 0)) as A6.
  assert (Esp : sp3 - 4 + 4 = top - frame_size toks + 12).
  { destruct A3 as (Es & _). rewrite !length_app in Es.
    rewrite concat_le32_length, arg_ptrs_length, le32_length, length_replicate in Es.
    pose proof (concat_bodies_length (rev toks)) as Hb. rewrite bodies_size_rev in Hb.
    unfold frame_size. fold n. lia. }
  assert (Hc' : n = argc st) by lia.
  unfold frame. fold n. rewrite <- Esp, Hc'. exact A6.
Qed.

Lemma words_no_nul s : is_cstring s -> Forall (Forall (fun c => c <> 0)) (words s).
Proof.
  intros H. apply words_from_chars; [constructor |].
  eapply Forall_impl; [exact H |]. simpl. intros c Hc. lia.
Qed.

(** C3, as stated, fails: the packer splits the command line at spaces
    only.  ["a<TAB>b c"] has three white-space-delimited tokens and fits
    every limit, yet [argc] is 2 and [argv[0]] is the string ["a<TAB>b"]. *)
Lemma tab_is_no_delimiter :
  whitespace_tokens tab_cmd = [[97]; [98]; [99]] /\
  words tab_cmd = [[97; 9; 98]; [99]] /\
  match args_push_stack 6 tab_cmd 0xC0000000 zero_mem with
  | Done (sp, m') =>
      load32 m' (sp + 4) = 2 /\
      load32 m' (sp + 4) <> Z.of_nat (length (whitespace_tokens tab_cmd)) /\
      load_bytes m' (load32 m' (sp + 12)) 4 = [97; 9; 98; 0]
  | _ => False
  end.
Proof. vm_compute. repeat split; first [reflexivity | discriminate]. Qed.

(** C3, as amended.  For a command line that fits the loader's limits -- a
    C string shorter than a page, at most 50 space-delimited tokens (the
    space is the one delimiter the code gives [strtok_r]), and a frame that
    fits the one stack page, whose upper end is the initial stack pointer
    as [setup_stack] leaves it -- [args_push_stack] returns with: [esp + 4] a multiple of 16; the
    bytes from [esp] up to the initial stack pointer being, low to high,
    the fake return address 0, [argc], [argv], [argv[0..argc-1]], the NULL
    sentinel, the padding and the string bodies; [argc] the number of
    tokens; [argv] the address of [argv[0]]; and every [argv[i]] the
    address of a NUL-terminated copy of token [i].  Every write stays
    inside the stack page: [esp] does not leave it, and no byte at or above
    the initial stack pointer or below [esp] is changed. *)
Theorem args_push_stack_layout fuel file_name top m :
  is_cstring file_name ->
  (length file_name < fuel)%nat ->
  strlen file_name < 4096 ->
  (length (words file_name) <= 50)%nat ->
  top mod Loader.PGSIZE = 0 ->
  Loader.PGSIZE <= top < 2 ^ 32 ->
  frame_size (words file_name) <= Loader.PGSIZE ->
  exists sp m',
    args_push_stack fuel file_name top m = Done (sp, m') /\
    sp = top - frame_size (words file_name) /\
    (sp + 4) mod 16 = 0 /\
    load_bytes m' sp (Z.to_nat (frame_size (words file_name)))
      = frame top (words file_name) /\
    load32 m' sp = 0 /\
    load32 m' (sp + 4) = Z.of_nat (length (words file_name)) /\
    load32 m' (sp + 8) = sp + 12 /\
    (forall i t, words file_name !! i = Some t ->
       sp + 16 + 4 * Z.of_nat (length (words file_name))
         <= load32 m' (sp + 12 + 4 * Z.of_nat i) < top /\
       cstring_at m' (load32 m' (sp + 12 + 4 * Z.of_nat i)) t) /\
    load32 m' (sp + 12 + 4 * Z.of_nat (length (words file_name))) = 0 /\
    (forall x, top <= x -> m' x = m x) /\
    top - Loader.PGSIZE <= sp /\
    (forall x, x < sp -> m' x = m x).
Proof.
  intros Hstr Hfuel Hlen Hn Htop4k Htop32 Hpage.
  assert (Htop : top mod 16 = 0).
  { pose proof (Z.div_mod top Loader.PGSIZE ltac:(unfold Loader.PGSIZE; lia)) as E.
    rewrite Htop4k in E. unfold Loader.PGSIZE in E.
    replace top with (top / 4096 * 256 * 16) by lia. apply Z.mod_mul. lia. }
  assert (Hroom : frame_size (words file_name) <= top < 2 ^ 32) by lia.
  destruct (args_push_stack_pushed fuel file_name top m Hfuel Hlen Hn)
    as (sp & m' & E & Hsp & Habove & Hload & Hbelow).
  set (toks := words file_name) in *.
  pose proof (frame_length top toks) as Hfl.
  pose proof (padding_range toks) as Hpad.
  pose proof (bodies_size_nonneg toks) as Hbs.
  assert (Hfs : 16 <= frame_size toks) by (unfold frame_size; lia).
  rewrite Hfl in Hsp.
  exists sp, m'. split; [exact E |]. split; [exact Hsp |]. split.
  { pose proof (padding_aligns toks) as Ha.
    pose proof (Z.div_mod top 16 ltac:(lia)) as Ht.
    pose proof (Z.div_mod (bodies_size toks + 4 * (Z.of_nat (length toks) + 1) + 8
                           + padding toks) 16 ltac:(lia)) as Hb.
    rewrite Ha in Hb. rewrite Htop in Ht.
    replace (sp + 4)
      with ((top / 16 - (bodies_size toks + 4 * (Z.of_nat (length toks) + 1) + 8
                         + padding toks) / 16) * 16)
      by (unfold frame_size in Hsp; lia).
    apply Z.mod_mul. lia. }
  split.
  { rewrite <- Hfl, Nat2Z.id. exact Hload. }
  assert (Hu : forall v, 0 <= v < 2 ^ 32 -> to_u32 v = v).
  { intros v Hv. apply to_u32_small. exact Hv. }
  split.
  { pose proof (load32_slice m' sp [] 0 _ Hload) as H. simpl length in H.
    rewrite Z.add_0_r in H. exact H. }
  split.
  { pose proof (load32_slice m' sp (le32 0) (Z.of_nat (length toks)) _ Hload) as H.
    rewrite le32_length in H. change (Z.of_nat 4) with 4 in H.
    rewrite H. apply Hu. lia. }
  split.
  { unfold frame in Hload. rewrite (app_assoc (le32 0)) in Hload.
    pose proof (load32_slice m' sp _ _ _ Hload) as H.
    rewrite length_app, !le32_length in H.
    replace (sp + Z.of_nat (4 + 4)) with (sp + 8) in H by lia.
    rewrite H. rewrite <- Hsp. apply Hu. lia. }
  split.
  { intros i t Hi.
    pose proof (take_drop_middle toks i t Hi) as Hsplit.
    pose proof (lookup_lt_Some toks i t Hi) as Hlt.
    set (pre := take i toks) in *. set (post := drop (S i) toks) in *.
    assert (Hprelen : length pre = i) by (unfold pre; rewrite length_take; lia).
    pose proof (bodies_size_nonneg pre) as Hpre.
    pose proof (bodies_size_nonneg post) as Hpost.
    pose proof (strlen_nonneg t) as Hst.
    assert (Hsum : bodies_size toks = bodies_size pre + (strlen t + 1 + bodies_size post)).
    { rewrite <- Hsplit, bodies_size_app. reflexivity. }
    set (p := top - bodies_size pre - (strlen t + 1)).
    assert (Hptrs : arg_ptrs top toks
                    = arg_ptrs top pre ++ p :: arg_ptrs p post).
    { rewrite <- Hsplit at 1. rewrite arg_ptrs_app. reflexivity. }
    assert (Hword : load32 m' (sp + 12 + 4 * Z.of_nat i) = p).
    { unfold frame in Hload. rewrite Hptrs in Hload.
      rewrite map_app, concat_app in Hload. cbn [map concat] in Hload.
      rewrite !app_assoc in Hload. rewrite <- !app_assoc in Hload.
      rewrite (app_assoc (le32 0)), (app_assoc (le32 0 ++ _)),
        (app_assoc ((le32 0 ++ _) ++ _)) in Hload.
      pose proof (load32_slice m' sp _ _ _ Hload) as H.
      rewrite !length_app, !le32_length, concat_le32_length, arg_ptrs_length,
        Hprelen in H.
      replace (sp + Z.of_nat (4 + 4 + 4 + 4 * i)) with (sp + 12 + 4 * Z.of_nat i)
        in H by lia.
      rewrite H. apply Hu. unfold p. unfold frame_size in *. lia. }
    rewrite Hword. split; [unfold p; unfold frame_size in *; lia |].
    assert (Hbody : load_bytes m' p (length (body t)) = body t).
    { assert (Hrev : concat (map body (rev toks))
                     = concat (map body (rev post)) ++ body t
                       ++ concat (map body (rev pre))).
      { rewrite <- Hsplit, rev_app_distr. cbn [rev].
        rewrite <- app_assoc. cbn [app].
        rewrite map_app, concat_app. reflexivity. }
      unfold frame in Hload. rewrite Hrev in Hload.
      rewrite !app_assoc in Hload. rewrite <- (app_assoc _ (body t)) in Hload.
      pose proof (load_bytes_slice m' sp _ _ _ Hload) as H.
      rewrite !length_app, !le32_length, concat_le32_length, arg_ptrs_length,
        length_replicate in H.
      pose proof (concat_bodies_length (rev post)) as Hb.
      rewrite bodies_size_rev in Hb.
      replace (sp + Z.of_nat (4 + 4 + 4 + 4 * length toks + 4
                              + Z.to_nat (padding toks)
                              + length (concat (map body (rev post)))))
        with p in H by (unfold p; unfold frame_size in *; lia).
      exact H. }
    unfold cstring_at. unfold body in Hbody. rewrite length_app in Hbody.
    rewrite load_bytes_app in Hbody.
    apply app_inj_1 in Hbody as [Hb1 Hb2]; [| apply load_bytes_length].
    split; [exact Hb1 |]. split.
    - simpl in Hb2. injection Hb2 as Hb2. exact Hb2.
    - pose proof (words_no_nul file_name Hstr) as Hall. fold toks in Hall.
      rewrite Forall_forall in Hall. apply Hall.
      eapply list_elem_of_lookup_2. exact Hi. }
  split.
  { unfold frame in Hload.
    rewrite (app_assoc (le32 0)), (app_assoc (le32 0 ++ _)),
      (app_assoc ((le32 0 ++ _) ++ _)) in Hload.
    pose proof (load32_slice m' sp _ _ _ Hload) as H.
    rewrite !length_app, !le32_length, concat_le32_length, arg_ptrs_length in H.
    replace (sp + Z.of_nat (4 + 4 + 4 + 4 * length toks))
      with (sp + 12 + 4 * Z.of_nat (length toks)) in H by lia.
    exact H. }
  split; [exact Habove |]. split; [lia | exact Hbelow].
Qed.

Example echo_words :
  words echo_cmd = [[101; 99; 104; 111]; [104; 101; 108; 108; 111]; [119; 111; 114; 108; 100]].
Proof. reflexivity. Qed.

Example echo_frame :
  match args_push_stack 17 echo_cmd 0xC0000000 zero_mem with
  | Done (sp, m') =>
      sp = 0xBFFFFFCC /\ load32 m' (sp + 4) = 3 /\ load32 m' (sp + 8) = 0xBFFFFFD8 /\
      load32 m' (sp + 12) = 0xBFFFFFFB /\ load_bytes m' 0xBFFFFFFB 5 = [101; 99; 104; 111; 0]
  | _ => False
  end.
Proof. vm_compute. repeat split; reflexivity. Qed.

Lemma args_push_stack_layout_witness :
  exists sp m',
    args_push_stack 17 echo_cmd 0xC0000000 zero_mem = Done (sp, m') /\
    sp = 0xC0000000 - frame_size (words echo_cmd) /\
    (sp + 4) mod 16 = 0 /\
    load32 m' (sp + 4) = 3 /\
    load32 m' (sp + 8) = sp + 12.
Proof.
  destruct (args_push_stack_layout 17 echo_cmd 0xC0000000 zero_mem)
    as (sp & m' & E & Hsp & Hal & _ & _ & Hargc & Hargv & _).
  - unfold is_cstring, echo_cmd. repeat constructor; lia.
  - simpl. lia.
  - unfold strlen. simpl. lia.
  - simpl. lia.
  - reflexivity.
  - vm_compute. split; [discriminate | reflexivity].
  - vm_compute. discriminate.
  - exists sp, m'. repeat split; assumption.
Defined.

End ArgsFacts.

(** * Theorems: processes, join records and user threads *)

Module ProcFacts.
Import Proc.

Lemma alter_as_insert {K : Type} `{Countable K} {V : Type} (f : V -> V) (i : K) (x : V)
    (m : gmap K V) :
  m !! i = Some x -> alter f i m = <[i := f x]> m.
Proof.
  intros Hx. apply map_eq. intros j. rewrite lookup_alter, lookup_insert.
  destruct (decide (i = j)) as [-> |]; [now rewrite Hx | reflexivity].
Qed.

(** What [get_thread_block] finds is a live record with the tid asked for. *)
Lemma get_thread_block_some k tid a :
  get_thread_block k tid = Some a ->
  a ∈ thread_block_list k /\ exists b, blocks k !! a = Some b /\ b_tid b = tid.
Proof.
  unfold get_thread_block. intros H. apply find_some in H as [Hin Hp].
  split; [now apply list_elem_of_In |].
  unfold block_has_tid, has_tid in Hp. destruct (blocks k !! a) as [b |]; [| discriminate].
  exists b. split; [reflexivity |]. now apply Z.eqb_eq.
Qed.

(** ** [process_wait]: the paths that return -1 *)


Lemma process_wait_already_waited k cur child a b :
  get_thread_block k child = Some a -> blocks k !! a = Some b -> was_waited b = true ->
  process_wait cur child k = Ret (-1) k.
Proof. intros H1 H2 H3. unfold process_wait. now rewrite H1, H2, H3. Qed.

(** C2: what the code does when the caller is not the child's parent.  The
    call returns -1 without touching the semaphore, but it has already set
    [was_waited] in the record: the -1 path is not free of effects. *)
Theorem process_wait_not_parent_marks k cur child a b cp :
  get_thread_block k child = Some a ->
  blocks k !! a = Some b ->
  was_waited b = false ->
  current_pid k cur = Some cp ->
  b_pid b <> cp ->
  process_wait cur child k = Ret (-1) (update_block (set_was_waited true) a k) /\
  blocks (update_block (set_was_waited true) a k) !! a = Some (set_was_waited true b) /\
  set_was_waited true b <> b.
Proof.
  intros H1 H2 H3 H4 H5. unfold process_wait. rewrite H1, H2, H3.
  change (current_pid (update_block (set_was_waited true) a k) cur)
    with (current_pid k cur).
  rewrite H4. destruct (Z.eqb_spec (b_pid b) cp) as [E | _]; [contradiction |].
  split; [reflexivity |]. split.
  - unfold update_block; simpl. now rewrite lookup_alter_eq, H2.
  - intros E. apply (f_equal was_waited) in E. simpl in E. congruence.
Qed.

Lemma process_wait_not_parent_marks_witness :
  process_wait 2 5 wait_demo
    = Ret (-1) (update_block (set_was_waited true) 1%positive wait_demo) /\
  blocks (update_block (set_was_waited true) 1%positive wait_demo) !! 1%positive
    = Some (set_was_waited true (mkBlock 5 1 42 false 1 1 true)) /\
  set_was_waited true (mkBlock 5 1 42 false 1 1 true) <> mkBlock 5 1 42 false 1 1 true.
Proof.
  apply (process_wait_not_parent_marks wait_demo 2 5 1%positive
           (mkBlock 5 1 42 false 1 1 true) 2).
  - reflexivity.
  - reflexivity.
  - reflexivity.
  - reflexivity.
  - simpl. lia.
Defined.

(** After the stranger's failed call the parent itself is turned away,
    although nobody has collected the exit code 42. *)
Example stranger_wait_spoils_parent :
  exists k1, process_wait 2 5 wait_demo = Ret (-1) k1 /\
             process_wait 1 5 k1 = Ret (-1) k1 /\
             exists k2, process_wait 1 5 wait_demo = Ret 42 k2.
Proof.
  eexists. split; [reflexivity |]. split; [reflexivity |].
  eexists. reflexivity.
Qed.

(** ** [process_execute] when [thread_create] fails *)

Lemma find_app_none {A} (P : A -> bool) l x :
  find P l = None -> find P (l ++ [x]) = if P x then Some x else None.
Proof.
  induction l as [| y l IH]; simpl; [reflexivity |].
  destruct (P y); [discriminate | exact IH].
Qed.

(** C4: what the code does when [thread_create] returns [TID_ERROR].  It
    frees the scratch page and then goes on to [sema_down] on the load
    barrier of the record it has just made: the caller is suspended, the
    barrier is 0, and since the record carries the tid [TID_ERROR] no
    loader trampoline ever finds it to signal it. *)
Theorem process_execute_create_failure k cur fn_copy a pid :
  blocks k !! a = None ->
  current_pid k cur = Some pid ->
  exists k' resume,
    process_execute cur (Some fn_copy) a None k = Block k' (LoadSem a) resume /\
    ~ returned (process_execute cur (Some fn_copy) a None k) TID_ERROR /\
    fn_copy ∈ freed_pages k' /\
    sema_value k' (LoadSem a) = Some 0%nat /\
    (forall t k'', t <> TID_ERROR -> signal_load_barrier t k' = Some k'' ->
       sema_value k'' (LoadSem a) = Some 0%nat).
Proof.
  intros Hfresh Hpid. unfold process_execute. rewrite Hpid.
  unfold process_execute_store, process_execute_created.
  cbn [Z.eqb TID_ERROR Z.opp Pos.eqb].
  set (k4 := with_freed _ _).
  assert (Hb : blocks k4 !! a = Some (mkBlock TID_ERROR pid (-1) false 0 0 false)).
  { unfold k4, update_block; simpl. rewrite lookup_alter_eq, lookup_insert_eq.
    reflexivity. }
  assert (Hv : sema_value k4 (LoadSem a) = Some 0%nat).
  { unfold sema_value. rewrite Hb. reflexivity. }
  unfold sema_down. rewrite Hv.
  eexists k4, _. split; [reflexivity |]. split; [simpl; tauto |].
  split; [| split; [exact Hv |]].
  - unfold k4; simpl. apply elem_of_app. right. apply elem_of_cons. now left.
  - intros t k'' Ht Hsig. unfold signal_load_barrier in Hsig.
    destruct (get_thread_block k4 t) as [x |] eqn:Hg; [| discriminate].
    injection Hsig as <-.
    destruct (get_thread_block_some _ _ _ Hg) as (_ & bx & Hbx & Htid).
    assert (Hne : x <> a).
    { intros ->. rewrite Hb in Hbx. injection Hbx as <-. simpl in Htid. congruence. }
    unfold sema_value, sema_up, sema_map, update_block; simpl.
    rewrite lookup_alter_ne by exact Hne. exact Hv.
Qed.

Lemma process_execute_create_failure_witness :
  exists k' resume,
    process_execute 1 (Some 4096) 2%positive None wait_demo
      = Block k' (LoadSem 2%positive) resume /\
    ~ returned (process_execute 1 (Some 4096) 2%positive None wait_demo) TID_ERROR /\
    4096 ∈ freed_pages k' /\
    sema_value k' (LoadSem 2%positive) = Some 0%nat /\
    (forall t k'', t <> TID_ERROR -> signal_load_barrier t k' = Some k'' ->
       sema_value k'' (LoadSem 2%positive) = Some 0%nat).
Proof.
  apply (process_execute_create_failure wait_demo 1 4096 2%positive 1).
  - reflexivity.
  - reflexivity.
Defined.

(** What [malloc] left in the [tid] field of the fresh record does not
    show once the caller has stored the tid. *)
Lemma process_execute_store_junk fn_copy a created pid junk k :
  process_execute_store fn_copy a created (process_execute_created pid a junk created k)
  = process_execute_store fn_copy a created (process_execute_created pid a 0 created k).
Proof.
  unfold process_execute_store.
  assert (E : forall tid,
            update_block (set_b_tid tid) a (process_execute_created pid a junk created k)
            = update_block (set_b_tid tid) a (process_execute_created pid a 0 created k)).
  { intros tid. unfold update_block, process_execute_created, with_blocks.
    destruct created; simpl; rewrite !alter_insert_eq; reflexivity. }
  rewrite E. reflexivity.
Qed.

(** When the scratch page itself cannot be had, the call does return
    [TID_ERROR]. *)
Lemma process_execute_no_page k cur a created :
  process_execute cur None a created k = Ret TID_ERROR k.
Proof. reflexivity. Qed.

(** ** [process_exit] without a PCB *)



(** ** [pthread_join] *)

Lemma find_pointwise {A} (P Q : A -> bool) l :
  (forall x, P x = Q x) -> find P l = find Q l.
Proof.
  intros E. induction l as [| y l IH]; simpl; [reflexivity |].
  rewrite E, IH. reflexivity.
Qed.

(** Assignments that leave the tid field alone do not change what
    [get_thread_block] finds. *)
Lemma get_thread_block_update k f a tid :
  (forall b, b_tid (f b) = b_tid b) ->
  get_thread_block (update_block f a k) tid = get_thread_block k tid.
Proof.
  intros Hf. unfold get_thread_block. apply find_pointwise. intros x.
  unfold block_has_tid, has_tid, update_block; simpl. rewrite lookup_alter.
  destruct (decide (a = x)) as [-> |]; [| reflexivity].
  destruct (blocks k !! x); simpl; [now rewrite Hf | reflexivity].
Qed.

(** A record already marked makes [pthread_join] return [TID_ERROR]. *)
Lemma pthread_join_already_joined k cur p pr mt tid a b :
  peer_of k p cur -> pcbs k !! p = Some pr -> main_thread pr = Some mt ->
  tid <> mt -> get_thread_block k tid = Some a -> blocks k !! a = Some b ->
  was_waited b = true ->
  pthread_join cur tid k = Ret TID_ERROR k.
Proof.
  intros (t & Ht & Hp) Hpr Hmt Hne Hg Hb Hw. unfold pthread_join.
  rewrite Ht, Hp, Hpr, Hmt.
  destruct (Z.eqb_spec tid mt) as [E | _]; [contradiction |].
  rewrite Hg, Hb, Hw. destruct (negb (b_pid b =? mt)); reflexivity.
Qed.

(** C6: what the code does on a second join of the main thread.  After a
    first join of the main thread has succeeded, a second one is not
    refused with [TID_ERROR]: it goes to sleep on the PCB semaphore, which
    the first join has taken back to 0.  On the same state the branch for
    the other threads does refuse: the second join of peer 3 returns
    [TID_ERROR]. *)
Lemma second_join_of_main_not_refused :
  (exists k1,
     pthread_join 2 1 join_demo = Ret 1 k1 /\
     ~ returned (pthread_join 3 1 k1) TID_ERROR /\
     sema_value k1 (PcbSem 1%positive) = Some 0%nat /\
     exists resume, pthread_join 3 1 k1 = Block k1 (PcbSem 1%positive) resume) /\
  (exists k2,
     pthread_join 2 3 join_demo = Ret 3 k2 /\
     pthread_join 1 3 k2 = Ret TID_ERROR k2).
Proof.
  split.
  - eexists. split; [reflexivity |]. split; [simpl; tauto |].
    split; [reflexivity |]. eexists. reflexivity.
  - eexists. split; reflexivity.
Qed.

(** The join-once rule on the branch that keeps it.  For every thread
    other than the main thread of the process, whose join record names the
    process as its creator, the first [pthread_join] by a peer marks the
    record and returns the thread's tid (at once when the thread has
    exited, otherwise after waiting for it), and from then on a
    [pthread_join] of the same thread by any peer returns [TID_ERROR].  A
    [pthread_join] of the main thread is not limited in this way: it only
    waits on the PCB semaphore and then returns the tid. *)
Theorem pthread_join_once k cur p pr mt :
  peer_of k p cur ->
  pcbs k !! p = Some pr ->
  main_thread pr = Some mt ->
  (forall tid a b,
     tid <> mt ->
     get_thread_block k tid = Some a -> blocks k !! a = Some b ->
     b_pid b = mt -> was_waited b = false ->
     exists k1,
       first_join_goes_through k cur tid a b k1 /\
       forall cur2, peer_of k1 p cur2 -> pthread_join cur2 tid k1 = Ret TID_ERROR k1) /\
  main_join_waits_on_pcb k cur p pr mt.
Proof.
  intros (t & Ht & Hp) Hpr Hmt. split.
  - intros tid a b Hne Hg Hb Hpid Hw.
    assert (Hcall : pthread_join cur tid k
                    = sema_down (JoinSem a) (fun k2 => Ret tid k2)
                        (update_block (set_was_waited true) a k)).
    { unfold pthread_join. rewrite Ht, Hp, Hpr, Hmt.
      destruct (Z.eqb_spec tid mt) as [E | _]; [contradiction |].
      rewrite Hg, Hb, Hw, Hpid, Z.eqb_refl. reflexivity. }
    set (k0 := update_block (set_was_waited true) a k) in *.
    assert (Hb0 : blocks k0 !! a = Some (set_was_waited true b)).
    { unfold k0, update_block; simpl. now rewrite lookup_alter_eq, Hb. }
    assert (Hg0 : get_thread_block k0 tid = Some a).
    { unfold k0. rewrite get_thread_block_update by reflexivity. exact Hg. }
    unfold first_join_goes_through. fold k0.
    destruct (semapth b) as [| n] eqn:Hs.
    + assert (Hblk : pthread_join cur tid k
                     = Block k0 (JoinSem a) (fun k2 => Ret tid k2)).
      { rewrite Hcall. unfold sema_down, sema_value. rewrite Hb0. simpl. now rewrite Hs. }
      exists k0. split.
      * split; [reflexivity |]. split; [eauto |].
        intros k2 m Hv. rewrite Hblk. unfold wake. rewrite Hv. reflexivity.
      * intros cur2 Hpeer.
        eapply pthread_join_already_joined; eauto.
    + exists (sema_map pred (JoinSem a) k0). split.
      * split; [reflexivity |].
        rewrite Hcall. unfold sema_down, sema_value. rewrite Hb0. simpl. now rewrite Hs.
      * intros cur2 Hpeer.
        eapply (pthread_join_already_joined _ cur2 p pr mt tid a
                  (map_semapth pred (set_was_waited true b))); eauto.
        -- simpl. rewrite get_thread_block_update by reflexivity. exact Hg0.
        -- unfold sema_map, update_block; simpl.
           change (alter (set_was_waited true) a (blocks k)) with (blocks k0).
           now rewrite lookup_alter_eq, Hb0.
  - unfold main_join_waits_on_pcb, pthread_join. rewrite Ht, Hp, Hpr, Hmt, Z.eqb_refl.
    unfold sema_down, sema_value. rewrite Hpr. simpl.
    destruct (p_semapth pr); [| reflexivity].
    split; [eauto |]. intros k2 m Hv. unfold wake, sema_value. rewrite Hv. reflexivity.
Qed.

Lemma pthread_join_once_witness :
  (forall tid a b,
     tid <> 1 ->
     get_thread_block join_demo tid = Some a -> blocks join_demo !! a = Some b ->
     b_pid b = 1 -> was_waited b = false ->
     exists k1,
       first_join_goes_through join_demo 2 tid a b k1 /\
       forall cur2, peer_of k1 1%positive cur2 ->
                    pthread_join cur2 tid k1 = Ret TID_ERROR k1) /\
  main_join_waits_on_pcb join_demo 2 1%positive
    (mkProcess (Some 7) (Some 1) [] 2 [2; 3] 1 [] 1 (Some 99) 1 []) 1.
Proof.
  apply (pthread_join_once join_demo 2 1%positive
           (mkProcess (Some 7) (Some 1) [] 2 [2; 3] 1 [] 1 (Some 99) 1 []) 1).
  - exists (mkThread Sched.THREAD_RUNNING (Some 1%positive)). split; reflexivity.
  - reflexivity.
  - reflexivity.
Defined.

(** In the sample kernel: peer 2 joins the exited peer 3 and gets its tid;
    the main thread's later attempt is refused. *)
Example join_demo_peer :
  exists k1, pthread_join 2 3 join_demo = Ret 3 k1 /\
             pthread_join 1 3 k1 = Ret TID_ERROR k1.
Proof. eexists. split; reflexivity. Qed.

(** ** A child's exit followed by its parent's wait *)

Lemma find_filter_skip {A} (P : A -> bool) (Q : A -> Prop) `{forall x, Decision (Q x)} l :
  (forall x, P x = true -> Q x) -> find P (filter Q l) = find P l.
Proof.
  intros HPQ. induction l as [| y l IH]; [reflexivity |].
  rewrite filter_cons. destruct (decide (Q y)) as [Hq | Hq]; simpl.
  - now rewrite IH.
  - destruct (P y) eqn:E; [exfalso; auto | exact IH].
Qed.

Lemma find_none_intro {A} (P : A -> bool) l :
  (forall x, x ∈ l -> P x = false) -> find P l = None.
Proof.
  induction l as [| y l IH]; intros H; simpl; [reflexivity |].
  rewrite (H y) by (apply elem_of_cons; now left).
  apply IH. intros x Hx. apply H. apply elem_of_cons. now right.
Qed.

Lemma block_has_tid_update k f x u y :
  (forall b, b_tid (f b) = b_tid b) ->
  block_has_tid (update_block f x k) u y = block_has_tid k u y.
Proof.
  intros Hf. unfold block_has_tid, has_tid, update_block; simpl. rewrite lookup_alter.
  destruct (decide (x = y)) as [-> |]; [| reflexivity].
  destruct (blocks k !! y); simpl; [now rewrite Hf | reflexivity].
Qed.

(** Signalling and unlinking the record at [x] is invisible to a lookup
    of any other tid. *)
Lemma get_thread_block_signal_unlink k x u :
  block_has_tid k u x = false ->
  get_thread_block (unlink x (sema_up (JoinSem x) k)) u = get_thread_block k u.
Proof.
  intros Hx. unfold get_thread_block, unlink. cbn [thread_block_list with_list].
  change (thread_block_list (sema_up (JoinSem x) k)) with (thread_block_list k).
  rewrite (find_pointwise _ (block_has_tid k u)).
  - apply find_filter_skip. intros y Hy ->. congruence.
  - intros y. apply (block_has_tid_update k (map_semapth S) x u y). reflexivity.
Qed.

(** [remove_thread_block] only unlinks and frees records made by [pid]. *)
Lemma remove_blocks_spec pid l : forall bs l' bs',
  remove_blocks pid l bs = (l', bs') ->
  (forall y, y ∈ l' -> y ∈ l) /\
  (forall y c, bs' !! y = Some c -> bs !! y = Some c) /\
  (forall y c, bs !! y = Some c -> b_pid c <> pid -> bs' !! y = Some c).
Proof.
  induction l as [| x l IH]; intros bs l' bs' E; simpl in E.
  - injection E as <- <-. repeat split; auto.
  - destruct (bs !! x) as [bx |] eqn:Hx.
    + destruct (Z.eqb_spec (b_pid bx) pid) as [Hpid | Hpid].
      * destruct (IH _ _ _ E) as (H1 & H2 & H3). split; [| split].
        -- intros y Hy. apply elem_of_cons. right. auto.
        -- intros y c Hc. apply H2 in Hc. apply lookup_delete_Some in Hc as [_ Hc].
           exact Hc.
        -- intros y c Hc Hne. apply H3; [| exact Hne].
           rewrite lookup_delete_ne; [exact Hc |]. intros ->. congruence.
      * destruct (remove_blocks pid l bs) as [l2 bs2] eqn:E2. injection E as <- <-.
        destruct (IH _ _ _ E2) as (H1 & H2 & H3). split; [| split]; [| exact H2 | exact H3].
        intros y Hy. apply elem_of_cons in Hy as [-> | Hy]; apply elem_of_cons; auto.
    + destruct (remove_blocks pid l bs) as [l2 bs2] eqn:E2. injection E as <- <-.
      destruct (IH _ _ _ E2) as (H1 & H2 & H3). split; [| split]; [| exact H2 | exact H3].
      intros y Hy. apply elem_of_cons in Hy as [-> | Hy]; apply elem_of_cons; auto.
Qed.




Section ExitThenWait.

Variables (child : tid_t) (a : baddr) (ppid : tid_t) (code : Z).









End ExitThenWait.






(** The same run, computed: the child records 42 and exits; the parent
    collects 42; a second wait gets -1; the exit closed the child's files
    and destroyed its page directory. *)
Example exit_42_then_wait :
  match process_exit 5 (set_exit_code 5 42 child_demo) with
  | Exit k2 =>
      closed_files k2 = [100; 99] /\ destroyed_pagedirs k2 = [7] /\
      pcbs k2 = ∅ /\
      match process_wait 1 5 k2 with
      | Ret v k3 => v = 42 /\ thread_block_list k3 = [] /\
                    returned (process_wait 1 5 k3) (-1)
      | _ => False
      end
  | _ => False
  end.
Proof. vm_compute. repeat split; reflexivity. Qed.

(** When it is the peer thread 6 that runs [process_exit], the main
    thread is killed, and the parent still collects the code recorded for
    the child. *)
Example peer_exit_then_wait :
  match process_exit 6 (set_exit_code 5 42 peer_demo) with
  | Exit k2 =>
      threads k2 !! 5 = None /\
      match process_wait 1 5 k2 with
      | Ret v k3 => v = 42 /\ returned (process_wait 1 5 k3) (-1)
      | _ => False
      end
  | _ => False
  end.
Proof. vm_compute. repeat split; reflexivity. Qed.

End ProcFacts.

(** * Theorems: the file table *)

Module FilesFacts.
Import Proc Files.

Lemma pcb_of_inv k cur p pr :
  pcb_of k cur = Some (p, pr) ->
  exists t, threads k !! cur = Some t /\ t_pcb t = Some p /\ pcbs k !! p = Some pr.
Proof.
  unfold pcb_of. destruct (threads k !! cur) as [t|]; [|discriminate].
  destruct (t_pcb t) as [q|] eqn:Eq; [|discriminate].
  destruct (pcbs k !! q) as [pr'|] eqn:Ep; [|discriminate].
  intros H. injection H as <- <-. eauto.
Qed.

Lemma pcb_of_update k cur p pr f :
  pcb_of k cur = Some (p, pr) -> pcb_of (update_pcb f p k) cur = Some (p, f pr).
Proof.
  intros H. destruct (pcb_of_inv _ _ _ _ H) as (t & Ht & Hp & Hpr).
  unfold pcb_of, update_pcb. simpl. rewrite Ht, Hp, lookup_alter_eq, Hpr. reflexivity.
Qed.

Lemma find_fd_fresh n f l :
  Forall (fun fd => fd < n) (map fst l) -> find_fd n (l ++ [(n, f)]) = Some (n, f).
Proof.
  unfold find_fd. induction l as [|e l IH]; simpl; intros H.
  - rewrite Z.eqb_refl. reflexivity.
  - inversion H as [|? ? Hlt Hrest]; subst.
    destruct (fst e =? n) eqn:E; [apply Z.eqb_eq in E; lia|]. auto.
Qed.

Lemma find_fd_other n f fd l :
  fd <> n -> find_fd fd (l ++ [(n, f)]) = find_fd fd l.
Proof.
  unfold find_fd. intros Hne. induction l as [|e l IH]; simpl.
  - destruct (n =? fd) eqn:E; [apply Z.eqb_eq in E; congruence|reflexivity].
  - destruct (fst e =? fd); auto.
Qed.

Lemma sorted_snoc (l : list Z) n :
  StronglySorted Z.lt l -> Forall (fun fd => fd < n) l -> StronglySorted Z.lt (l ++ [n]).
Proof.
  induction 1 as [|a l Hs IH Ha]; simpl; intros Hn.
  - repeat constructor.
  - inversion Hn; subst. constructor; [auto|].
    apply Forall_app. split; [exact Ha|]. constructor; [assumption|constructor].
Qed.

Lemma remove_fd_incl fd l e : e ∈ remove_fd fd l -> e ∈ l.
Proof.
  induction l as [|x l IH]; simpl; [auto|].
  destruct (fst x =? fd).
  - intros H. apply elem_of_cons. auto.
  - intros H. apply elem_of_cons in H as [->|H]; apply elem_of_cons; auto.
Qed.

Lemma remove_fd_forall (P : Z -> Prop) fd l :
  Forall P (map fst l) -> Forall P (map fst (remove_fd fd l)).
Proof.
  induction l as [|x l IH]; simpl; [auto|].
  intros H. inversion H; subst. destruct (fst x =? fd); simpl; auto.
Qed.

Lemma remove_fd_sorted fd l :
  StronglySorted Z.lt (map fst l) -> StronglySorted Z.lt (map fst (remove_fd fd l)).
Proof.
  induction l as [|x l IH]; simpl; [auto|].
  intros H. inversion H; subst. destruct (fst x =? fd); simpl; [assumption|].
  constructor; [auto|]. apply remove_fd_forall. assumption.
Qed.

Lemma remove_fd_gone fd l :
  StronglySorted Z.lt (map fst l) -> find_fd fd (remove_fd fd l) = None.
Proof.
  unfold find_fd. induction l as [|x l IH]; simpl; [reflexivity|].
  intros H. inversion H as [|? ? Hs Hall]; subst.
  destruct (fst x =? fd) eqn:E; simpl.
  - apply Z.eqb_eq in E. apply ProcFacts.find_none_intro. intros y Hy.
    rewrite Forall_forall in Hall.
    assert (fst x < fst y) by (apply Hall, list_elem_of_In, in_map, list_elem_of_In; exact Hy).
    apply Z.eqb_neq. lia.
  - rewrite E. auto.
Qed.

Lemma remove_fd_other fd fd' l :
  fd' <> fd -> find_fd fd' (remove_fd fd l) = find_fd fd' l.
Proof.
  unfold find_fd. intros Hne. induction l as [|x l IH]; simpl; [reflexivity|].
  destruct (fst x =? fd) eqn:E; simpl.
  - apply Z.eqb_eq in E. destruct (fst x =? fd') eqn:E'; [apply Z.eqb_eq in E'; congruence|].
    reflexivity.
  - destruct (fst x =? fd'); auto.
Qed.

Lemma fd_to_file_eq k cur p pr fd :
  pcb_of k cur = Some (p, pr) ->
  fd_to_file cur fd k = Ret (snd <$> find_fd fd (all_files_list pr)) k.
Proof.
  intros H. destruct (pcb_of_inv _ _ _ _ H) as (t & Ht & Hp & Hpr).
  unfold fd_to_file. rewrite Ht, Hp, Hpr. reflexivity.
Qed.

Lemma file_to_fd_eq k cur p pr f :
  pcb_of k cur = Some (p, pr) ->
  file_to_fd cur f k = Ret (next_fd pr) (update_pcb (push_file f) p k).
Proof.
  intros H. destruct (pcb_of_inv _ _ _ _ H) as (t & Ht & Hp & Hpr).
  unfold file_to_fd. rewrite Ht, Hp, Hpr. reflexivity.
Qed.

Lemma close_file_eq k cur p pr fd :
  pcb_of k cur = Some (p, pr) ->
  close_file cur fd k =
    match find_fd fd (all_files_list pr) with
    | None => Ret false k
    | Some e =>
        let k1 := update_pcb (set_files (remove_fd fd (all_files_list pr))) p k in
        Ret true (with_closed (closed_files k1 ++ [snd e]) k1)
    end.
Proof.
  intros H. destruct (pcb_of_inv _ _ _ _ H) as (t & Ht & Hp & Hpr).
  unfold close_file. rewrite Ht, Hp, Hpr. reflexivity.
Qed.

Lemma push_file_ok f pr :
  fd_table_ok pr -> next_fd pr < 2147483647 -> 0 <= next_fd pr ->
  fd_table_ok (push_file f pr) /\ next_fd (push_file f pr) = next_fd pr + 1.
Proof.
  intros [Hs Hb] Hn H0. unfold fd_table_ok, fds, push_file. simpl.
  rewrite to_i32_small by (unfold is_i32; lia).
  rewrite map_app. simpl. split; [split|reflexivity].
  - apply sorted_snoc; assumption.
  - apply Forall_app. split.
    + eapply Forall_impl; [exact Hb|]. simpl. intros. lia.
    + constructor; [lia|constructor].
Qed.

Lemma set_files_ok fd pr :
  fd_table_ok pr -> fd_table_ok (set_files (remove_fd fd (all_files_list pr)) pr).
Proof.
  intros [Hs Hb]. unfold fd_table_ok, fds, set_files. simpl. split.
  - apply remove_fd_sorted. exact Hs.
  - apply remove_fd_forall. exact Hb.
Qed.

(** X1.  A descriptor handed out by [file_to_fd] names the file it was
    given.  In a table whose descriptors lie below [next_fd], with [next_fd]
    short of [INT_MAX], the call returns the old [next_fd]; [fd_to_file] of
    that descriptor then yields the file, and every other descriptor
    resolves as before. *)
Theorem file_to_fd_round_trip k cur p pr f :
  pcb_of k cur = Some (p, pr) ->
  fd_table_ok pr -> 0 <= next_fd pr < 2147483647 ->
  exists k',
    file_to_fd cur f k = Ret (next_fd pr) k' /\
    fd_to_file cur (next_fd pr) k' = Ret (Some f) k' /\
    forall fd v, fd <> next_fd pr ->
      fd_to_file cur fd k = Ret v k -> fd_to_file cur fd k' = Ret v k'.
Proof.
  intros Hp [Hs Hb] Hn. eexists. split; [apply (file_to_fd_eq _ _ _ _ _ Hp)|].
  pose proof (pcb_of_update k cur p pr (push_file f) Hp) as Hp'.
  split.
  - rewrite (fd_to_file_eq _ _ _ _ _ Hp'). simpl.
    rewrite find_fd_fresh by exact Hb. reflexivity.
  - intros fd v Hne Hv. rewrite (fd_to_file_eq _ _ _ _ _ Hp) in Hv.
    rewrite (fd_to_file_eq _ _ _ _ _ Hp'). simpl.
    rewrite find_fd_other by exact Hne. injection Hv as <-. reflexivity.
Qed.

(** Process 5 of [child_demo]: descriptor 2 is open on file 100 and
    [next_fd] is 3. *)
Lemma file_to_fd_round_trip_witness :
  exists k',
    file_to_fd 5 200 child_demo = Ret 3 k' /\
    fd_to_file 5 3 k' = Ret (Some 200) k' /\
    forall fd v, fd <> 3 ->
      fd_to_file 5 fd child_demo = Ret v child_demo -> fd_to_file 5 fd k' = Ret v k'.
Proof.
  refine (file_to_fd_round_trip child_demo 5 1%positive
            (mkProcess (Some 7) (Some 5) [(2, 100)] 3 [] 0 [] 1 (Some 99) 1 []) 200 _ _ _).
  - reflexivity.
  - split; repeat constructor.
  - simpl. lia.
Defined.

(** X2.  The two calls that change the file table keep it well formed:
    descriptors strictly increasing along the list, all below [next_fd].
    [close_file] never touches [next_fd]; [file_to_fd] moves it up by one. *)
Theorem fd_table_invariant k cur p pr :
  pcb_of k cur = Some (p, pr) ->
  fd_table_ok pr -> 0 <= next_fd pr < 2147483647 ->
  (forall f, exists fd k' pr',
      file_to_fd cur f k = Ret fd k' /\ pcb_of k' cur = Some (p, pr') /\
      fd_table_ok pr' /\ next_fd pr' = next_fd pr + 1) /\
  (forall fd, exists b k' pr',
      close_file cur fd k = Ret b k' /\ pcb_of k' cur = Some (p, pr') /\
      fd_table_ok pr' /\ next_fd pr' = next_fd pr).
Proof.
  intros Hp Hok Hn. split.
  - intros f. exists (next_fd pr), (update_pcb (push_file f) p k), (push_file f pr).
    split; [apply (file_to_fd_eq _ _ _ _ _ Hp)|].
    split; [apply pcb_of_update; exact Hp|].
    apply push_file_ok; [exact Hok|lia|lia].
  - intros fd. rewrite (close_file_eq _ _ _ _ _ Hp).
    destruct (find_fd fd (all_files_list pr)) as [e|].
    + eexists true, _, _. split; [reflexivity|].
      split; [|split; [apply (set_files_ok fd pr Hok)|reflexivity]].
      apply (pcb_of_update k cur p pr _ Hp).
    + exists false, k, pr. auto.
Qed.

Lemma fd_table_invariant_witness :
  (forall f, exists fd k' pr',
      file_to_fd 5 f child_demo = Ret fd k' /\ pcb_of k' 5 = Some (1%positive, pr') /\
      fd_table_ok pr' /\ next_fd pr' = 3 + 1) /\
  (forall fd, exists b k' pr',
      close_file 5 fd child_demo = Ret b k' /\ pcb_of k' 5 = Some (1%positive, pr') /\
      fd_table_ok pr' /\ next_fd pr' = 3).
Proof.
  refine (fd_table_invariant child_demo 5 1%positive
            (mkProcess (Some 7) (Some 5) [(2, 100)] 3 [] 0 [] 1 (Some 99) 1 []) _ _ _).
  - reflexivity.
  - split; repeat constructor.
  - simpl. lia.
Defined.

(** X3.  Closing an open descriptor.  [close_file] returns true, hands
    exactly that file to [file_close], and leaves every other descriptor
    as it was; afterwards the descriptor names nothing, and closing it
    again returns false and changes nothing. *)
Theorem close_file_closes k cur p pr fd f :
  pcb_of k cur = Some (p, pr) ->
  fd_table_ok pr ->
  fd_to_file cur fd k = Ret (Some f) k ->
  exists k',
    close_file cur fd k = Ret true k' /\
    closed_files k' = closed_files k ++ [f] /\
    fd_to_file cur fd k' = Ret None k' /\
    close_file cur fd k' = Ret false k' /\
    forall fd' v, fd' <> fd ->
      fd_to_file cur fd' k = Ret v k -> fd_to_file cur fd' k' = Ret v k'.
Proof.
  intros Hp [Hs Hb] Hf. rewrite (fd_to_file_eq _ _ _ _ _ Hp) in Hf.
  rewrite (close_file_eq _ _ _ _ _ Hp).
  destruct (find_fd fd (all_files_list pr)) as [e|] eqn:E; [|discriminate].
  injection Hf as Hf. eexists. split; [reflexivity|].
  set (k1 := update_pcb _ p k).
  assert (Hp' : pcb_of (with_closed (closed_files k1 ++ [snd e]) k1) cur
                = Some (p, set_files (remove_fd fd (all_files_list pr)) pr)).
  { apply (pcb_of_update k cur p pr _ Hp). }
  split; [simpl; rewrite Hf; reflexivity|].
  split; [|split].
  - rewrite (fd_to_file_eq _ _ _ _ _ Hp'). simpl.
    rewrite remove_fd_gone by exact Hs. reflexivity.
  - rewrite (close_file_eq _ _ _ _ _ Hp'). simpl.
    rewrite remove_fd_gone by exact Hs. reflexivity.
  - intros fd' v Hne Hv. rewrite (fd_to_file_eq _ _ _ _ _ Hp) in Hv.
    rewrite (fd_to_file_eq _ _ _ _ _ Hp'). simpl.
    rewrite remove_fd_other by exact Hne. injection Hv as <-. reflexivity.
Qed.

Lemma close_file_closes_witness :
  exists k',
    close_file 5 2 child_demo = Ret true k' /\
    closed_files k' = closed_files child_demo ++ [100] /\
    fd_to_file 5 2 k' = Ret None k' /\
    close_file 5 2 k' = Ret false k' /\
    forall fd' v, fd' <> 2 ->
      fd_to_file 5 fd' child_demo = Ret v child_demo -> fd_to_file 5 fd' k' = Ret v k'.
Proof.
  refine (close_file_closes child_demo 5 1%positive
            (mkProcess (Some 7) (Some 5) [(2, 100)] 3 [] 0 [] 1 (Some 99) 1 []) 2 100 _ _ _).
  - reflexivity.
  - split; repeat constructor.
  - reflexivity.
Defined.

(** X4.  Descriptors are not reused.  After a descriptor has been closed,
    the next [file_to_fd] hands out a larger one. *)
Theorem closed_fd_not_reused k cur p pr fd f k1 fd2 k2 :
  pcb_of k cur = Some (p, pr) ->
  fd_table_ok pr -> 0 <= next_fd pr ->
  close_file cur fd k = Ret true k1 ->
  file_to_fd cur f k1 = Ret fd2 k2 ->
  fd < fd2.
Proof.
  intros Hp [Hs Hb] Hn Hc Ho. rewrite (close_file_eq _ _ _ _ _ Hp) in Hc.
  destruct (find_fd fd (all_files_list pr)) as [e|] eqn:E; [|discriminate].
  injection Hc as <-.
  rewrite (file_to_fd_eq _ cur p (set_files (remove_fd fd (all_files_list pr)) pr)) in Ho
    by apply (pcb_of_update k cur p pr _ Hp).
  injection Ho as <- _. simpl.
  apply find_some in E as [Hin Hfd]. apply Z.eqb_eq in Hfd. subst fd.
  rewrite Forall_forall in Hb. apply Hb. apply list_elem_of_In, in_map. exact Hin.
Qed.

Lemma closed_fd_not_reused_witness : 2 < 3.
Proof.
  refine (closed_fd_not_reused child_demo 5 1%positive
            (mkProcess (Some 7) (Some 5) [(2, 100)] 3 [] 0 [] 1 (Some 99) 1 []) 2 200
            _ 3 _ _ _ _ _ _).
  - reflexivity.
  - split; repeat constructor.
  - simpl. lia.
  - reflexivity.
  - reflexivity.
Defined.

End FilesFacts.

(** * Theorems: more of the scheduler *)

Module ThreadsFacts.
Import Sched Threads.

Lemma sorted_insert_ordered k t l :
  StronglySorted (fun a b => priority_of k b <= priority_of k a) l ->
  StronglySorted (fun a b => priority_of k b <= priority_of k a)
    (list_insert_ordered (thread_cmp_priority k) t l).
Proof.
  induction 1 as [|e l Hs IH He]; simpl.
  - repeat constructor.
  - unfold thread_cmp_priority at 1.
    destruct (Z.gtb_spec (priority_of k t) (priority_of k e)) as [Hgt|Hle].
    + constructor; [constructor; assumption|].
      constructor; [lia|]. eapply Forall_impl; [exact He|]. simpl. intros. lia.
    + constructor; [exact IH|].
      destruct (SchedFacts.insert_ordered_placed k t l) as (front & back & E1 & E2 & _).
      rewrite E2. rewrite E1 in He. apply Forall_app in He as [Hf Hb].
      apply Forall_app. split; [exact Hf|]. constructor; assumption.
Qed.

Lemma sorted_ext k k' l :
  (forall e, e ∈ l -> priority_of k' e = priority_of k e) ->
  StronglySorted (fun a b => priority_of k b <= priority_of k a) l ->
  StronglySorted (fun a b => priority_of k' b <= priority_of k' a) l.
Proof.
  intros E H. induction H as [|e l Hs IH He]; [constructor|].
  constructor.
  - apply IH. intros x Hx. apply E. apply elem_of_cons. auto.
  - rewrite Forall_forall in He. apply Forall_forall. intros x Hx.
    rewrite (E e), (E x); [auto| |]; apply elem_of_cons; auto.
Qed.

Lemma sorted_filter k (P : tptr -> Prop) `{forall x, Decision (P x)} l :
  StronglySorted (fun a b => priority_of k b <= priority_of k a) l ->
  StronglySorted (fun a b => priority_of k b <= priority_of k a) (filter P l).
Proof.
  induction 1 as [|e l Hs IH He]; [constructor|].
  rewrite filter_cons. destruct (decide (P e)); [|exact IH].
  constructor; [exact IH|].
  rewrite Forall_forall in He. apply Forall_forall. intros x Hx.
  apply list_elem_of_filter in Hx as [_ Hx]. auto.
Qed.

(** What [schedule] does once the caller has left the running state and a
    live thread is there to run: that thread runs with a fresh time slice,
    and the caller's page is freed when it is dying and is not the initial
    thread. *)
Lemma schedule_next k s next k1 :
  next_thread_to_run k = (Some next, k1) ->
  is_Some (threads k !! next) ->
  status_of k (running k) = Some s -> s <> THREAD_RUNNING ->
  exists k', schedule k = Some k' /\ running k' = next /\
    fifo_ready_list k' = fifo_ready_list k1 /\ all_list k' = all_list k /\
    initial_thread k' = initial_thread k /\ idle_thread k' = idle_thread k /\
    schedule_started k' = schedule_started k /\ next_tid k' = next_tid k /\
    thread_ticks k' = 0 /\
    threads k' =
      (if decide (s = THREAD_DYING /\ running k <> next /\ running k <> initial_thread k)
       then delete (running k) (alter (set_status THREAD_RUNNING) next (threads k))
       else alter (set_status THREAD_RUNNING) next (threads k)).
Proof.
  intros Hn [th Hth] Hs Hne.
  assert (Hk1 : threads k1 = threads k /\ running k1 = running k /\
                all_list k1 = all_list k /\ initial_thread k1 = initial_thread k /\
                idle_thread k1 = idle_thread k /\
                schedule_started k1 = schedule_started k /\ next_tid k1 = next_tid k).
  { unfold next_thread_to_run in Hn. destruct (fifo_ready_list k); injection Hn as _ <-;
      repeat split. }
  destruct Hk1 as (Ht1 & Hr1 & Ha1 & Hi1 & Hd1 & Hss1 & Hnt1).
  unfold schedule. rewrite Hn.
  assert (Hs1 : status_of k1 (running k) = Some s).
  { unfold status_of. rewrite Ht1. exact Hs. }
  rewrite Hs1.
  assert (Hthr : is_thread k1 next = true).
  { unfold is_thread. rewrite Ht1, Hth. reflexivity. }
  rewrite Hthr.
  assert (Hsw : forall kk, running kk = next -> threads kk = threads k ->
            status_of (with_thread_ticks 0 (update_thread (set_status THREAD_RUNNING)
                         (running kk) kk)) (running k)
            = if decide (running k = next) then Some THREAD_RUNNING else Some s).
  { intros kk Hr Ht. unfold status_of. simpl. rewrite Hr, Ht.
    destruct (decide (running k = next)) as [E|NE].
    - rewrite E, lookup_alter_eq, Hth. reflexivity.
    - rewrite lookup_alter_ne by congruence. exact Hs. }
  cbn [negb].
  assert (Hsome : match s with THREAD_RUNNING => False | _ => True end)
    by (destruct s; [congruence|exact I..]).
  destruct (decide (running k = next)) as [E|NE].
  - exists (thread_switch_tail k1 None).
    split; [destruct s; [contradiction|reflexivity..]|].
    unfold thread_switch_tail. simpl.
    rewrite Hr1, E, Ht1, Ha1, Hi1, Hd1, Hss1, Hnt1.
    repeat (split; [reflexivity|]).
    rewrite decide_False by (intros (_ & H & _); congruence). reflexivity.
  - exists (thread_switch_tail (with_running next k1) (Some (running k))).
    split; [destruct s; [contradiction|reflexivity..]|].
    unfold thread_switch_tail.
    rewrite (Hsw (with_running next k1) eq_refl Ht1).
    destruct (decide (s = THREAD_DYING)) as [->|Hd].
    + cbn [initial_thread with_thread_ticks update_thread with_threads with_running].
      rewrite Hi1.
      destruct (decide (running k = initial_thread k)) as [Ei|Ei].
      * simpl. rewrite Ht1, Ha1, Hi1, Hd1, Hss1, Hnt1.
        repeat (split; [reflexivity|]).
        rewrite decide_False by (intros (_ & _ & H); congruence). reflexivity.
      * simpl. rewrite Ht1, Ha1, Hi1, Hd1, Hss1, Hnt1.
        repeat (split; [reflexivity|]).
        rewrite decide_True by (repeat split; assumption). reflexivity.
    + assert (Hk : (match s with
                    | THREAD_DYING =>
                        if decide (running k = initial_thread (with_thread_ticks 0
                             (update_thread (set_status THREAD_RUNNING)
                                (running (with_running next k1)) (with_running next k1))))
                        then with_thread_ticks 0
                               (update_thread (set_status THREAD_RUNNING)
                                  (running (with_running next k1)) (with_running next k1))
                        else with_threads (delete (running k) (threads (with_thread_ticks 0
                               (update_thread (set_status THREAD_RUNNING)
                                  (running (with_running next k1)) (with_running next k1)))))
                               (with_thread_ticks 0
                               (update_thread (set_status THREAD_RUNNING)
                                  (running (with_running next k1)) (with_running next k1)))
                    | _ => with_thread_ticks 0
                               (update_thread (set_status THREAD_RUNNING)
                                  (running (with_running next k1)) (with_running next k1))
                    end) = with_thread_ticks 0
                               (update_thread (set_status THREAD_RUNNING)
                                  (running (with_running next k1)) (with_running next k1)))
        by (destruct s; congruence).
      rewrite Hk. simpl. rewrite Ht1, Ha1, Hi1, Hd1, Hss1, Hnt1.
      repeat (split; [reflexivity|]).
      rewrite decide_False by (intros (H & _); congruence). reflexivity.
Qed.

Lemma priority_of_threads k k' e :
  priority <$> threads k' !! e = priority <$> threads k !! e ->
  priority_of k' e = priority_of k e.
Proof.
  unfold priority_of. destruct (threads k' !! e), (threads k !! e); simpl; congruence.
Qed.

Lemma lookup_alter_status_priority (m : gmap tptr thread) s t e :
  priority <$> alter (set_status s) t m !! e = priority <$> m !! e.
Proof.
  rewrite lookup_alter. destruct (decide (t = e)) as [->|]; [|reflexivity].
  destruct (m !! e); reflexivity.
Qed.

Lemma lookup_alter_is_Some_status (m : gmap tptr thread) s s' t e :
  is_Some (m !! e) ->
  status <$> (set_status s <$> alter (set_status s') t m !! e) = Some s.
Proof.
  intros [x Hx]. rewrite lookup_alter.
  destruct (decide (t = e)) as [->|]; rewrite Hx; reflexivity.
Qed.

Lemma lookup_alter_is_Some (m : gmap tptr thread) f t e :
  is_Some (alter f t m !! e) <-> is_Some (m !! e).
Proof.
  rewrite lookup_alter. destruct (decide (t = e)) as [->|]; [|reflexivity].
  rewrite fmap_is_Some. reflexivity.
Qed.

(** [thread_yield] in full: the caller is queued by priority and the head
    of the resulting queue runs. *)
Lemma yield_full k :
  ready_wf k ->
  schedule_started k = true ->
  status_of k (running k) = Some THREAD_RUNNING ->
  Some (running k) <> idle_thread k ->
  exists k' next rest, thread_yield k = Some k' /\
    list_insert_ordered (thread_cmp_priority k) (running k) (fifo_ready_list k)
      = next :: rest /\
    running k' = next /\ fifo_ready_list k' = rest /\
    all_list k' = all_list k /\ next_tid k' = next_tid k /\
    threads k' = alter (set_status THREAD_RUNNING) next
                   (alter (set_status THREAD_READY) (running k) (threads k)).
Proof.
  intros Hwf Hstart Hrun Hidle. unfold thread_yield.
  rewrite Hstart, Hrun. cbn [negb].
  rewrite decide_False by exact Hidle.
  set (cur := running k).
  destruct (list_insert_ordered (thread_cmp_priority k) cur (fifo_ready_list k))
    as [|next rest] eqn:El.
  { exfalso. eapply SchedFacts.placed_nonempty;
      [apply (SchedFacts.insert_ordered_placed k cur (fifo_ready_list k))|exact El]. }
  assert (Hcur : is_Some (threads k !! cur)) by (eapply SchedFacts.status_of_is_Some; eauto).
  assert (Hnext : is_Some (threads k !! next)).
  { destruct (SchedFacts.insert_ordered_placed k cur (fifo_ready_list k))
      as (front & back & E1 & E2 & _).
    rewrite El in E2. unfold ready_wf in Hwf. rewrite E1 in Hwf.
    apply Forall_app in Hwf as [Hf Hb].
    assert (Hall : Forall (fun e => is_Some (threads k !! e)) (next :: rest)).
    { rewrite E2. apply Forall_app. split; [exact Hf|]. constructor; assumption. }
    inversion Hall; assumption. }
  set (k1 := update_thread (set_status THREAD_READY) cur (with_ready (next :: rest) k)).
  destruct (schedule_next k1 THREAD_READY next (with_ready rest k1))
    as (k' & Hs & Hr & Hl & Ha & _ & _ & _ & Hnt & _ & Ht).
  - reflexivity.
  - unfold k1. apply SchedFacts.is_Some_set_status. exact Hnext.
  - apply SchedFacts.status_of_set_status. exact Hcur.
  - discriminate.
  - exists k', next, rest. split; [exact Hs|]. split; [reflexivity|].
    split; [exact Hr|]. split; [exact Hl|]. split; [exact Ha|]. split; [exact Hnt|].
    rewrite Ht. rewrite decide_False by (intros (H & _); discriminate). reflexivity.
Qed.

(** X5.  [thread_unblock] keeps the ready list well formed and in
    descending priority order. *)
Theorem thread_unblock_keeps_order k t :
  status_of k t = Some THREAD_BLOCKED ->
  ready_wf k -> ready_sorted k ->
  exists k', thread_unblock k t = Some k' /\ ready_wf k' /\ ready_sorted k' /\
             t ∈ fifo_ready_list k'.
Proof.
  intros Hst Hwf Hso. unfold thread_unblock. rewrite Hst.
  eexists. split; [reflexivity|].
  assert (Hsome : is_Some (threads k !! t)) by (eapply SchedFacts.status_of_is_Some; eauto).
  destruct (SchedFacts.insert_ordered_placed k t (fifo_ready_list k))
    as (front & back & E1 & E2 & _).
  split; [|split].
  - unfold ready_wf. simpl. rewrite E2. unfold ready_wf in Hwf. rewrite E1 in Hwf.
    apply Forall_app in Hwf as [Hf Hb].
    apply Forall_app. split; [|constructor].
    + eapply Forall_impl; [exact Hf|]. intros e He. apply lookup_alter_is_Some. exact He.
    + apply lookup_alter_is_Some. exact Hsome.
    + eapply Forall_impl; [exact Hb|]. intros e He. apply lookup_alter_is_Some. exact He.
  - unfold ready_sorted. simpl.
    eapply sorted_ext; [|apply sorted_insert_ordered; exact Hso].
    intros e _. rewrite SchedFacts.priority_of_set_status. reflexivity.
  - simpl. rewrite E2. apply elem_of_app. right. apply elem_of_cons. auto.
Qed.

Lemma thread_unblock_keeps_order_witness :
  exists k', thread_unblock sleep_demo 4%positive = Some k' /\ ready_wf k' /\
             ready_sorted k' /\ 4%positive ∈ fifo_ready_list k'.
Proof.
  apply (thread_unblock_keeps_order sleep_demo 4%positive).
  - reflexivity.
  - unfold ready_wf. simpl. repeat constructor; eexists; reflexivity.
  - unfold ready_sorted. simpl. repeat constructor. vm_compute. discriminate.
Defined.

(** X6.  [thread_yield] on a ready list in priority order.  The list stays
    well formed and ordered, and the thread that runs next has at least the
    priority of every thread left on the list and of the caller.  The
    caller keeps the processor exactly when its priority is strictly above
    that of the head of the list; a head of the same priority takes over. *)
Theorem thread_yield_highest_runs k :
  ready_wf k -> ready_sorted k ->
  schedule_started k = true ->
  status_of k (running k) = Some THREAD_RUNNING ->
  Some (running k) <> idle_thread k ->
  exists k', thread_yield k = Some k' /\ ready_wf k' /\ ready_sorted k' /\
    status_of k' (running k') = Some THREAD_RUNNING /\
    Forall (fun e => priority_of k' e <= priority_of k' (running k')) (fifo_ready_list k') /\
    priority_of k' (running k) <= priority_of k' (running k') /\
    match fifo_ready_list k with
    | [] => running k' = running k /\ fifo_ready_list k' = []
    | h :: tl =>
        if priority_of k (running k) >? priority_of k h
        then running k' = running k /\ fifo_ready_list k' = h :: tl
        else running k' = h
    end.
Proof.
  intros Hwf Hso Hstart Hrun Hidle.
  destruct (yield_full k Hwf Hstart Hrun Hidle)
    as (k' & next & rest & Hy & El & Hr & Hl & _ & _ & Ht).
  exists k'. split; [exact Hy|].
  assert (Hpr : forall e, priority_of k' e = priority_of k e).
  { intros e. apply priority_of_threads. rewrite Ht.
    rewrite !lookup_alter_status_priority. reflexivity. }
  assert (Hlive : forall e, is_Some (threads k !! e) -> is_Some (threads k' !! e)).
  { intros e He. rewrite Ht. apply lookup_alter_is_Some, lookup_alter_is_Some. exact He. }
  assert (Hcur : is_Some (threads k !! running k))
    by (eapply SchedFacts.status_of_is_Some; eauto).
  pose proof (SchedFacts.insert_ordered_placed k (running k) (fifo_ready_list k)) as Hpl.
  rewrite El in Hpl.
  assert (Hall : Forall (fun e => is_Some (threads k !! e)) (next :: rest)).
  { destruct Hpl as (front & back & E1 & E2 & _). rewrite E2.
    unfold ready_wf in Hwf. rewrite E1 in Hwf. apply Forall_app in Hwf as [Hf Hb].
    apply Forall_app. split; [exact Hf|]. constructor; assumption. }
  assert (Hsorted : StronglySorted (fun a b => priority_of k b <= priority_of k a)
                      (next :: rest)).
  { rewrite <- El. apply sorted_insert_ordered. exact Hso. }
  inversion Hall as [|? ? Hnext Hrest]; subst.
  inversion Hsorted as [|? ? Hsr Hle]; subst.
  split; [|split; [|split; [|split; [|split]]]].
  - unfold ready_wf. eapply Forall_impl; [exact Hrest|]. exact Hlive.
  - unfold ready_sorted. eapply sorted_ext; [|exact Hsr]. intros e _. apply Hpr.
  - unfold status_of. rewrite Ht, lookup_alter_eq.
    destruct Hnext as [x Hx]. rewrite lookup_alter_is_Some_status by eauto. reflexivity.
  - eapply Forall_impl; [exact Hle|]. intros e He. simpl in He. rewrite !Hpr. exact He.
  - rewrite !Hpr.
    assert (Hin : running k ∈ running k' :: fifo_ready_list k').
    { destruct Hpl as (front & back & _ & E2 & _). rewrite E2.
      apply elem_of_app. right. apply elem_of_cons. auto. }
    apply elem_of_cons in Hin as [<-|Hin]; [lia|].
    rewrite Forall_forall in Hle. apply Hle. exact Hin.
  - clear -El. revert El. destruct (fifo_ready_list k) as [|h tl]; simpl; intros El.
    + injection El as E1 E2. auto.
    + unfold thread_cmp_priority in El at 1.
      destruct (priority_of k (running k) >? priority_of k h);
        injection El as E1 E2; auto.
Qed.

Lemma thread_yield_highest_runs_witness :
  exists k', thread_yield sleep_demo = Some k' /\ ready_wf k' /\ ready_sorted k' /\
    status_of k' (running k') = Some THREAD_RUNNING /\
    Forall (fun e => priority_of k' e <= priority_of k' (running k')) (fifo_ready_list k') /\
    priority_of k' 1%positive <= priority_of k' (running k') /\
    running k' = 2%positive.
Proof.
  apply (thread_yield_highest_runs sleep_demo).
  - unfold ready_wf. simpl. repeat constructor; eexists; reflexivity.
  - unfold ready_sorted. simpl. repeat constructor. vm_compute. discriminate.
  - reflexivity.
  - reflexivity.
  - discriminate.
Defined.

Lemma check_blocked_waits k t th m :
  threads k !! t = Some th -> status th = THREAD_BLOCKED ->
  blocked_ticks th = Z.of_nat (S (S m)) ->
  check_blocked k t = Some (update_thread (set_blocked_ticks (Z.of_nat (S m))) t k).
Proof.
  intros Hth Hst Hn. unfold check_blocked. rewrite Hth, Hst, Hn.
  replace (Z.of_nat (S (S m)) - 1) with (Z.of_nat (S m)) by lia.
  destruct (Z.gtb_spec (Z.of_nat (S (S m))) 0); [|lia].
  destruct (Z.eqb_spec (Z.of_nat (S m)) 0); [lia|reflexivity].
Qed.

Lemma check_blocked_wakes k t th :
  threads k !! t = Some th -> status th = THREAD_BLOCKED ->
  blocked_ticks th = 1 ->
  check_blocked k t = thread_unblock (update_thread (set_blocked_ticks 0) t k) t.
Proof.
  intros Hth Hst Hn. unfold check_blocked. rewrite Hth, Hst, Hn. reflexivity.
Qed.

Lemma sleep_counts t : forall n j k th,
  (j <= n)%nat ->
  threads k !! t = Some th -> status th = THREAD_BLOCKED ->
  blocked_ticks th = Z.of_nat (S n) ->
  exists k' th', check_blocked_times j k t = Some k' /\
    threads k' !! t = Some th' /\ status th' = THREAD_BLOCKED /\
    blocked_ticks th' = Z.of_nat (S n - j) /\ priority th' = priority th /\
    fifo_ready_list k' = fifo_ready_list k /\
    forall e, e <> t -> threads k' !! e = threads k !! e.
Proof.
  intros n j. revert n. induction j as [|j IH]; intros n k th Hj Hth Hst Hn.
  - exists k, th. rewrite Nat.sub_0_r. repeat split; auto.
  - destruct n as [|n]; [lia|]. simpl check_blocked_times.
    rewrite (check_blocked_waits k t th n Hth Hst Hn). cbn [mbind option_bind].
    set (k1 := update_thread (set_blocked_ticks (Z.of_nat (S n))) t k).
    destruct (IH n k1 (set_blocked_ticks (Z.of_nat (S n)) th)) as
      (k' & th' & H1 & H2 & H3 & H4 & H5 & H6 & H7).
    + lia.
    + unfold k1, update_thread. simpl. rewrite lookup_alter_eq, Hth. reflexivity.
    + exact Hst.
    + reflexivity.
    + exists k', th'. split; [exact H1|]. split; [exact H2|]. split; [exact H3|].
      split; [rewrite H4; f_equal; lia|]. split; [exact H5|]. split; [exact H6|].
      intros e He. rewrite (H7 e He). unfold k1, update_thread. simpl.
      rewrite lookup_alter_ne by congruence. reflexivity.
Qed.

(** X7.  A thread put to sleep for [n + 1] ticks.  For the first [n] calls
    of [check_blocked] it stays blocked and the ready list is untouched; the
    call after that makes it ready and queues it by priority; from then on
    [check_blocked] leaves it alone. *)
Theorem sleep_countdown k t th n :
  threads k !! t = Some th -> status th = THREAD_BLOCKED ->
  blocked_ticks th = Z.of_nat (S n) ->
  (forall j, (j <= n)%nat ->
     exists k', check_blocked_times j k t = Some k' /\
       status_of k' t = Some THREAD_BLOCKED /\
       fifo_ready_list k' = fifo_ready_list k) /\
  exists k', check_blocked_times (S n) k t = Some k' /\
    status_of k' t = Some THREAD_READY /\
    placed_by_priority k t (fifo_ready_list k) (fifo_ready_list k') /\
    forall j, check_blocked_times j k' t = Some k'.
Proof.
  intros Hth Hst Hn. split.
  - intros j Hj.
    destruct (sleep_counts t n j k th Hj Hth Hst Hn) as (k' & th' & H1 & H2 & H3 & _ & _ & H6 & _).
    exists k'. split; [exact H1|]. split; [|exact H6].
    unfold status_of. rewrite H2. simpl. rewrite H3. reflexivity.
  - destruct (sleep_counts t n n k th (le_n n) Hth Hst Hn)
      as (kn & thn & H1 & H2 & H3 & H4 & H5 & H6 & H7).
    rewrite Nat.sub_succ_l, Nat.sub_diag in H4 by lia.
    assert (Hsplit : forall a b kk, check_blocked_times (a + b) kk t
              = (k1 ← check_blocked_times a kk t; check_blocked_times b k1 t)).
    { induction a as [|a IHa]; intros b kk; [reflexivity|]. simpl.
      destruct (check_blocked kk t) as [k1|]; [apply IHa|reflexivity]. }
    replace (S n) with (n + 1)%nat by lia. rewrite Hsplit, H1. cbn [mbind option_bind].
    simpl check_blocked_times. rewrite (check_blocked_wakes kn t thn H2 H3 H4).
    set (k0 := update_thread (set_blocked_ticks 0) t kn).
    assert (Hst0 : status_of k0 t = Some THREAD_BLOCKED).
    { unfold status_of, k0, update_thread. simpl. rewrite lookup_alter_eq, H2. simpl.
      rewrite H3. reflexivity. }
    destruct (SchedFacts.unblock_placed k0 t Hst0) as (k' & Hu & Hr & Hpl & _).
    rewrite Hu. cbn [mbind option_bind]. exists k'.
    split; [reflexivity|]. split; [exact Hr|]. split.
    + change (fifo_ready_list k0) with (fifo_ready_list kn) in Hpl. rewrite H6 in Hpl.
      eapply SchedFacts.placed_ext; [|exact Hpl].
      intros e. unfold priority_of, k0, update_thread. simpl. rewrite lookup_alter.
      destruct (decide (t = e)) as [<-|Hne].
      * rewrite H2, Hth. simpl. symmetry. exact H5.
      * rewrite (H7 e) by congruence. reflexivity.
    + assert (Hidle : check_blocked k' t = Some k').
      { unfold check_blocked. unfold status_of in Hr.
        destruct (threads k' !! t) as [x|]; [|discriminate].
        simpl in Hr. injection Hr as ->. reflexivity. }
      induction j as [|j IHj]; [reflexivity|]. simpl. rewrite Hidle. exact IHj.
Qed.

(** Thread 4 of [sleep_demo] sleeps for three ticks. *)
Lemma sleep_countdown_witness :
  (forall j, (j <= 2)%nat ->
     exists k', check_blocked_times j sleep_demo 4%positive = Some k' /\
       status_of k' 4%positive = Some THREAD_BLOCKED /\
       fifo_ready_list k' = [2%positive; 3%positive]) /\
  exists k', check_blocked_times 3 sleep_demo 4%positive = Some k' /\
    status_of k' 4%positive = Some THREAD_READY /\
    placed_by_priority sleep_demo 4%positive [2%positive; 3%positive] (fifo_ready_list k') /\
    forall j, check_blocked_times j k' 4%positive = Some k'.
Proof.
  apply (sleep_countdown sleep_demo 4%positive (mkThread 4 THREAD_BLOCKED 35 3 35 0 0) 2);
    reflexivity.
Defined.

(** X8.  [thread_block] followed by [thread_unblock].  The caller leaves the
    processor to the thread the scheduler selects and is blocked, off the
    ready list; [thread_unblock] then makes it ready and queues it by
    priority, without preempting the thread that runs. *)
Theorem thread_block_then_unblock k next k1 :
  status_of k (running k) = Some THREAD_RUNNING ->
  next_thread_to_run k = (Some next, k1) ->
  is_Some (threads k !! next) -> next <> running k ->
  exists kb, thread_block k = Some kb /\ running kb = next /\
    status_of kb next = Some THREAD_RUNNING /\
    status_of kb (running k) = Some THREAD_BLOCKED /\
    fifo_ready_list kb = fifo_ready_list k1 /\
    exists ku, thread_unblock kb (running k) = Some ku /\
      status_of ku (running k) = Some THREAD_READY /\ running ku = next /\
      placed_by_priority k (running k) (fifo_ready_list k1) (fifo_ready_list ku).
Proof.
  intros Hrun Hn Hnext Hne. unfold thread_block. rewrite Hrun.
  assert (Hcur : is_Some (threads k !! running k))
    by (eapply SchedFacts.status_of_is_Some; eauto).
  set (k0 := update_thread (set_status THREAD_BLOCKED) (running k) k).
  destruct (schedule_next k0 THREAD_BLOCKED next
              (update_thread (set_status THREAD_BLOCKED) (running k) k1))
    as (kb & Hs & Hr & Hl & _ & _ & _ & _ & _ & _ & Ht).
  - unfold next_thread_to_run in *. unfold k0. simpl.
    destruct (fifo_ready_list k); injection Hn as <- <-; reflexivity.
  - unfold k0. apply SchedFacts.is_Some_set_status. exact Hnext.
  - apply SchedFacts.status_of_set_status. exact Hcur.
  - discriminate.
  - rewrite decide_False in Ht by (intros (H & _); discriminate).
    change (threads k0) with (alter (set_status THREAD_BLOCKED) (running k) (threads k)) in Ht.
    change (running k0) with (running k) in *.
    exists kb. split; [exact Hs|]. split; [exact Hr|].
    assert (Hsn : status_of kb next = Some THREAD_RUNNING).
    { unfold status_of. rewrite Ht, lookup_alter_eq.
      rewrite lookup_alter_is_Some_status by exact Hnext. reflexivity. }
    assert (Hsc : status_of kb (running k) = Some THREAD_BLOCKED).
    { unfold status_of. rewrite Ht, lookup_alter_ne by exact Hne.
      rewrite lookup_alter_eq. destruct Hcur as [x Hx]. rewrite Hx. reflexivity. }
    split; [exact Hsn|]. split; [exact Hsc|]. split; [exact Hl|].
    destruct (SchedFacts.unblock_placed kb (running k) Hsc) as (ku & Hu & Hru & Hpl & _).
    exists ku. split; [exact Hu|]. split; [exact Hru|]. split.
    + unfold thread_unblock in Hu. rewrite Hsc in Hu. injection Hu as <-. exact Hr.
    + rewrite Hl in Hpl. eapply SchedFacts.placed_ext; [|exact Hpl].
      intros e. symmetry. apply priority_of_threads. rewrite Ht.
      rewrite !lookup_alter_status_priority. reflexivity.
Qed.

Lemma thread_block_then_unblock_witness :
  exists kb, thread_block sleep_demo = Some kb /\ running kb = 2%positive /\
    status_of kb 2%positive = Some THREAD_RUNNING /\
    status_of kb 1%positive = Some THREAD_BLOCKED /\
    fifo_ready_list kb = [3%positive] /\
    exists ku, thread_unblock kb 1%positive = Some ku /\
      status_of ku 1%positive = Some THREAD_READY /\ running ku = 2%positive /\
      placed_by_priority sleep_demo 1%positive [3%positive] (fifo_ready_list ku).
Proof.
  apply (thread_block_then_unblock sleep_demo 2%positive
           (with_ready [3%positive] sleep_demo)).
  - reflexivity.
  - reflexivity.
  - eexists. reflexivity.
  - discriminate.
Defined.

(** X9.  [thread_exit].  The caller leaves the all-threads list and the
    thread the scheduler selects runs.  The caller's page is then freed,
    unless the caller is the initial thread, whose page is kept with the
    status dying.  No other thread is touched. *)
Theorem thread_exit_frees_page k next k1 :
  status_of k (running k) = Some THREAD_RUNNING ->
  next_thread_to_run k = (Some next, k1) ->
  is_Some (threads k !! next) -> next <> running k ->
  exists k', thread_exit k = Some k' /\ running k' = next /\
    status_of k' next = Some THREAD_RUNNING /\
    (running k ∉ all_list k') /\
    (if decide (running k = initial_thread k)
     then status_of k' (running k) = Some THREAD_DYING
     else threads k' !! running k = None) /\
    forall e, e <> running k -> e <> next -> threads k' !! e = threads k !! e.
Proof.
  intros Hrun Hn Hnext Hne. unfold thread_exit. rewrite Hrun.
  assert (Hcur : is_Some (threads k !! running k))
    by (eapply SchedFacts.status_of_is_Some; eauto).
  set (k0 := update_thread (set_status THREAD_DYING) (running k)
               (with_all_list (list_remove (running k) (all_list k)) k)).
  destruct (schedule_next k0 THREAD_DYING next
              (update_thread (set_status THREAD_DYING) (running k)
                 (with_all_list (list_remove (running k) (all_list k)) k1)))
    as (k' & Hs & Hr & _ & Ha & _ & _ & _ & _ & _ & Ht).
  - unfold next_thread_to_run in *. unfold k0. simpl.
    destruct (fifo_ready_list k); injection Hn as <- <-; reflexivity.
  - unfold k0. apply SchedFacts.is_Some_set_status. exact Hnext.
  - apply SchedFacts.status_of_set_status. exact Hcur.
  - discriminate.
  - change (threads k0) with (alter (set_status THREAD_DYING) (running k) (threads k)) in Ht.
    change (running k0) with (running k) in *.
    change (initial_thread k0) with (initial_thread k) in *.
    change (all_list k0) with (list_remove (running k) (all_list k)) in Ha.
    exists k'. split; [exact Hs|]. split; [exact Hr|].
    split; [|split; [|split]].
    + unfold status_of. rewrite Ht.
      destruct (decide _) as [_|_].
      * rewrite lookup_delete_ne by congruence. rewrite lookup_alter_eq.
        rewrite lookup_alter_is_Some_status by exact Hnext. reflexivity.
      * rewrite lookup_alter_eq.
        rewrite lookup_alter_is_Some_status by exact Hnext. reflexivity.
    + rewrite Ha. unfold list_remove. intros Hin.
      apply list_elem_of_filter in Hin as [Hin _]. congruence.
    + destruct (decide (running k = initial_thread k)) as [Ei|Ei].
      * rewrite decide_False in Ht by (intros (_ & _ & H); congruence).
        unfold status_of. rewrite Ht, lookup_alter_ne by exact Hne.
        rewrite lookup_alter_eq. destruct Hcur as [x Hx]. rewrite Hx. reflexivity.
      * rewrite decide_True in Ht by (repeat split; congruence).
        rewrite Ht. apply lookup_delete_eq.
    + intros e He1 He2. rewrite Ht.
      destruct (decide _) as [_|_].
      * rewrite lookup_delete_ne by congruence.
        rewrite !lookup_alter_ne by congruence. reflexivity.
      * rewrite !lookup_alter_ne by congruence. reflexivity.
Qed.

(** In [sleep_demo] the running thread 1 is the initial thread. *)
Lemma thread_exit_frees_page_witness :
  exists k', thread_exit sleep_demo = Some k' /\ running k' = 2%positive /\
    status_of k' 2%positive = Some THREAD_RUNNING /\
    (1%positive ∉ all_list k') /\
    status_of k' 1%positive = Some THREAD_DYING /\
    forall e, e <> 1%positive -> e <> 2%positive ->
      threads k' !! e = threads sleep_demo !! e.
Proof.
  apply (thread_exit_frees_page sleep_demo 2%positive (with_ready [3%positive] sleep_demo)).
  - reflexivity.
  - reflexivity.
  - eexists. reflexivity.
  - discriminate.
Defined.

(** X10.  [kill_thread] of [thread.c] on a victim that waits on the ready
    list leaves no trace of it: the page is freed and the thread is on
    neither the ready list nor the all-threads list, so a well-formed,
    ordered ready list stays so.  No other thread is changed. *)
Theorem kill_thread_clears_queues k t :
  t <> initial_thread k -> is_Some (threads k !! t) ->
  t ∈ fifo_ready_list k -> t ∈ all_list k ->
  exists k', kill_thread k t = Killed k' /\ threads k' !! t = None /\
    (t ∉ fifo_ready_list k') /\ (t ∉ all_list k') /\
    (ready_wf k -> ready_wf k') /\ (ready_sorted k -> ready_sorted k') /\
    (forall e, e <> t ->
       (e ∈ fifo_ready_list k' <-> e ∈ fifo_ready_list k) /\
       (e ∈ all_list k' <-> e ∈ all_list k)) /\
    forall e, e <> t -> threads k' !! e = threads k !! e.
Proof.
  intros Hi [th Hth] Hready Hall. unfold kill_thread.
  rewrite decide_False by exact Hi. rewrite Hth.
  rewrite (bool_decide_eq_true_2 _ Hall), (bool_decide_eq_true_2 _ Hready). cbn [andb].
  eexists. split; [reflexivity|]. simpl.
  split; [apply lookup_delete_eq|].
  split; [|split; [|split; [|split; [|split]]]].
  - unfold list_remove. intros Hin. apply list_elem_of_filter in Hin as [Hin _]. congruence.
  - unfold list_remove. intros Hin. apply list_elem_of_filter in Hin as [Hin _]. congruence.
  - unfold ready_wf. simpl. intros Hwf. rewrite Forall_forall in Hwf.
    apply Forall_forall. intros e He. unfold list_remove in He.
    apply list_elem_of_filter in He as [Hne He].
    rewrite lookup_delete_ne by congruence. auto.
  - unfold ready_sorted. simpl. intros Hso.
    eapply sorted_ext; [|apply sorted_filter; exact Hso].
    intros e He. unfold list_remove in He. apply list_elem_of_filter in He as [Hne _].
    apply priority_of_threads. simpl. rewrite lookup_delete_ne by congruence. reflexivity.
  - intros e He. unfold list_remove. rewrite !list_elem_of_filter. tauto.
  - intros e He. rewrite lookup_delete_ne by congruence. reflexivity.
Qed.

(** Thread 3 of [sleep_demo] is ready behind thread 2. *)
Lemma kill_thread_clears_queues_witness :
  exists k', kill_thread sleep_demo 3%positive = Killed k' /\ threads k' !! 3%positive = None /\
    (3%positive ∉ fifo_ready_list k') /\ (3%positive ∉ all_list k') /\
    (ready_wf sleep_demo -> ready_wf k') /\ (ready_sorted sleep_demo -> ready_sorted k') /\
    (forall e, e <> 3%positive ->
       (e ∈ fifo_ready_list k' <-> e ∈ fifo_ready_list sleep_demo) /\
       (e ∈ all_list k' <-> e ∈ all_list sleep_demo)) /\
    forall e, e <> 3%positive -> threads k' !! e = threads sleep_demo !! e.
Proof.
  apply (kill_thread_clears_queues sleep_demo 3%positive).
  - discriminate.
  - eexists. reflexivity.
  - vm_compute. apply elem_of_cons. right. apply elem_of_cons. left. reflexivity.
  - vm_compute. do 2 (apply elem_of_cons; right). apply elem_of_cons. left. reflexivity.
Defined.

Lemma schedule_next_tid k k' : schedule k = Some k' -> next_tid k' = next_tid k.
Proof.
  unfold schedule, next_thread_to_run, thread_switch_tail.
  destruct (fifo_ready_list k) as [|n rest].
  - destruct (status_of k (running k)) as [[]|]; try discriminate;
      destruct (idle_thread k) as [n|]; try discriminate;
      (destruct (is_thread k n); [|discriminate]); cbn [negb];
      (destruct (decide (running k = n)); intros H; injection H as <-; [reflexivity|]);
      repeat match goal with |- context [match ?x with _ => _ end] => destruct x end;
      reflexivity.
  - destruct (status_of (with_ready rest k) (running k)) as [[]|]; try discriminate;
      (destruct (is_thread (with_ready rest k) n); [|discriminate]); cbn [negb];
      (destruct (decide (running k = n)); intros H; injection H as <-; [reflexivity|]);
      repeat match goal with |- context [match ?x with _ => _ end] => destruct x end;
      reflexivity.
Qed.

Lemma thread_create_next_tid F less t k prio n k' :
  thread_create F less (Some t) k prio = Some (n, k') ->
  n = next_tid k /\ next_tid k' = to_i32 (next_tid k + 1).
Proof.
  unfold thread_create, init_thread.
  destruct (negb _); [discriminate|]. cbn [mbind option_bind allocate_tid].
  set (k3 := update_thread _ t _).
  unfold thread_unblock. destruct (status_of k3 t) as [[]|]; try discriminate.
  cbn [mbind option_bind].
  set (k4 := update_thread _ t _).
  destruct (priority_of k4 (running k4) <? prio).
  - unfold thread_yield. destruct (negb (schedule_started k4)).
    + intros H. injection H as <- <-. split; reflexivity.
    + destruct (status_of k4 (running k4)) as [[]|]; try discriminate.
      match goal with |- context [schedule ?kk] =>
        destruct (schedule kk) as [k5|] eqn:E; [|discriminate] end.
      apply schedule_next_tid in E. cbn [mbind option_bind].
      intros H. injection H as <- <-. split; [reflexivity|]. rewrite E.
      destruct (decide _); reflexivity.
  - intros H. injection H as <- <-. split; reflexivity.
Qed.

(** X11.  Thread identifiers are handed out in sequence.  Two successive
    successful calls of [thread_create] return consecutive tids, the first
    one being the old [next_tid]; neither is [TID_ERROR]. *)
Theorem thread_create_tids F less k t1 prio1 n1 k1 t2 prio2 n2 k2 :
  0 < next_tid k < 2147483647 ->
  thread_create F less (Some t1) k prio1 = Some (n1, k1) ->
  thread_create F less (Some t2) k1 prio2 = Some (n2, k2) ->
  n1 = next_tid k /\ n2 = n1 + 1 /\ n1 <> TID_ERROR /\ n2 <> TID_ERROR.
Proof.
  intros Hn H1 H2.
  apply thread_create_next_tid in H1 as [-> E1].
  apply thread_create_next_tid in H2 as [-> E2].
  rewrite to_i32_small in E1 by (unfold is_i32; lia).
  unfold TID_ERROR. lia.
Qed.

Lemma thread_create_tids_witness :
  5 = next_tid sleep_demo /\ 6 = 5 + 1 /\ 5 <> TID_ERROR /\ 6 <> TID_ERROR.
Proof.
  eapply (thread_create_tids 65536 (fun _ _ => false) sleep_demo
            10%positive 20 5 _ 11%positive 50 6 _).
  - simpl. lia.
  - vm_compute. reflexivity.
  - vm_compute. reflexivity.
Defined.

End ThreadsFacts.

(** * Theorems: priority donation *)

Module DonateFacts.
Import Sched Threads Donate.

Lemma insert_sorted_perm less x l : insert_sorted less x l ≡ₚ x :: l.
Proof.
  induction l as [|e l IH]; simpl; [reflexivity|].
  destruct (less e x); [|reflexivity].
  rewrite IH. apply Permutation_swap.
Qed.

Lemma list_sort_perm less l : list_sort less l ≡ₚ l.
Proof.
  unfold list_sort. induction l as [|x l IH]; simpl; [reflexivity|].
  rewrite insert_sorted_perm, IH. reflexivity.
Qed.

Lemma insert_sorted_sorted d x l :
  StronglySorted (fun a b => max_priority d b <= max_priority d a) l ->
  StronglySorted (fun a b => max_priority d b <= max_priority d a)
    (insert_sorted (lock_cmp_priority d) x l).
Proof.
  induction 1 as [|e l Hs IH He]; simpl; [repeat constructor|].
  unfold lock_cmp_priority at 1.
  destruct (Z.gtb_spec (max_priority d e) (max_priority d x)) as [Hgt|Hle].
  - constructor; [exact IH|].
    rewrite insert_sorted_perm. constructor; [lia|exact He].
  - constructor; [constructor; assumption|].
    constructor; [exact Hle|]. eapply Forall_impl; [exact He|]. simpl. intros. lia.
Qed.

Lemma list_sort_sorted d l :
  StronglySorted (fun a b => max_priority d b <= max_priority d a)
    (list_sort (lock_cmp_priority d) l).
Proof.
  unfold list_sort. induction l as [|x l IH]; simpl; [constructor|].
  apply insert_sorted_sorted. exact IH.
Qed.

Lemma donated_bounds d base l :
  base <= donated d base l /\
  Forall (fun x => max_priority d x <= donated d base l) l /\
  (donated d base l = base \/ exists x, x ∈ l /\ donated d base l = max_priority d x).
Proof.
  induction l as [|y l (H1 & H2 & H3)]; simpl.
  - split; [lia|]. split; [constructor|]. left. reflexivity.
  - split; [lia|]. split.
    + constructor; [lia|]. eapply Forall_impl; [exact H2|]. simpl. intros. lia.
    + destruct (Z.max_spec (max_priority d y) (donated d base l)) as [[_ E]|[_ E]];
        rewrite E.
      * destruct H3 as [H3|(x & Hx & H3)]; [left; exact H3|].
        right. exists x. split; [apply elem_of_cons; now right|exact H3].
      * right. exists y. split; [apply elem_of_cons; now left|reflexivity].
Qed.

(** The front of the sorted list carries the highest donation. *)
Lemma sorted_front_is_max d base l h rest :
  list_sort (lock_cmp_priority d) l = h :: rest ->
  (if max_priority d h >? base then max_priority d h else base) = donated d base l.
Proof.
  intros E.
  pose proof (list_sort_perm (lock_cmp_priority d) l) as Hperm. rewrite E in Hperm.
  pose proof (list_sort_sorted d l) as Hs. rewrite E in Hs.
  inversion Hs as [|? ? _ Hle]; subst.
  destruct (donated_bounds d base l) as (H1 & H2 & H3).
  assert (Hh : max_priority d h <= donated d base l).
  { rewrite Forall_forall in H2. apply H2. rewrite <- Hperm. apply elem_of_cons. now left. }
  assert (Hup : donated d base l <= Z.max base (max_priority d h)).
  { destruct H3 as [->|(x & Hx & ->)]; [lia|].
    rewrite <- Hperm in Hx. apply elem_of_cons in Hx as [->|Hx]; [lia|].
    rewrite Forall_forall in Hle. specialize (Hle x Hx). simpl in Hle. lia. }
  destruct (Z.gtb_spec (max_priority d h) base); lia.
Qed.

(** [thread_update_priority] in full. *)
Lemma update_priority_spec d t th :
  threads (sched d) !! t = Some th ->
  exists d',
    thread_update_priority d t = Some d' /\
    threads (sched d') !! t
      = Some (set_priority (donated d (base_priority th) (held d t)) th) /\
    held d' t ≡ₚ held d t /\
    (forall e, e <> t -> threads (sched d') !! e = threads (sched d) !! e /\
                         held d' e = held d e) /\
    lock_max d' = lock_max d /\
    fifo_ready_list (sched d') = fifo_ready_list (sched d).
Proof.
  intros Hth. unfold thread_update_priority. rewrite Hth.
  destruct (held d t) as [|l0 ls] eqn:Eh.
  - eexists. split; [reflexivity|]. simpl.
    split; [rewrite lookup_alter_eq, Hth; reflexivity|].
    split; [unfold held; simpl; unfold held in Eh; rewrite Eh; reflexivity|].
    split; [|split; reflexivity].
    intros e He. split; [rewrite lookup_alter_ne by congruence; reflexivity|reflexivity].
  - destruct (list_sort (lock_cmp_priority d) (l0 :: ls)) as [|h rest] eqn:Es.
    { pose proof (list_sort_perm (lock_cmp_priority d) (l0 :: ls)) as Hp. rewrite Es in Hp.
      apply Permutation_nil_cons in Hp. contradiction. }
    rewrite (sorted_front_is_max d (base_priority th) (l0 :: ls) h rest Es).
    eexists. split; [reflexivity|]. simpl.
    split; [rewrite lookup_alter_eq, Hth; reflexivity|].
    split.
    { unfold held. simpl. rewrite lookup_insert_eq. rewrite <- Es. apply list_sort_perm. }
    split; [|split; reflexivity].
    intros e He. split; [rewrite lookup_alter_ne by congruence; reflexivity|].
    unfold held. simpl. rewrite lookup_insert_ne by congruence. reflexivity.
Qed.

(** X12.  [thread_update_priority] gives a thread the highest of its base
    priority and the priorities donated through the locks it holds; it
    keeps the base priority, reorders but does not change the set of held
    locks, and touches no other thread and not the ready list. *)
Theorem thread_update_priority_max d t th :
  threads (sched d) !! t = Some th ->
  exists d',
    thread_update_priority d t = Some d' /\
    threads (sched d') !! t
      = Some (set_priority (donated d (base_priority th) (held d t)) th) /\
    base_priority th <= donated d (base_priority th) (held d t) /\
    Forall (fun l => max_priority d l <= donated d (base_priority th) (held d t)) (held d t) /\
    held d' t ≡ₚ held d t /\
    (forall e, e <> t -> threads (sched d') !! e = threads (sched d) !! e /\
                         held d' e = held d e) /\
    lock_max d' = lock_max d /\
    fifo_ready_list (sched d') = fifo_ready_list (sched d).
Proof.
  intros Hth.
  destruct (update_priority_spec d t th Hth) as (d' & Hu & Ht & Hperm & Hoth & Hmax & Hl).
  destruct (donated_bounds d (base_priority th) (held d t)) as (Hbase & Hlocks & _).
  exists d'. split; [exact Hu|]. split; [exact Ht|].
  split; [exact Hbase|]. split; [exact Hlocks|].
  split; [exact Hperm|]. split; [exact Hoth|]. split; [exact Hmax|exact Hl].
Qed.

(** Thread 1 of [donate_demo]: base priority 31, donations 20 and 45. *)
Lemma thread_update_priority_max_witness :
  exists d',
    thread_update_priority donate_demo 1%positive = Some d' /\
    threads (sched d') !! 1%positive
      = Some (set_priority 45 (mkThread 1 THREAD_RUNNING 31 0 31 0 0)) /\
    31 <= 45 /\
    Forall (fun l => max_priority donate_demo l <= 45) [1%positive; 2%positive] /\
    held d' 1%positive ≡ₚ [1%positive; 2%positive] /\
    (forall e, e <> 1%positive ->
       threads (sched d') !! e = threads (sched donate_demo) !! e /\
       held d' e = held donate_demo e) /\
    lock_max d' = lock_max donate_demo /\
    fifo_ready_list (sched d') = fifo_ready_list (sched donate_demo).
Proof.
  apply (thread_update_priority_max donate_demo 1%positive
           (mkThread 1 THREAD_RUNNING 31 0 31 0 0)).
  reflexivity.
Defined.

(** X13.  A donation keeps the ready list in order.  When priority is
    donated to a ready thread, [thread_donate_priority] recomputes its
    priority, takes it off the ready list and inserts it again by its new
    priority: a well-formed ready list in descending priority order stays
    so, and the thread is still on it. *)
Theorem thread_donate_keeps_order d t th :
  threads (sched d) !! t = Some th -> status th = THREAD_READY ->
  ready_wf (sched d) -> ready_sorted (sched d) ->
  exists d',
    thread_donate_priority d t = Some d' /\
    priority_of (sched d') t = donated d (base_priority th) (held d t) /\
    ready_wf (sched d') /\ ready_sorted (sched d') /\
    t ∈ fifo_ready_list (sched d') /\
    forall e, e <> t ->
      (e ∈ fifo_ready_list (sched d') <-> e ∈ fifo_ready_list (sched d)) /\
      priority_of (sched d') e = priority_of (sched d) e.
Proof.
  intros Hth Hst Hwf Hso.
  destruct (update_priority_spec d t th Hth)
    as (d1 & Hu & Ht1 & _ & Hoth & _ & Hl1).
  unfold thread_donate_priority. rewrite Hu. cbn [mbind option_bind].
  assert (Hs1 : status_of (sched d1) t = Some THREAD_READY).
  { unfold status_of. rewrite Ht1. simpl. rewrite Hst. reflexivity. }
  rewrite Hs1. eexists. split; [reflexivity|]. cbn [sched with_sched].
  set (k1 := sched d1) in *.
  assert (Hp1 : forall e, e <> t -> priority_of k1 e = priority_of (sched d) e).
  { intros e He. unfold priority_of. rewrite (proj1 (Hoth e He)). reflexivity. }
  assert (Hlive : forall e, is_Some (threads (sched d) !! e) -> is_Some (threads k1 !! e)).
  { intros e He. destruct (decide (e = t)) as [->|Hne]; [rewrite Ht1; eauto|].
    rewrite (proj1 (Hoth e Hne)). exact He. }
  set (l := list_remove t (fifo_ready_list k1)).
  assert (Hlsorted : StronglySorted (fun a b => priority_of k1 b <= priority_of k1 a) l).
  { unfold l, list_remove. rewrite Hl1.
    eapply ThreadsFacts.sorted_ext; [|apply ThreadsFacts.sorted_filter; exact Hso].
    intros e He. apply list_elem_of_filter in He as [Hne _]. apply Hp1. exact Hne. }
  destruct (SchedFacts.insert_ordered_placed k1 t l) as (front & back & E1 & E2 & _).
  split; [unfold priority_of; cbn [threads with_ready]; rewrite Ht1; reflexivity|].
  split; [|split; [|split]].
  - unfold ready_wf. cbn [threads with_ready fifo_ready_list]. rewrite E2.
    assert (Hall : Forall (fun e => is_Some (threads k1 !! e)) l).
    { unfold l, list_remove. rewrite Hl1. apply Forall_forall. intros e He.
      apply list_elem_of_filter in He as [_ He]. apply Hlive.
      unfold ready_wf in Hwf. rewrite Forall_forall in Hwf. apply Hwf. exact He. }
    rewrite E1 in Hall. apply Forall_app in Hall as [Hf Hb].
    apply Forall_app. split; [exact Hf|]. constructor; [rewrite Ht1; eauto|exact Hb].
  - unfold ready_sorted. cbn [fifo_ready_list with_ready].
    eapply ThreadsFacts.sorted_ext; [|apply ThreadsFacts.sorted_insert_ordered; exact Hlsorted].
    intros e _. reflexivity.
  - cbn [fifo_ready_list with_ready]. rewrite E2. apply elem_of_app. right.
    apply elem_of_cons. now left.
  - intros e He. split; [|apply Hp1; exact He].
    cbn [fifo_ready_list with_ready]. rewrite E2.
    assert (Hmem : e ∈ front ++ back <-> e ∈ fifo_ready_list (sched d)).
    { rewrite <- E1. unfold l, list_remove. rewrite Hl1. rewrite list_elem_of_filter. tauto. }
    rewrite <- Hmem. rewrite !elem_of_app, elem_of_cons. tauto.
Qed.

(** Thread 3 of [donate_demo] is ready behind thread 2 (priority 40) and
    receives the priority 50. *)
Lemma thread_donate_keeps_order_witness :
  exists d',
    thread_donate_priority donate_demo 3%positive = Some d' /\
    priority_of (sched d') 3%positive = 50 /\
    ready_wf (sched d') /\ ready_sorted (sched d') /\
    3%positive ∈ fifo_ready_list (sched d') /\
    forall e, e <> 3%positive ->
      (e ∈ fifo_ready_list (sched d') <-> e ∈ fifo_ready_list (sched donate_demo)) /\
      priority_of (sched d') e = priority_of (sched donate_demo) e.
Proof.
  apply (thread_donate_keeps_order donate_demo 3%positive
           (mkThread 3 THREAD_READY 31 0 31 0 0)).
  - reflexivity.
  - reflexivity.
  - unfold ready_wf. simpl. repeat constructor; eexists; reflexivity.
  - unfold ready_sorted. simpl. repeat constructor. vm_compute. discriminate.
Defined.

(** X14.  [thread_set_priority] and donation.  Under the fair policy the call
    does nothing.  Otherwise, for a running thread that holds locks, a new
    priority not above its current one only becomes its base priority: the
    current priority stays and the thread does not yield.  A later
    [thread_update_priority] then settles on the highest of the new base
    priority and the donations. *)
Theorem thread_set_priority_keeps_donation d th new_priority :
  threads (sched d) !! running (sched d) = Some th ->
  status th = THREAD_RUNNING ->
  held d (running (sched d)) <> [] ->
  new_priority <= priority th ->
  (active_sched_policy (sched d) = SCHED_FAIR ->
   thread_set_priority d new_priority = Some d) /\
  (active_sched_policy (sched d) <> SCHED_FAIR ->
   exists d1 d2,
     thread_set_priority d new_priority = Some d1 /\
     threads (sched d1) !! running (sched d)
       = Some (set_base_priority new_priority th) /\
     running (sched d1) = running (sched d) /\
     fifo_ready_list (sched d1) = fifo_ready_list (sched d) /\
     thread_update_priority d1 (running (sched d)) = Some d2 /\
     priority_of (sched d2) (running (sched d))
       = donated d new_priority (held d (running (sched d)))).
Proof.
  intros Hth Hst Hheld Hle. split.
  - intros Hpol. unfold thread_set_priority. rewrite Hpol. reflexivity.
  - intros Hpol.
    assert (Hcall : thread_set_priority d new_priority
              = Some (with_sched (update_thread (set_base_priority new_priority)
                                    (running (sched d)) (sched d)) d)).
    { unfold thread_set_priority. rewrite Hth, Hst.
      destruct (held d (running (sched d))) as [|l0 ls]; [contradiction|].
      destruct (Z.gtb_spec new_priority (priority th)) as [Hgt|_]; [lia|].
      cbn [orb]. destruct (active_sched_policy (sched d)); try reflexivity. contradiction. }
    set (d1 := with_sched _ d) in Hcall.
    assert (Ht1 : threads (sched d1) !! running (sched d)
                  = Some (set_base_priority new_priority th)).
    { unfold d1. simpl. rewrite lookup_alter_eq, Hth. reflexivity. }
    destruct (update_priority_spec d1 (running (sched d)) _ Ht1)
      as (d2 & Hu & Ht2 & _).
    exists d1, d2. split; [exact Hcall|]. split; [exact Ht1|].
    split; [reflexivity|]. split; [reflexivity|]. split; [exact Hu|].
    unfold priority_of. rewrite Ht2. reflexivity.
Qed.

Lemma thread_set_priority_keeps_donation_witness :
  (active_sched_policy (sched donate_demo) = SCHED_FAIR ->
   thread_set_priority donate_demo 10 = Some donate_demo) /\
  (active_sched_policy (sched donate_demo) <> SCHED_FAIR ->
   exists d1 d2,
     thread_set_priority donate_demo 10 = Some d1 /\
     threads (sched d1) !! 1%positive
       = Some (set_base_priority 10 (mkThread 1 THREAD_RUNNING 31 0 31 0 0)) /\
     running (sched d1) = 1%positive /\
     fifo_ready_list (sched d1) = fifo_ready_list (sched donate_demo) /\
     thread_update_priority d1 1%positive = Some d2 /\
     priority_of (sched d2) 1%positive = donated donate_demo 10 [1%positive; 2%positive]).
Proof.
  apply (thread_set_priority_keeps_donation donate_demo
           (mkThread 1 THREAD_RUNNING 31 0 31 0 0) 10).
  - reflexivity.
  - reflexivity.
  - discriminate.
  - simpl. lia.
Defined.

End DonateFacts.

(** * Theorems: user-level locks and semaphores *)

Module SyncFacts.
Import Sync.




Lemma find_update_sema id f l :
  find (fun b => sema_id b =? id) (update_sema id f l)
  = (fun b => mkSema (sema_id b) (f (sema_value b))) <$> find (fun b => sema_id b =? id) l.
Proof.
  induction l as [|b l IH]; simpl; [reflexivity|].
  destruct (sema_id b =? id) eqn:E; simpl; rewrite E; [reflexivity|exact IH].
Qed.


Lemma sema_down_some sema s b v :
  sema <> 0 ->
  get_prog_sema_block (user s sema) (pcb s) = Some b -> sema_value b = S v ->
  exists s', syscall_sema_down sema s = Returns true s' /\ user s' = user s /\
    get_prog_sema_block (user s' sema) (pcb s') = Some (mkSema (sema_id b) v).
Proof.
  intros Hs Hb Hv. unfold syscall_sema_down.
  destruct (Z.eqb_spec sema 0); [contradiction|]. rewrite Hb, Hv.
  eexists. split; [reflexivity|]. split; [reflexivity|].
  unfold get_prog_sema_block in *. simpl. rewrite find_update_sema, Hb. simpl.
  rewrite Hv. reflexivity.
Qed.

Lemma sema_down_zero sema s b :
  sema <> 0 ->
  get_prog_sema_block (user s sema) (pcb s) = Some b -> sema_value b = O ->
  syscall_sema_down sema s = Sleeps s.
Proof.
  intros Hs Hb Hv. unfold syscall_sema_down.
  destruct (Z.eqb_spec sema 0); [contradiction|]. rewrite Hb, Hv. reflexivity.
Qed.




(** X16.  [syscall_sema_up] lets exactly one sleeper-to-be through.  When the
    handle leads to a semaphore at 0, so that [syscall_sema_down] would put
    the caller to sleep, one [syscall_sema_up] makes the next
    [syscall_sema_down] return true, and the one after that sleeps again. *)
Theorem sema_up_then_down sema s b :
  sema <> 0 ->
  get_prog_sema_block (user s sema) (pcb s) = Some b -> sema_value b = O ->
  syscall_sema_down sema s = Sleeps s /\
  exists s1 s2, syscall_sema_up sema s = (true, s1) /\
    syscall_sema_down sema s1 = Returns true s2 /\
    syscall_sema_down sema s2 = Sleeps s2.
Proof.
  intros Hs Hb Hv. split; [apply (sema_down_zero sema s b Hs Hb Hv)|].
  unfold syscall_sema_up. destruct (Z.eqb_spec sema 0); [contradiction|]. rewrite Hb.
  set (s1 := mkState _ _).
  assert (Hb1 : get_prog_sema_block (user s1 sema) (pcb s1) = Some (mkSema (sema_id b) 1)).
  { unfold get_prog_sema_block in *. unfold s1. simpl. rewrite find_update_sema, Hb. simpl.
    rewrite Hv. reflexivity. }
  destruct (sema_down_some sema s1 _ O Hs Hb1 eq_refl) as (s2 & Hd & _ & Hb2).
  exists s1, s2. split; [reflexivity|]. split; [exact Hd|].
  apply (sema_down_zero sema s2 _ Hs Hb2). reflexivity.
Qed.

Lemma sema_up_then_down_witness :
  syscall_sema_down 4096 (mkState (mkProcess [] 1 [mkSema 1 0] 2) (fun _ => 1))
    = Sleeps (mkState (mkProcess [] 1 [mkSema 1 0] 2) (fun _ => 1)) /\
  exists s1 s2,
    syscall_sema_up 4096 (mkState (mkProcess [] 1 [mkSema 1 0] 2) (fun _ => 1)) = (true, s1) /\
    syscall_sema_down 4096 s1 = Returns true s2 /\
    syscall_sema_down 4096 s2 = Sleeps s2.
Proof.
  apply (sema_up_then_down 4096 (mkState (mkProcess [] 1 [mkSema 1 0] 2) (fun _ => 1))
           (mkSema 1 0)).
  - lia.
  - reflexivity.
  - reflexivity.
Defined.



(** X18.  Handles are eight bits wide.  The id written through the handle
    is [next_sema_id] cut down to a [char]; once the counter has run past
    the range of a [char] and an older semaphore carries the resulting id,
    the new handle leads to that older semaphore: the block just made is
    not the one [syscall_sema_up] and [syscall_sema_down] find. *)
Theorem sema_handle_aliases sema val s old :
  sema <> 0 -> 0 <= val ->
  get_prog_sema_block (to_char (next_sema_id (pcb s))) (pcb s) = Some old ->
  exists s1, syscall_sema_init sema val s = (true, s1) /\
    length (prog_sema_list (pcb s1)) = S (length (prog_sema_list (pcb s))) /\
    get_prog_sema_block (user s1 sema) (pcb s1) = Some old.
Proof.
  intros Hs Hv Hold. unfold syscall_sema_init.
  destruct (Z.eqb_spec sema 0); [contradiction|].
  destruct (Z.ltb_spec val 0); [lia|]. cbn [orb].
  eexists. split; [reflexivity|]. cbn [pcb user with_semas prog_sema_list].
  split; [rewrite length_app; simpl; lia|].
  unfold get_prog_sema_block in *. cbn [prog_sema_list].
  unfold poke at 1. rewrite Z.eqb_refl.
  revert Hold. generalize (to_char (next_sema_id (pcb s))). intros id.
  induction (prog_sema_list (pcb s)) as [|b l IH]; simpl; [discriminate|].
  destruct (sema_id b =? id); [auto|exact IH].
Qed.

(** The counter stands at 257 and the semaphore with id 1 is still there. *)
Lemma sema_handle_aliases_witness :
  exists s1,
    syscall_sema_init 4096 0 (mkState (mkProcess [] 1 [mkSema 1 5] 257) (fun _ => 0))
      = (true, s1) /\
    length (prog_sema_list (pcb s1)) = 2%nat /\
    get_prog_sema_block (user s1 4096) (pcb s1) = Some (mkSema 1 5).
Proof.
  apply (sema_handle_aliases 4096 0 (mkState (mkProcess [] 1 [mkSema 1 5] 257) (fun _ => 0))
           (mkSema 1 5)).
  - lia.
  - lia.
  - reflexivity.
Defined.

End SyncFacts.

(** * Theorems: loading segments and making stacks *)

Module PagesFacts.
Import Loader Pages.

Lemma land_PGMASK x : 0 <= x -> Z.land x PGMASK = x mod PGSIZE.
Proof.
  intros _. change PGMASK with (Z.ones 12). rewrite Z.land_ones by lia. reflexivity.
Qed.

Lemma land_page_mask x :
  is_u32 x -> Z.land x (to_u32 (Z.lnot PGMASK)) = x - x mod PGSIZE.
Proof.
  unfold is_u32, u32_modulus. intros Hx.
  change (to_u32 (Z.lnot PGMASK)) with (Z.ldiff (Z.ones 32) (Z.ones 12)).
  assert (E : Z.land x (Z.ldiff (Z.ones 32) (Z.ones 12)) = Z.ldiff x (Z.ones 12)).
  { apply Z.bits_inj'. intros i Hi.
    rewrite Z.land_spec, !Z.ldiff_spec.
    destruct (Z_lt_ge_dec i 32) as [Hlt|Hge].
    - rewrite (Z.ones_spec_low 32) by lia. rewrite andb_true_l. reflexivity.
    - rewrite (Z.ones_spec_high 32) by lia.
      assert (Z.testbit x i = false) as ->; [|reflexivity].
      destruct (Z.eq_dec x 0) as [->|Hnz]; [apply Z.bits_0|].
      apply Z.bits_above_log2; [lia|].
      assert (Z.log2 x < 32) by (apply Z.log2_lt_pow2; lia). lia. }
  rewrite E, Z.ldiff_ones_r by lia.
  rewrite Z.shiftl_mul_pow2, Z.shiftr_div_pow2 by lia.
  change (2 ^ 12) with PGSIZE. pose proof (Z.div_mod x PGSIZE ltac:(unfold PGSIZE; lia)). lia.
Qed.

Lemma round_up_bounds x :
  0 <= x -> x <= ROUND_UP x PGSIZE < x + PGSIZE /\ ROUND_UP x PGSIZE mod PGSIZE = 0.
Proof.
  intros Hx. unfold ROUND_UP, PGSIZE.
  pose proof (Z.div_mod (x + 4096 - 1) 4096 ltac:(lia)).
  pose proof (Z.mod_pos_bound (x + 4096 - 1) 4096 ltac:(lia)).
  split; [lia|]. apply Z.mod_mul. lia.
Qed.

Lemma segment_page_0 upage : segment_page upage 0 = upage.
Proof. unfold segment_page. simpl. lia. Qed.

Lemma segment_page_S upage i :
  segment_page upage (S i) = segment_page (upage + PGSIZE) i.
Proof. unfold segment_page. lia. Qed.

(** The loop of [load_segment] when nothing gets in its way. *)
Lemma load_pages_ok file_len w : forall frames fuel upage read zero v rest,
  0 <= read -> 0 <= zero ->
  read + zero = Z.of_nat (length frames) * PGSIZE ->
  (length frames < fuel)%nat ->
  pool v = frames ++ rest ->
  file_pos v + read <= file_len ->
  0 <= upage -> upage + Z.of_nat (length frames) * PGSIZE < u32_modulus ->
  (forall i, (i < length frames)%nat -> pagedir v !! segment_page upage i = None) ->
  exists v', load_pages fuel file_len upage read zero w v = Done true v' /\
    pool v' = rest /\ file_pos v' = file_pos v + read /\
    (forall i f, frames !! i = Some f ->
       pagedir v' !! segment_page upage i = Some (mkPte f w false)) /\
    (forall a, (forall i, (i < length frames)%nat -> a <> segment_page upage i) ->
       pagedir v' !! a = pagedir v !! a).
Proof.
  induction frames as [|f frames IH];
    intros fuel upage read zero v rest Hr Hz Hsum Hfuel Hpool Hfile Hu Htop Hfree.
  - destruct fuel as [|fuel]; [simpl in Hfuel; lia|].
    simpl in Hsum. assert (read = 0) as -> by lia. assert (zero = 0) as -> by lia.
    exists v. simpl. split; [reflexivity|]. split; [exact Hpool|]. split; [lia|].
    split; [intros i x Hx; rewrite lookup_nil in Hx; discriminate|reflexivity].
  - destruct fuel as [|fuel]; [simpl in Hfuel; lia|].
    simpl length in *. unfold u32_modulus in Htop.
    assert (HP : PGSIZE = 4096) by reflexivity.
    cbn [load_pages].
    assert (Hor : (read >? 0) || (zero >? 0) = true).
    { destruct (Z.gtb_spec read 0); [reflexivity|].
      destruct (Z.gtb_spec zero 0); [reflexivity|]. lia. }
    rewrite Hor, Hpool. cbn [app].
    set (pr := if read <? PGSIZE then read else PGSIZE).
    assert (Hpr : 0 <= pr <= read /\ pr <= PGSIZE /\ PGSIZE - pr <= zero).
    { unfold pr. destruct (Z.ltb_spec read PGSIZE); lia. }
    assert (Hgot : file_read file_len pr (with_pool (frames ++ rest) v) = pr).
    { unfold file_read. simpl. lia. }
    rewrite Hgot, Z.eqb_refl. cbn [negb].
    unfold install_page, pagedir_get_page. cbn [pagedir with_pos with_pool].
    pose proof (Hfree O ltac:(lia)) as H0. rewrite segment_page_0 in H0.
    rewrite H0. cbn [fmap option_fmap option_map].
    rewrite (to_u32_small (upage + PGSIZE)) by (unfold is_u32, u32_modulus; lia).
    rewrite (to_u32_small (zero - (PGSIZE - pr))) by (unfold is_u32, u32_modulus; lia).
    set (v3 := pagedir_set_page upage f w _).
    destruct (IH fuel (upage + PGSIZE) (read - pr) (zero - (PGSIZE - pr)) v3 rest)
      as (v' & Hl & Hp & Hpos & Hin & Hout).
    + lia.
    + lia.
    + lia.
    + lia.
    + reflexivity.
    + unfold v3. simpl. lia.
    + lia.
    + unfold u32_modulus. lia.
    + intros i Hi. unfold v3. simpl.
      rewrite lookup_insert_ne by (unfold segment_page; lia).
      rewrite <- segment_page_S. apply Hfree. lia.
    + exists v'. split; [exact Hl|]. split; [exact Hp|].
      split; [rewrite Hpos; unfold v3; simpl; lia|]. split.
      * intros [|i] x Hx.
        -- simpl in Hx. injection Hx as <-. rewrite segment_page_0.
           rewrite Hout.
           ++ unfold v3. simpl. apply lookup_insert_eq.
           ++ intros i _. unfold segment_page. lia.
        -- rewrite segment_page_S. apply Hin. exact Hx.
      * intros a Ha. rewrite Hout.
        -- unfold v3. simpl. apply lookup_insert_ne.
           specialize (Ha O ltac:(lia)). rewrite segment_page_0 in Ha. congruence.
        -- intros i Hi. rewrite <- segment_page_S. apply Ha. lia.
Qed.

Lemma load_pages_no_panic file_len w : forall fuel upage read zero v,
  load_pages fuel file_len upage read zero w v <> Panic.
Proof.
  induction fuel as [|fuel IH]; intros upage read zero v; simpl; [discriminate|].
  destruct ((read >? 0) || (zero >? 0)); [|discriminate].
  destruct (pool v) as [|kpage rest]; [discriminate|].
  destruct (negb _); [discriminate|].
  destruct (install_page _ _ _ _) as [[] v3]; [apply IH|discriminate].
Qed.

(** X19.  [load] never trips the assertions of [load_segment].  Whatever
    32-bit fields a program header carries, the byte counts [load]
    computes add up to a whole number of pages, the target address is page
    aligned and so is the file offset. *)
Theorem load_segment_asserts_hold fuel file_len h v :
  phdr_wf h -> load_accepted fuel file_len h v <> Panic.
Proof.
  intros (_ & Ho & Hv & _ & Hf & Hm & _). unfold load_accepted.
  destruct (load_counts h) as [read_bytes zero_bytes] eqn:Ec.
  unfold load_segment.
  assert (H1 : to_u32 (read_bytes + zero_bytes) mod PGSIZE = 0).
  { assert (Hdiv : forall a, (a mod 2 ^ 32) mod PGSIZE = a mod PGSIZE).
    { intros a. apply Z.mod_mod_divide. exists (2 ^ 20). reflexivity. }
    assert (Hru : forall x, ROUND_UP x PGSIZE mod PGSIZE = 0).
    { intros x. unfold ROUND_UP. apply Z.mod_mul. discriminate. }
    unfold load_counts in Ec. unfold to_u32, u32_modulus in *.
    destruct (p_filesz h >? 0); injection Ec as <- <-.
    - rewrite Zplus_mod_idemp_r.
      match goal with |- context [(?a + (?b - ?a)) mod _] =>
        replace (a + (b - a)) with b by lia end.
      rewrite Hdiv. apply Hru.
    - rewrite Z.add_0_l, Z.mod_mod by lia. rewrite Hdiv. apply Hru. }
  rewrite H1. cbn [Z.eqb negb].
  assert (H2 : Z.land (mem_page h) PGMASK = 0).
  { unfold mem_page. rewrite land_page_mask by exact Hv.
    unfold is_u32 in Hv.
    pose proof (Z.div_mod (p_vaddr h) PGSIZE ltac:(discriminate)) as E.
    replace (p_vaddr h - p_vaddr h mod PGSIZE) with (p_vaddr h / PGSIZE * PGSIZE) by lia.
    assert (0 <= p_vaddr h / PGSIZE) by (apply Z.div_pos; [lia|reflexivity]).
    rewrite land_PGMASK by (apply Z.mul_nonneg_nonneg; [assumption|discriminate]).
    apply Z.mod_mul. discriminate. }
  rewrite H2. cbn [Z.eqb negb].
  assert (H3 : Z.rem (to_i32 (file_page h)) PGSIZE = 0).
  { unfold file_page. rewrite land_page_mask by exact Ho.
    unfold is_u32, u32_modulus in Ho.
    pose proof (Z.mod_pos_bound (p_offset h) PGSIZE ltac:(reflexivity)).
    pose proof (Z.div_mod (p_offset h) PGSIZE ltac:(discriminate)) as E.
    replace (p_offset h - p_offset h mod PGSIZE) with (p_offset h / PGSIZE * PGSIZE) by lia.
    set (q := p_offset h / PGSIZE) in *.
    unfold PGSIZE in *.
    assert (Hq : 0 <= q * 4096 < 2 ^ 32) by lia.
    unfold to_i32.
    destruct (Z_lt_ge_dec (q * 4096) (2 ^ 31)) as [Hlo|Hhi].
    - rewrite Z.mod_small by lia.
      replace (q * 4096 + 2 ^ 31 - 2 ^ 31) with (q * 4096) by lia.
      apply Z.rem_mul. discriminate.
    - replace ((q * 4096 + 2 ^ 31) mod 2 ^ 32) with (q * 4096 + 2 ^ 31 - 2 ^ 32)
        by (apply Z.mod_unique with (q := 1); lia).
      replace (q * 4096 + 2 ^ 31 - 2 ^ 32 - 2 ^ 31) with ((q - 2 ^ 20) * 4096) by lia.
      apply Z.rem_mul. discriminate. }
  rewrite H3. cbn [Z.eqb negb].
  apply load_pages_no_panic.
Qed.

Lemma load_segment_asserts_hold_witness :
  load_accepted 10 8192 code_segment stack_demo <> Panic.
Proof.
  apply (load_segment_asserts_hold 10 8192 code_segment stack_demo).
  unfold phdr_wf, is_u32, u32_modulus, code_segment, PT_LOAD. simpl. lia.
Defined.

(** What an accepted header satisfies. *)
Lemma validate_segment_true PHYS_BASE h file_len :
  phdr_wf h -> 0 <= PHYS_BASE <= u32_modulus -> 0 <= file_len < 2 ^ 31 ->
  validate_segment PHYS_BASE h file_len = true ->
  p_offset h <= file_len /\ p_filesz h <= p_memsz h /\ 0 < p_memsz h /\
  p_vaddr h + p_memsz h < PHYS_BASE /\ PGSIZE <= p_vaddr h.
Proof.
  intros (_ & Ho & Hv & _ & Hf & Hm & _) HPB Hlen.
  assert (Hl : to_u32 file_len = file_len).
  { apply to_u32_small. unfold is_u32, u32_modulus. lia. }
  pose proof (LoaderFacts.wrapped_end_ok PHYS_BASE (p_vaddr h) (p_memsz h) Hv Hm HPB) as Hw.
  unfold validate_segment, is_user_vaddr. rewrite Hl.
  destruct (negb _); [discriminate|].
  destruct (Z.gtb_spec (p_offset h) file_len); [discriminate|].
  destruct (Z.ltb_spec (p_memsz h) (p_filesz h)); [discriminate|].
  destruct (Z.eqb_spec (p_memsz h) 0); [discriminate|].
  destruct (Z.ltb_spec (p_vaddr h) PHYS_BASE); cbn [negb]; [|discriminate].
  destruct (Z.ltb_spec (to_u32 (p_vaddr h + p_memsz h)) PHYS_BASE); cbn [negb]; [|discriminate].
  destruct (Z.ltb_spec (to_u32 (p_vaddr h + p_memsz h)) (p_vaddr h)); [discriminate|].
  destruct (Z.ltb_spec (p_vaddr h) PGSIZE); [discriminate|].
  intros _. unfold is_u32 in *. lia.
Qed.

(** X20.  Loading an accepted segment.  For a [PT_LOAD] header that
    [validate_segment] accepts, with enough free frames, enough of the file
    behind the segment's offset and none of the target pages mapped yet,
    [load_segment] as [load] calls it returns true.  It maps exactly the
    pages from the one holding [p_vaddr] to the one holding the last byte
    of the segment, in order, each to the next free frame and with the
    header's writable flag; these pages cover the segment and end at or
    below [PHYS_BASE]; every other mapping is left as it was. *)
Theorem load_accepted_maps_segment PHYS_BASE h file_len fuel v frames rest :
  phdr_wf h -> 0 <= PHYS_BASE < u32_modulus -> PHYS_BASE mod PGSIZE = 0 ->
  0 <= file_len < 2 ^ 31 ->
  validate_segment PHYS_BASE h file_len = true ->
  pool v = frames ++ rest -> length frames = segment_pages h ->
  (segment_pages h < fuel)%nat ->
  file_page h + fst (load_counts h) <= file_len ->
  (forall i, (i < segment_pages h)%nat ->
     pagedir v !! segment_page (mem_page h) i = None) ->
  exists v', load_accepted fuel file_len h v = Done true v' /\ pool v' = rest /\
    (forall i f, frames !! i = Some f ->
       pagedir v' !! segment_page (mem_page h) i = Some (mkPte f (segment_writable h) false)) /\
    (forall a, (forall i, (i < segment_pages h)%nat -> a <> segment_page (mem_page h) i) ->
       pagedir v' !! a = pagedir v !! a) /\
    mem_page h <= p_vaddr h /\
    p_vaddr h + p_memsz h <= mem_page h + Z.of_nat (segment_pages h) * PGSIZE <= PHYS_BASE.
Proof.
  intros Hwf HPB Hal Hlen Hval Hpool Hframes Hfuel Hfile Hfree.
  destruct (validate_segment_true PHYS_BASE h file_len Hwf ltac:(lia) Hlen Hval)
    as (Hoff & Hfm & Hm0 & Hend & Hlow).
  pose proof Hwf as (_ & Ho & Hv & _ & Hf & Hm & _).
  unfold is_u32, u32_modulus in *.
  assert (HP : PGSIZE = 4096) by reflexivity.
  (* the page offset and the page of the segment *)
  pose proof (Z.mod_pos_bound (p_vaddr h) PGSIZE ltac:(lia)) as Hpo.
  pose proof (Z.div_mod (p_vaddr h) PGSIZE ltac:(lia)) as Evaddr.
  assert (Emem : mem_page h = p_vaddr h - p_vaddr h mod PGSIZE).
  { unfold mem_page. apply land_page_mask. unfold is_u32, u32_modulus. lia. }
  assert (Epo : Z.land (p_vaddr h) PGMASK = p_vaddr h mod PGSIZE)
    by (apply land_PGMASK; lia).
  set (po := p_vaddr h mod PGSIZE) in *.
  destruct (round_up_bounds (po + p_memsz h) ltac:(lia)) as [HR HRm].
  set (R := ROUND_UP (po + p_memsz h) PGSIZE) in *.
  assert (En : Z.of_nat (segment_pages h) * PGSIZE = R).
  { unfold segment_pages. rewrite Epo. fold R.
    rewrite Z2Nat.id by (apply Z.div_pos; lia).
    pose proof (Z.div_mod R PGSIZE ltac:(lia)). lia. }
  assert (HRtop : mem_page h + R <= PHYS_BASE).
  { assert (Hmm : (mem_page h + R) mod PGSIZE = 0).
    { rewrite Emem. replace (p_vaddr h - po) with (p_vaddr h / PGSIZE * PGSIZE) by lia.
      rewrite Z.add_comm, Z.mod_add by lia. exact HRm. }
    pose proof (Z.div_mod (mem_page h + R) PGSIZE ltac:(lia)) as E1.
    pose proof (Z.div_mod PHYS_BASE PGSIZE ltac:(lia)) as E2.
    rewrite Hmm in E1. rewrite Hal in E2.
    assert ((mem_page h + R) / PGSIZE <= PHYS_BASE / PGSIZE); [|lia].
    assert (mem_page h + R < PHYS_BASE + PGSIZE) by lia.
    apply Z.lt_succ_r. apply Z.mul_lt_mono_pos_l with (p := PGSIZE); lia. }
  (* the byte counts *)
  assert (Ecounts : exists read zero, load_counts h = (read, zero) /\
            0 <= read /\ 0 <= zero /\ read + zero = R).
  { unfold load_counts. rewrite Epo. fold po.
    rewrite (to_u32_small (po + p_memsz h)) by (unfold is_u32, u32_modulus; lia).
    fold R. destruct (Z.gtb_spec (p_filesz h) 0).
    - rewrite (to_u32_small (po + p_filesz h)) by (unfold is_u32, u32_modulus; lia).
      rewrite to_u32_small by (unfold is_u32, u32_modulus; lia).
      eexists _, _. split; [reflexivity|]. lia.
    - rewrite to_u32_small by (unfold is_u32, u32_modulus; lia).
      eexists _, _. split; [reflexivity|]. lia. }
  destruct Ecounts as (read & zero & Ec & Hr0 & Hz0 & Hsum).
  rewrite Ec in Hfile. cbn [fst] in Hfile.
  assert (Efile : file_page h = p_offset h - p_offset h mod PGSIZE).
  { unfold file_page. apply land_page_mask. unfold is_u32, u32_modulus. lia. }
  pose proof (Z.mod_pos_bound (p_offset h) PGSIZE ltac:(lia)) as Hfo.
  pose proof (Z.div_mod (p_offset h) PGSIZE ltac:(lia)) as Eoff.
  assert (Hq : 0 <= p_offset h / PGSIZE) by (apply Z.div_pos; lia).
  unfold load_accepted. rewrite Ec. unfold load_segment.
  rewrite (to_u32_small (read + zero)) by (unfold is_u32, u32_modulus; lia).
  rewrite Hsum, HRm. cbn [Z.eqb negb].
  assert (H2 : Z.land (mem_page h) PGMASK = 0).
  { rewrite land_PGMASK by lia. rewrite Emem.
    replace (p_vaddr h - po) with (p_vaddr h / PGSIZE * PGSIZE) by lia.
    apply Z.mod_mul. lia. }
  rewrite H2. cbn [Z.eqb negb].
  rewrite (to_i32_small (file_page h)) by (unfold is_i32; lia).
  assert (H3 : Z.rem (file_page h) PGSIZE = 0).
  { rewrite Efile.
    replace (p_offset h - p_offset h mod PGSIZE) with (p_offset h / PGSIZE * PGSIZE) by lia.
    apply Z.rem_mul. lia. }
  rewrite H3. cbn [Z.eqb negb].
  destruct (load_pages_ok file_len (segment_writable h) frames fuel (mem_page h) read zero
              (with_pos (file_page h) v) rest)
    as (v' & Hl & Hp & _ & Hin & Hout).
  - exact Hr0.
  - exact Hz0.
  - rewrite Hframes, En. exact Hsum.
  - rewrite Hframes. exact Hfuel.
  - exact Hpool.
  - simpl. exact Hfile.
  - lia.
  - rewrite Hframes, En. unfold u32_modulus. lia.
  - intros i Hi. apply Hfree. rewrite <- Hframes. exact Hi.
  - exists v'. split; [exact Hl|]. split; [exact Hp|]. split; [exact Hin|].
    split; [|lia].
    intros a Ha. rewrite Hout; [reflexivity|].
    intros i Hi. apply Ha. rewrite <- Hframes. exact Hi.
Qed.

(** [code_segment]: 0x2000 bytes at 0x08049000, the first 0x1234 of them
    from offset 0x1000 of a file of 0x3000 bytes. *)
Lemma load_accepted_maps_segment_witness :
  exists v', load_accepted 3 0x3000 code_segment stack_demo = Done true v' /\
    pool v' = [104; 105; 106] /\
    (forall i f, [102; 103] !! i = Some f ->
       pagedir v' !! segment_page (mem_page code_segment) i = Some (mkPte f true false)) /\
    (forall a, (forall i, (i < 2)%nat -> a <> segment_page (mem_page code_segment) i) ->
       pagedir v' !! a = pagedir stack_demo !! a) /\
    mem_page code_segment <= 0x08049000 /\
    0x08049000 + 0x2000 <= mem_page code_segment + Z.of_nat 2 * PGSIZE <= 0xC0000000.
Proof.
  apply (load_accepted_maps_segment 0xC0000000 code_segment 0x3000 3 stack_demo
           [102; 103] [104; 105; 106]).
  - unfold phdr_wf, is_u32, u32_modulus, code_segment, PT_LOAD. simpl. lia.
  - unfold u32_modulus. lia.
  - reflexivity.
  - lia.
  - reflexivity.
  - reflexivity.
  - reflexivity.
  - vm_compute. lia.
  - vm_compute. discriminate.
  - intros [|[|i]] Hi; [reflexivity|reflexivity|]. vm_compute in Hi. lia.
Defined.

Lemma probe_stops v : forall j n base,
  (j < n)%nat ->
  (Z.of_nat j + 2) * PGSIZE <= base < u32_modulus ->
  (forall i, (i < j)%nat -> pagedir_is_accessed v (stack_slot base i) = true) ->
  pagedir_is_accessed v (stack_slot base j) = false ->
  probe n v base = stack_slot base j + PGSIZE.
Proof.
  assert (HP : PGSIZE = 4096) by reflexivity.
  induction j as [|j IH]; intros n base Hn Hb Hacc Hfree;
    (destruct n as [|n]; [lia|]); unfold u32_modulus in Hb; cbn [probe];
    rewrite (to_u32_small (base - PGSIZE)) by (unfold is_u32, u32_modulus; lia);
    rewrite (to_u32_small (base - PGSIZE - PGSIZE)) by (unfold is_u32, u32_modulus; lia);
    replace (base - PGSIZE - PGSIZE) with (stack_slot base 0)
      by (unfold stack_slot; simpl; lia).
  - rewrite Hfree. unfold stack_slot. simpl. lia.
  - rewrite (Hacc O) by lia. cbn [negb].
    rewrite (IH n (base - PGSIZE)).
    + unfold stack_slot. lia.
    + lia.
    + unfold u32_modulus. lia.
    + intros i Hi. specialize (Hacc (S i) ltac:(lia)).
      rewrite <- Hacc. f_equal. unfold stack_slot. lia.
    + rewrite <- Hfree. f_equal. unfold stack_slot. lia.
Qed.

(** X21.  Where [setup_thread] puts a new stack.  It never considers the
    main stack page: it walks down from the page below it, past every page
    whose accessed bit is set, and takes the first page whose accessed bit
    is clear.  If that page is unmapped it is mapped writable to a fresh
    frame and the stack pointer is its upper end.  If the page is mapped
    but has not been touched, the call fails and changes nothing: so a
    second call made before the first stack has been touched fails. *)
Theorem setup_thread_picks_slot PHYS_BASE v j kpage rest :
  (Z.of_nat j + 2) * PGSIZE <= PHYS_BASE < u32_modulus ->
  (j < max_pthread_num)%nat ->
  pool v = kpage :: rest ->
  (forall i, (i < j)%nat -> pagedir_is_accessed v (stack_slot PHYS_BASE i) = true) ->
  pagedir_is_accessed v (stack_slot PHYS_BASE j) = false ->
  match pagedir v !! stack_slot PHYS_BASE j with
  | Some _ => setup_thread PHYS_BASE v = (false, None, v)
  | None =>
      let v' := pagedir_set_page (stack_slot PHYS_BASE j) kpage true (with_pool rest v) in
      setup_thread PHYS_BASE v
        = (true, Some (stack_slot PHYS_BASE j, stack_slot PHYS_BASE j + PGSIZE), v') /\
      stack_slot PHYS_BASE j + PGSIZE <= PHYS_BASE - PGSIZE /\
      (rest <> [] -> setup_thread PHYS_BASE v' = (false, None, v'))
  end.
Proof.
  intros Hb Hj Hpool Hacc Hfree.
  assert (HP : PGSIZE = 4096) by reflexivity.
  assert (Hslot : 0 <= stack_slot PHYS_BASE j < u32_modulus).
  { unfold stack_slot, u32_modulus in *. lia. }
  assert (Hcall : forall v0 k0 r0,
            pool v0 = k0 :: r0 ->
            (forall a, pagedir_is_accessed (with_pool r0 v0) a = pagedir_is_accessed v a) ->
            setup_thread PHYS_BASE v0 =
              match install_page (stack_slot PHYS_BASE j) k0 true (with_pool r0 v0) with
              | (true, v1) =>
                  (true, Some (stack_slot PHYS_BASE j, stack_slot PHYS_BASE j + PGSIZE), v1)
              | (false, v1) => (false, None, palloc_free_page k0 v1)
              end).
  { intros v0 k0 r0 Hp0 Hsame. unfold setup_thread. rewrite Hp0.
    rewrite (probe_stops (with_pool r0 v0) j max_pthread_num PHYS_BASE Hj Hb).
    - replace (stack_slot PHYS_BASE j + PGSIZE - PGSIZE) with (stack_slot PHYS_BASE j) by lia.
      rewrite (to_u32_small (stack_slot PHYS_BASE j)) by exact Hslot. reflexivity.
    - intros i Hi. rewrite Hsame. apply Hacc. exact Hi.
    - rewrite Hsame. exact Hfree. }
  destruct (pagedir v !! stack_slot PHYS_BASE j) as [e|] eqn:E.
  - rewrite (Hcall v kpage rest Hpool) by reflexivity.
    unfold install_page, pagedir_get_page. cbn [pagedir with_pool]. rewrite E. simpl.
    unfold palloc_free_page, with_pool. simpl. rewrite <- Hpool. destruct v; reflexivity.
  - split; [|split].
    + rewrite (Hcall v kpage rest Hpool) by reflexivity.
      unfold install_page, pagedir_get_page. cbn [pagedir with_pool]. rewrite E. reflexivity.
    + unfold stack_slot. lia.
    + intros Hrest. destruct rest as [|k2 rest2]; [contradiction|].
      set (v' := pagedir_set_page _ _ _ _).
      rewrite (Hcall v' k2 rest2).
      * unfold install_page, pagedir_get_page, v'. cbn [pagedir with_pool pagedir_set_page
          with_pagedir]. rewrite lookup_insert_eq. reflexivity.
      * reflexivity.
      * intros a. unfold pagedir_is_accessed, v'. cbn [pagedir with_pool pagedir_set_page
          with_pagedir]. rewrite lookup_insert.
        destruct (decide (stack_slot PHYS_BASE j = a)) as [<-|]; [|reflexivity].
        unfold pagedir_is_accessed in Hfree. rewrite E in Hfree. rewrite E. reflexivity.
Qed.

(** In [stack_demo] nothing lies below the main stack page. *)
Lemma setup_thread_picks_slot_witness :
  setup_thread 0xC0000000 stack_demo
    = (true, Some (0xBFFFE000, 0xBFFFF000),
       pagedir_set_page 0xBFFFE000 102 true (with_pool [103; 104; 105; 106] stack_demo)) /\
  0xBFFFE000 + PGSIZE <= 0xC0000000 - PGSIZE /\
  ([103; 104; 105; 106] <> [] ->
   setup_thread 0xC0000000
     (pagedir_set_page 0xBFFFE000 102 true (with_pool [103; 104; 105; 106] stack_demo))
   = (false, None,
      pagedir_set_page 0xBFFFE000 102 true (with_pool [103; 104; 105; 106] stack_demo))).
Proof.
  apply (setup_thread_picks_slot 0xC0000000 stack_demo 0 102 [103; 104; 105; 106]).
  - unfold u32_modulus, PGSIZE. simpl. lia.
  - unfold max_pthread_num. lia.
  - reflexivity.
  - intros i Hi. lia.
  - reflexivity.
Defined.

(** X22.  A thread stack given back.  Whatever page [setup_thread] mapped,
    the stack release of [pthread_exit] -- run after the thread has
    touched its stack or not -- unmaps it and returns its frame to the
    pool: page directory and pool are as before [setup_thread]. *)
Theorem setup_then_release_stack PHYS_BASE v upage sp v1 :
  setup_thread PHYS_BASE v = (true, Some (upage, sp), v1) ->
  pagedir v !! upage = None /\
  pagedir_get_page v1 upage <> None /\
  release_stack upage v1 = v /\
  release_stack upage (touch upage v1) = v.
Proof.
  unfold setup_thread. destruct (pool v) as [|kpage rest] eqn:Hpool; [discriminate|].
  set (base := probe _ _ _).
  unfold install_page, pagedir_get_page. cbn [pagedir with_pool].
  destruct (pagedir v !! to_u32 (base - PGSIZE)) as [e|] eqn:E; [discriminate|].
  cbn [fmap option_fmap option_map]. intros H. injection H as <- _ <-.
  split; [exact E|].
  unfold release_stack, pagedir_get_page, touch, pagedir_set_page, pagedir_clear_page,
    palloc_free_page, with_pagedir, with_pool. cbn [pagedir pool file_pos].
  rewrite lookup_alter_eq, lookup_insert_eq. cbn [fmap option_fmap option_map frame].
  split; [discriminate|].
  rewrite <- Hpool. split.
  - cbn [pagedir pool file_pos]. rewrite delete_insert_eq, delete_id by exact E.
    destruct v; reflexivity.
  - cbn [pagedir pool file_pos].
    assert (Ed : forall (f : pte -> pte) (m : gmap Z pte) a, delete a (alter f a m) = delete a m).
    { intros f m a. apply map_eq. intros x. destruct (decide (a = x)) as [->|Hne].
      - rewrite !lookup_delete_eq. reflexivity.
      - rewrite !lookup_delete_ne, lookup_alter_ne by exact Hne. reflexivity. }
    rewrite Ed, delete_insert_eq, delete_id by exact E.
    destruct v; reflexivity.
Qed.

Lemma setup_then_release_stack_witness :
  pagedir stack_demo !! 0xBFFFE000 = None /\
  pagedir_get_page
    (pagedir_set_page 0xBFFFE000 102 true (with_pool [103; 104; 105; 106] stack_demo))
    0xBFFFE000 <> None /\
  release_stack 0xBFFFE000
    (pagedir_set_page 0xBFFFE000 102 true (with_pool [103; 104; 105; 106] stack_demo))
    = stack_demo /\
  release_stack 0xBFFFE000
    (touch 0xBFFFE000
       (pagedir_set_page 0xBFFFE000 102 true (with_pool [103; 104; 105; 106] stack_demo)))
    = stack_demo.
Proof.
  apply (setup_then_release_stack 0xC0000000 stack_demo 0xBFFFE000 0xBFFFF000).
  reflexivity.
Defined.

(** X23.  The initial stack page is large enough.  [setup_stack] maps the
    page below [PHYS_BASE] and starts the stack at [PHYS_BASE]; for a
    command line of at most 3864 bytes and at most 50 words everything
    [args_push_stack] pushes lies in that page. *)
Theorem initial_stack_fits PHYS_BASE v kpage rest fuel file_name m :
  pool v = kpage :: rest ->
  pagedir v !! (PHYS_BASE - PGSIZE) = None ->
  (length file_name < fuel)%nat ->
  Args.strlen file_name <= 3864 ->
  (length (Args.words file_name) <= 50)%nat ->
  exists v1 sp m',
    setup_stack PHYS_BASE v = (true, Some PHYS_BASE, v1) /\
    pagedir v1 !! (PHYS_BASE - PGSIZE) = Some (mkPte kpage true false) /\
    Args.args_push_stack fuel file_name PHYS_BASE m = Args.Done (sp, m') /\
    PHYS_BASE - PGSIZE <= sp <= PHYS_BASE - 16 /\
    (forall x, PHYS_BASE <= x -> m' x = m x).
Proof.
  intros Hpool Hfree Hfuel Hlen Hn.
  destruct (ArgsFacts.args_push_stack_pushed fuel file_name PHYS_BASE m Hfuel ltac:(lia) Hn)
    as (sp & m' & E & Hsp & Hup & _).
  eexists _, sp, m'. split; [|split; [|split; [exact E|split; [|exact Hup]]]].
  - unfold setup_stack, install_page, pagedir_get_page. rewrite Hpool.
    cbn [pagedir with_pool]. rewrite Hfree. reflexivity.
  - simpl. apply lookup_insert_eq.
  - pose proof (ArgsFacts.frame_length PHYS_BASE (Args.words file_name)) as Hf.
    pose proof (ArgsFacts.padding_range (Args.words file_name)) as Hp.
    pose proof (ArgsFacts.words_size file_name) as Hw.
    pose proof (ArgsFacts.bodies_size_nonneg (Args.words file_name)) as Hb.
    unfold Args.frame_size, PGSIZE in *. lia.
Qed.

Lemma initial_stack_fits_witness :
  exists v1 sp m',
    setup_stack 0xC0000000 (mkVm ∅ [7] 0) = (true, Some 0xC0000000, v1) /\
    pagedir v1 !! (0xC0000000 - PGSIZE) = Some (mkPte 7 true false) /\
    Args.args_push_stack 20 Args.echo_cmd 0xC0000000 Args.zero_mem = Args.Done (sp, m') /\
    0xC0000000 - PGSIZE <= sp <= 0xC0000000 - 16 /\
    (forall x, 0xC0000000 <= x -> m' x = Args.zero_mem x).
Proof.
  apply (initial_stack_fits 0xC0000000 (mkVm ∅ [7] 0) 7 [] 20 Args.echo_cmd Args.zero_mem).
  - reflexivity.
  - reflexivity.
  - simpl. lia.
  - vm_compute. discriminate.
  - vm_compute. lia.
Defined.

(** X24.  The frame a new user thread starts on.  On the stack pointer
    [setup_thread] hands out, [start_pthread] leaves a null return address
    at [esp], the thread function at [esp + 4] and its argument at
    [esp + 8]; [esp + 4] is a multiple of 16, the frame lies inside the
    thread's stack page, and nothing at or above the old stack pointer is
    written. *)
Theorem thread_frame_layout PHYS_BASE j tf arg m :
  is_u32 tf -> is_u32 arg ->
  PHYS_BASE mod PGSIZE = 0 ->
  exists sp m',
    thread_frame (stack_slot PHYS_BASE j + PGSIZE) tf arg m = (sp, m') /\
    sp = stack_slot PHYS_BASE j + PGSIZE - 20 /\
    stack_slot PHYS_BASE j <= sp /\
    (sp + 4) mod 16 = 0 /\
    Args.load32 m' sp = 0 /\ Args.load32 m' (sp + 4) = tf /\ Args.load32 m' (sp + 8) = arg /\
    (forall x, stack_slot PHYS_BASE j + PGSIZE <= x -> m' x = m x).
Proof.
  intros Htf Harg Hal.
  set (esp := stack_slot PHYS_BASE j + PGSIZE).
  unfold thread_frame, Args.memset.
  change (Z.to_nat 8) with 8%nat. change (Z.to_nat 4) with 4%nat.
  set (m1 := Args.store_bytes m (esp - 8) (replicate 8 0)).
  set (m2 := Args.store32 m1 (esp - 8 - 4) arg).
  set (m3 := Args.store32 m2 (esp - 8 - 4 - 4) tf).
  set (m4 := Args.store_bytes m3 (esp - 8 - 4 - 4 - 4) (replicate 4 0)).
  assert (P1 : Args.pushed m esp m1 (esp - 8) (replicate 8 0))
    by (apply ArgsFacts.pushed_store_at; reflexivity).
  assert (P2 : Args.pushed m1 (esp - 8) m2 (esp - 8 - 4) (Args.le32 arg))
    by apply ArgsFacts.pushed_store32.
  assert (P3 : Args.pushed m2 (esp - 8 - 4) m3 (esp - 8 - 4 - 4) (Args.le32 tf))
    by apply ArgsFacts.pushed_store32.
  assert (P4 : Args.pushed m3 (esp - 8 - 4 - 4) m4 (esp - 8 - 4 - 4 - 4) (Args.le32 0))
    by (apply (ArgsFacts.pushed_store_at m3 (esp - 8 - 4 - 4) (replicate 4 0) 4); reflexivity).
  pose proof (ArgsFacts.pushed_trans _ _ _ _ _ _ _ _
                (ArgsFacts.pushed_trans _ _ _ _ _ _ _ _
                   (ArgsFacts.pushed_trans _ _ _ _ _ _ _ _ P1 P2) P3) P4)
    as (Hsp & Hup & Hload & _).
  exists (esp - 8 - 4 - 4 - 4), m4. split; [reflexivity|].
  split; [lia|].
  assert (HP : PGSIZE = 4096) by reflexivity.
  assert (Hmod : esp mod 16 = 0).
  { unfold esp, stack_slot.
    pose proof (Z.div_mod PHYS_BASE PGSIZE ltac:(lia)) as E. rewrite Hal in E.
    replace (PHYS_BASE - (Z.of_nat j + 2) * PGSIZE + PGSIZE)
      with ((PHYS_BASE / PGSIZE - (Z.of_nat j + 2) + 1) * 256 * 16)
      by (set (q := PHYS_BASE / PGSIZE) in *; unfold PGSIZE in *; lia).
    apply Z.mod_mul. lia. }
  split; [unfold esp; lia|].
  split.
  { pose proof (Z.div_mod esp 16 ltac:(lia)) as E. rewrite Hmod in E.
    replace (esp - 8 - 4 - 4 - 4 + 4) with ((esp / 16 - 1) * 16) by lia.
    apply Z.mod_mul. lia. }
  set (sp := esp - 8 - 4 - 4 - 4) in *.
  split; [|split; [|split]].
  - pose proof (ArgsFacts.load32_slice m4 sp [] 0
                  (Args.le32 tf ++ Args.le32 arg ++ replicate 8 0) Hload) as H0.
    simpl length in H0. simpl Z.of_nat in H0. rewrite Z.add_0_r in H0. exact H0.
  - replace (sp + 4) with (sp + Z.of_nat (length (Args.le32 0))) by reflexivity.
    rewrite (ArgsFacts.load32_slice m4 sp (Args.le32 0) tf (Args.le32 arg ++ replicate 8 0)).
    + apply to_u32_small. exact Htf.
    + exact Hload.
  - replace (sp + 8) with (sp + Z.of_nat (length (Args.le32 0 ++ Args.le32 tf)))
      by reflexivity.
    rewrite (ArgsFacts.load32_slice m4 sp (Args.le32 0 ++ Args.le32 tf) arg (replicate 8 0)).
    + apply to_u32_small. exact Harg.
    + rewrite <- app_assoc. exact Hload.
  - exact Hup.
Qed.

Lemma thread_frame_layout_witness :
  exists sp m',
    thread_frame (stack_slot 0xC0000000 0 + PGSIZE) 0x08048123 0x0804A000 Args.zero_mem
      = (sp, m') /\
    sp = stack_slot 0xC0000000 0 + PGSIZE - 20 /\
    stack_slot 0xC0000000 0 <= sp /\
    (sp + 4) mod 16 = 0 /\
    Args.load32 m' sp = 0 /\ Args.load32 m' (sp + 4) = 0x08048123 /\
    Args.load32 m' (sp + 8) = 0x0804A000 /\
    (forall x, stack_slot 0xC0000000 0 + PGSIZE <= x -> m' x = Args.zero_mem x).
Proof.
  apply (thread_frame_layout 0xC0000000 0 0x08048123 0x0804A000 Args.zero_mem).
  - unfold is_u32, u32_modulus. lia.
  - unfold is_u32, u32_modulus. lia.
  - reflexivity.
Defined.

End PagesFacts.

(** * Theorems: starting and ending processes and user threads *)

Module SpawnFacts.
Import Proc Spawn.

(** X25.  [get_argv] returns the first word of the command line, which is
    not empty, and NULL exactly when the command line has no word. *)
Theorem get_argv_first_word s :
  Args.strlen s < 2 ^ 31 - 1 ->
  get_argv s = head (Args.words s) /\
  (forall t, get_argv s = Some t -> t <> []) /\
  (get_argv s = None <-> Args.words s = []).
Proof.
  intros Hlen. unfold get_argv.
  assert (Hcopy : firstn (Z.to_nat (to_i32 (Args.strlen s + 1) - 1)) s = s).
  { pose proof (ArgsFacts.strlen_nonneg s).
    rewrite to_i32_small by (unfold is_i32; lia).
    replace (Args.strlen s + 1 - 1) with (Args.strlen s) by lia.
    unfold Args.strlen. rewrite Nat2Z.id. apply firstn_all. }
  rewrite Hcopy.
  destruct (Args.strtok_r s) as [[t r]|] eqn:E.
  - destruct (ArgsFacts.strtok_r_some s t r E) as (Ew & _ & Hne).
    rewrite Ew. simpl. split; [reflexivity|]. split.
    + intros t' H. injection H as <-. exact Hne.
    + split; discriminate.
  - rewrite (ArgsFacts.strtok_r_none s E). simpl. split; [reflexivity|].
    split; [discriminate|]. split; reflexivity.
Qed.

Lemma get_argv_first_word_witness :
  get_argv Args.echo_cmd = head (Args.words Args.echo_cmd) /\
  (forall t, get_argv Args.echo_cmd = Some t -> t <> []) /\
  (get_argv Args.echo_cmd = None <-> Args.words Args.echo_cmd = []).
Proof.
  apply (get_argv_first_word Args.echo_cmd). vm_compute. reflexivity.
Defined.

(** A record appended for a tid that had none is the one, and the only
    one, a lookup of that tid finds. *)
Lemma appended_record_found k kk a b t :
  get_thread_block k t = None ->
  thread_block_list kk = thread_block_list k ++ [a] ->
  (a ∉ thread_block_list k) ->
  (forall y, y <> a -> blocks kk !! y = blocks k !! y) ->
  blocks kk !! a = Some b -> b_tid b = t ->
  get_thread_block kk t = Some a /\ only_record t a kk.
Proof.
  intros Hnone Hl Hnotin Hsame Ha Htid.
  assert (Hold : forall y, y ∈ thread_block_list k -> block_has_tid kk t y = false).
  { intros y Hy. unfold block_has_tid, has_tid. rewrite Hsame by (intros ->; contradiction).
    unfold get_thread_block in Hnone.
    apply (find_none _ _ Hnone). apply list_elem_of_In. exact Hy. }
  assert (Hnew : block_has_tid kk t a = true).
  { unfold block_has_tid, has_tid. rewrite Ha. apply Z.eqb_eq. exact Htid. }
  split.
  - unfold get_thread_block. rewrite Hl.
    rewrite ProcFacts.find_app_none by (apply ProcFacts.find_none_intro; exact Hold).
    rewrite Hnew. reflexivity.
  - intros y Hy Hty. rewrite Hl in Hy. apply elem_of_app in Hy as [Hy|Hy].
    + rewrite (Hold y Hy) in Hty. discriminate.
    + apply elem_of_cons in Hy as [->|Hy]; [reflexivity|].
      apply elem_of_nil in Hy. contradiction.
Qed.

(** While the tid of the new thread is not yet in its record, a lookup of
    that tid finds nothing. *)
Lemma created_record_not_found pid a junk created k t :
  get_thread_block k t = None -> junk <> t ->
  get_thread_block (process_execute_created pid a junk created k) t = None.
Proof.
  intros Hnone Hj. unfold get_thread_block.
  assert (El : thread_block_list (process_execute_created pid a junk created k)
               = thread_block_list k ++ [a]) by (destruct created; reflexivity).
  assert (Eb : blocks (process_execute_created pid a junk created k)
               = <[a := mkBlock junk pid (-1) false 0 0 false]> (blocks k))
    by (destruct created; reflexivity).
  rewrite El. apply ProcFacts.find_none_intro. intros y Hy.
  unfold block_has_tid, has_tid. rewrite Eb.
  destruct (decide (a = y)) as [<-|Hne].
  - rewrite lookup_insert_eq. simpl. apply Z.eqb_neq. exact Hj.
  - rewrite lookup_insert_ne by exact Hne. apply elem_of_app in Hy as [Hy|Hy].
    + unfold get_thread_block in Hnone.
      apply (find_none _ _ Hnone). apply list_elem_of_In. exact Hy.
    + apply elem_of_cons in Hy as [->|Hy]; [contradiction|].
      apply elem_of_nil in Hy. contradiction.
Qed.

(** As in [process_execute], what [malloc] left in the [tid] field does
    not show once the caller has stored the tid. *)
Lemma pthread_execute_store_junk a created mt junk k :
  pthread_execute_store a created (pthread_execute_created mt a junk created k)
  = pthread_execute_store a created (pthread_execute_created mt a 0 created k).
Proof.
  unfold pthread_execute_store.
  assert (E : forall tid,
            update_block (set_b_tid tid) a (pthread_execute_created mt a junk created k)
            = update_block (set_b_tid tid) a (pthread_execute_created mt a 0 created k)).
  { intros tid. unfold update_block, pthread_execute_created, with_blocks.
    destruct created; simpl; rewrite !alter_insert_eq; reflexivity. }
  rewrite E. reflexivity.
Qed.

(** A new thread that finds no join record under its tid follows a NULL
    pointer, in [start_process] as in [start_pthread]. *)
Lemma start_process_without_record fuel t file_name fn new_pcb ld m k :
  get_thread_block k t = None ->
  start_process fuel t file_name fn new_pcb ld m k = Fault.
Proof.
  intros Hnone. unfold start_process.
  destruct (threads k !! t); [|reflexivity].
  destruct new_pcb as [p|].
  - destruct (get_argv file_name); [|reflexivity].
    change (get_thread_block
              (update_thread (set_pcb (Some p)) t
                 (with_pcbs (<[p:=new_process t]> (pcbs k)) k)) t)
      with (get_thread_block k t).
    rewrite Hnone. reflexivity.
  - rewrite Hnone. reflexivity.
Qed.

Lemma start_pthread_without_record fuel t p stack k :
  get_thread_block k t = None -> start_pthread fuel t p stack k = Fault.
Proof.
  intros Hnone. unfold start_pthread.
  destruct (threads k !! t); [|reflexivity]. rewrite Hnone. reflexivity.
Qed.

(** A command line of at most 3864 bytes and 50 words is packed inside the
    one stack page. *)
Lemma args_push_stack_in_page fuel file_name esp m :
  (length file_name < fuel)%nat ->
  Args.strlen file_name <= 3864 ->
  (length (Args.words file_name) <= 50)%nat ->
  exists sp m', Args.args_push_stack fuel file_name esp m = Args.Done (sp, m') /\
    in_stack_page esp sp = true.
Proof.
  intros Hfuel Hlen Hn.
  destruct (ArgsFacts.args_push_stack_pushed fuel file_name esp m Hfuel ltac:(lia) Hn)
    as (sp & m' & E & Hsp & _).
  exists sp, m'. split; [exact E|]. unfold in_stack_page. apply Z.leb_le.
  pose proof (ArgsFacts.frame_length esp (Args.words file_name)) as Hf.
  pose proof (ArgsFacts.padding_range (Args.words file_name)) as Hp.
  pose proof (ArgsFacts.words_size file_name) as Hw.
  pose proof (ArgsFacts.bodies_size_nonneg (Args.words file_name)) as Hb.
  unfold Args.frame_size, Loader.PGSIZE in *. lia.
Qed.

(** [free (argv)] gets the address [malloc] returned exactly when the
    command line does not begin with a space. *)
Lemma free_argv_head file_name :
  Args.strlen file_name < 2 ^ 31 - 1 -> is_Some (get_argv file_name) ->
  free_argv file_name = true <-> head file_name <> Some Args.SPACE.
Proof.
  intros Hlen [argv Hargv]. unfold free_argv, get_argv_offset.
  assert (Hcopy : firstn (Z.to_nat (to_i32 (Args.strlen file_name + 1) - 1)) file_name
                  = file_name).
  { pose proof (ArgsFacts.strlen_nonneg file_name).
    rewrite to_i32_small by (unfold is_i32; lia).
    replace (Args.strlen file_name + 1 - 1) with (Args.strlen file_name) by lia.
    unfold Args.strlen. rewrite Nat2Z.id. apply firstn_all. }
  rewrite Hcopy. rewrite Z.eqb_eq.
  destruct file_name as [|c s'].
  - unfold get_argv in Hargv. simpl in Hargv. discriminate.
  - cbn [head Args.skip_delims]. unfold Args.SPACE.
    destruct (Z.eqb_spec c 32) as [->|Hc].
    + pose proof (ArgsFacts.skip_delims_length s') as Hs.
      unfold Args.strlen. cbn [length]. split; [lia|]. intros H. contradiction H. reflexivity.
    + split; [intros _ H; injection H as H; contradiction|]. intros _. lia.
Qed.

(** X26.  A process is born.  In the schedule in which the creator stores
    the new tid in the join record before the new thread first runs, the
    creator's [process_execute] appends the record and sleeps on the load
    barrier, and the new thread's [start_process] makes the PCB, loads and
    signals the barrier.  For a command line that fits the stack page and
    does not begin with a space, [start_process] then packs the arguments
    and jumps to user mode, and the creator wakes up and returns the new
    tid; the state reached is the one the wait and exit theorems start
    from: the new thread is the main thread of a live process with an
    empty roster, an empty file table starting at descriptor 2 and
    sync-object ids starting at 1, its join record is the only record of
    its tid, made by the creator and not yet waited for, and the
    command-line page is freed exactly once.  For a command line that
    begins with a space [start_process] stops the kernel instead: it hands
    [free] a pointer into the middle of a block.  In the other schedule,
    in which the new thread runs before the creator has stored its tid,
    [start_process] finds no record and follows a NULL pointer. *)
Theorem spawn_then_load fuel k par ppid fn a t p file_name pd f esp m :
  current_pid k par = Some ppid ->
  threads k !! t = None -> t <> initial_thread k -> t <> TID_ERROR ->
  get_thread_block k t = None ->
  blocks k !! a = None -> (a ∉ thread_block_list k) ->
  pcbs k !! p = None ->
  (length file_name < fuel)%nat ->
  Args.strlen file_name <= 3864 ->
  (length (Args.words file_name) <= 50)%nat ->
  is_Some (get_argv file_name) ->
  (exists k1 resume,
     process_execute par (Some fn) a (Some t) k = Block k1 (LoadSem a) resume /\
     (head file_name = Some Args.SPACE ->
      start_process fuel t file_name fn (Some p) (Loaded pd f esp) m k1 = Fault) /\
     (head file_name <> Some Args.SPACE ->
      exists k2 k3,
        start_process fuel t file_name fn (Some p) (Loaded pd f esp) m k1 = Ret true k2 /\
        wake (process_execute par (Some fn) a (Some t) k) k2 = Ret t k3 /\
        live_process k3 t p (mkProcess (Some pd) (Some t) [] 2 [] 0 [] 1 (Some f) 1 []) /\
        join_record k3 t ppid a /\
        current_pid k3 t = Some t /\
        freed_pages k3 = freed_pages k ++ [fn])) /\
  (forall junk, junk <> t ->
     start_process fuel t file_name fn (Some p) (Loaded pd f esp) m
       (process_execute_created ppid a junk (Some t) k) = Fault).
Proof.
  intros Hpid Hfresh Hinit Herr Hnorec Ha Hnotin Hp Hfuel Hlen Hn Hargv'.
  split.
  2:{ intros junk Hj. apply start_process_without_record.
      apply created_record_not_found; assumption. }
  pose proof (free_argv_head file_name ltac:(lia) Hargv') as Hfree.
  destruct Hargv' as [argv Hargv].
  destruct (args_push_stack_in_page fuel file_name esp m Hfuel Hlen Hn)
    as (sp & m' & Eargs & Hin).
  unfold process_execute. rewrite Hpid.
  unfold process_execute_store, process_execute_created.
  assert (Ht : (t =? TID_ERROR) = false) by (apply Z.eqb_neq; exact Herr).
  rewrite Ht.
  set (k3e := update_block (set_b_tid t) a _).
  assert (Hb : blocks k3e !! a = Some (mkBlock t ppid (-1) false 0 0 false)).
  { unfold k3e, update_block. simpl. rewrite lookup_alter_eq, lookup_insert_eq. reflexivity. }
  assert (Hv : sema_value k3e (LoadSem a) = Some 0%nat).
  { unfold sema_value. rewrite Hb. reflexivity. }
  unfold sema_down at 1. rewrite Hv.
  assert (Hthr : threads k3e !! t = Some (mkThread Sched.THREAD_READY None)).
  { unfold k3e, update_block. simpl. apply lookup_insert_eq. }
  assert (Hg : get_thread_block k3e t = Some a).
  { apply (appended_record_found k k3e a (mkBlock t ppid (-1) false 0 0 false) t
             Hnorec eq_refl Hnotin); [|exact Hb|reflexivity].
    intros y Hy. unfold k3e, update_block. simpl.
    rewrite lookup_alter_ne, lookup_insert_ne by congruence. reflexivity. }
  eexists k3e, _. split; [reflexivity|]. split.
  { intros Hsp. unfold start_process. rewrite Hthr, Hargv.
    set (k1s := update_thread (set_pcb (Some p)) t _).
    change (get_thread_block k1s t) with (get_thread_block k3e t). rewrite Hg.
    rewrite Eargs, Hin. cbn [negb].
    destruct (free_argv file_name) eqn:Ef; [|reflexivity].
    exfalso. apply (proj1 Hfree eq_refl). exact Hsp. }
  intros Hnsp.
  assert (Ef : free_argv file_name = true) by (apply Hfree; exact Hnsp).
  assert (Hstart : exists k2,
            start_process fuel t file_name fn (Some p) (Loaded pd f esp) m k3e = Ret true k2 /\
            blocks k2 !! a = Some (mkBlock t ppid (-1) false 0 1 true) /\
            (forall y, y <> a -> blocks k2 !! y = blocks k !! y) /\
            threads k2 !! t = Some (mkThread Sched.THREAD_READY (Some p)) /\
            pcbs k2 !! p = Some (mkProcess (Some pd) (Some t) [] 2 [] 0 [] 1 (Some f) 1 []) /\
            thread_block_list k2 = thread_block_list k ++ [a] /\
            initial_thread k2 = initial_thread k /\
            freed_pages k2 = freed_pages k ++ [fn]).
  { unfold start_process. rewrite Hthr, Hargv.
    set (k1s := update_thread (set_pcb (Some p)) t _).
    change (get_thread_block k1s t) with (get_thread_block k3e t). rewrite Hg.
    rewrite Eargs, Hin, Ef. cbn [negb].
    eexists. split; [reflexivity|].
    unfold sema_up, sema_map, update_block, update_pcb, k1s, update_thread, k3e, update_block.
    simpl. split; [|split; [|split; [|split; [|split; [|split]]]]].
    - rewrite !lookup_alter_eq, lookup_insert_eq. reflexivity.
    - intros y Hy. rewrite !lookup_alter_ne, lookup_insert_ne by congruence. reflexivity.
    - rewrite lookup_alter_eq, lookup_insert_eq. reflexivity.
    - rewrite lookup_alter_eq, lookup_insert_eq. reflexivity.
    - reflexivity.
    - reflexivity.
    - reflexivity. }
  destruct Hstart as (k2 & Hs & Hb2 & Hoth2 & Ht2 & Hp2 & Hl2 & Hi2 & Hf2).
  set (k3 := sema_map pred (LoadSem a) k2).
  assert (Hb3 : blocks k3 !! a = Some (mkBlock t ppid (-1) false 0 0 true)).
  { unfold k3, sema_map, update_block. cbn [blocks with_blocks].
    rewrite lookup_alter_eq, Hb2. reflexivity. }
  assert (Hoth3 : forall y, y <> a -> blocks k3 !! y = blocks k !! y).
  { intros y Hy. unfold k3, sema_map, update_block. cbn [blocks with_blocks].
    rewrite lookup_alter_ne by congruence. apply Hoth2. exact Hy. }
  exists k2, k3. split; [exact Hs|].
  split.
  { unfold sema_down. rewrite Hv. unfold wake.
    assert (Hv2 : sema_value k2 (LoadSem a) = Some 1%nat).
    { unfold sema_value. rewrite Hb2. reflexivity. }
    rewrite Hv2. fold k3. rewrite Hb3. reflexivity. }
  split; [|split; [|split]].
  - unfold live_process. split; [exists (mkThread Sched.THREAD_READY (Some p)); auto|].
    split; [change (initial_thread k3) with (initial_thread k2); rewrite Hi2; exact Hinit|].
    split; [exact Hp2|].
    split; [reflexivity|]. split; [constructor|].
    intros x Hx. simpl in Hx. apply elem_of_nil in Hx. contradiction.
  - destruct (appended_record_found k k3 a _ t Hnorec Hl2 Hnotin Hoth3 Hb3 eq_refl)
      as [Hg3 Honly].
    split; [exact Hg3|]. split; [exact Honly|]. eexists. split; [exact Hb3|].
    split; reflexivity.
  - unfold current_pid. change (threads k3) with (threads k2). rewrite Ht2. cbn [t_pcb].
    change (pcbs k3) with (pcbs k2). rewrite Hp2. reflexivity.
  - exact Hf2.
Qed.

(** Thread 1 spawns ["echo hello world"] as thread 5. *)
Lemma spawn_then_load_witness :
  (exists k1 resume,
     process_execute 1 (Some 4096) 1%positive (Some 5) spawn_demo
       = Block k1 (LoadSem 1%positive) resume /\
     (head Args.echo_cmd = Some Args.SPACE ->
      start_process 20 5 Args.echo_cmd 4096 (Some 1%positive) (Loaded 7 99 0xC0000000)
        Args.zero_mem k1 = Fault) /\
     (head Args.echo_cmd <> Some Args.SPACE ->
      exists k2 k3,
        start_process 20 5 Args.echo_cmd 4096 (Some 1%positive) (Loaded 7 99 0xC0000000)
          Args.zero_mem k1 = Ret true k2 /\
        wake (process_execute 1 (Some 4096) 1%positive (Some 5) spawn_demo) k2 = Ret 5 k3 /\
        live_process k3 5 1%positive
          (mkProcess (Some 7) (Some 5) [] 2 [] 0 [] 1 (Some 99) 1 []) /\
        join_record k3 5 1 1%positive /\
        current_pid k3 5 = Some 5 /\
        freed_pages k3 = freed_pages spawn_demo ++ [4096])) /\
  (forall junk, junk <> 5 ->
     start_process 20 5 Args.echo_cmd 4096 (Some 1%positive) (Loaded 7 99 0xC0000000)
       Args.zero_mem (process_execute_created 1 1%positive junk (Some 5) spawn_demo) = Fault).
Proof.
  apply (spawn_then_load 20 spawn_demo 1 1 4096 1%positive 5 1%positive Args.echo_cmd 7 99
           0xC0000000 Args.zero_mem).
  - reflexivity.
  - reflexivity.
  - discriminate.
  - discriminate.
  - reflexivity.
  - reflexivity.
  - apply not_elem_of_nil.
  - reflexivity.
  - simpl. lia.
  - vm_compute. discriminate.
  - vm_compute. lia.
  - eexists. vm_compute. reflexivity.
Defined.

Lemma get_thread_block_ext k k' tid :
  thread_block_list k' = thread_block_list k ->
  (forall y, b_tid <$> blocks k' !! y = b_tid <$> blocks k !! y) ->
  get_thread_block k' tid = get_thread_block k tid.
Proof.
  intros Hl Hb. unfold get_thread_block. rewrite Hl. apply ProcFacts.find_pointwise.
  intros y. unfold block_has_tid, has_tid. specialize (Hb y).
  destruct (blocks k' !! y), (blocks k !! y); simpl in Hb; try discriminate;
    [injection Hb as ->|]; reflexivity.
Qed.

(** X27.  When the load fails.  In the schedule in which the creator
    stores the new tid in the join record before the new thread first
    runs: whether the PCB cannot be allocated or [load] fails,
    [start_process] still signals the load barrier and ends the new
    thread, and the creator's [process_execute] wakes up and returns
    [TID_ERROR].  A PCB that was made is freed again and the command-line
    page is freed once; a file [load] had opened is closed; no page
    directory is destroyed.  In the other schedule, in which the new thread
    runs before the creator has stored its tid, [start_process] finds no
    record and follows a NULL pointer instead of signalling. *)
Theorem spawn_load_fails fuel k par ppid fn a t file_name new_pcb pdo opened m :
  current_pid k par = Some ppid ->
  threads k !! t = None -> t <> TID_ERROR ->
  get_thread_block k t = None ->
  blocks k !! a = None -> (a ∉ thread_block_list k) ->
  match new_pcb with
  | Some p => pcbs k !! p = None /\ is_Some (get_argv file_name)
  | None => True
  end ->
  (exists k1 resume k2 k3,
     process_execute par (Some fn) a (Some t) k = Block k1 (LoadSem a) resume /\
     start_process fuel t file_name fn new_pcb (NotLoaded pdo opened) m k1 = Exit k2 /\
     wake (process_execute par (Some fn) a (Some t) k) k2 = Ret TID_ERROR k3 /\
     threads k3 !! t = Some (mkThread Sched.THREAD_DYING None) /\
     pcbs k3 = pcbs k /\
     freed_pages k3 = freed_pages k ++ [fn] /\
     closed_files k3 = closed_files k ++
       match new_pcb, opened with Some _, Some f => [f] | _, _ => [] end /\
     destroyed_pagedirs k3 = destroyed_pagedirs k) /\
  (forall junk, junk <> t ->
     start_process fuel t file_name fn new_pcb (NotLoaded pdo opened) m
       (process_execute_created ppid a junk (Some t) k) = Fault).
Proof.
  intros Hpid Hfresh Herr Hnorec Ha Hnotin Hnew.
  split.
  2:{ intros junk Hj. apply start_process_without_record.
      apply created_record_not_found; assumption. }
  unfold process_execute. rewrite Hpid.
  unfold process_execute_store, process_execute_created.
  assert (Ht : (t =? TID_ERROR) = false) by (apply Z.eqb_neq; exact Herr).
  rewrite Ht.
  set (k3e := update_block (set_b_tid t) a _).
  assert (Hb : blocks k3e !! a = Some (mkBlock t ppid (-1) false 0 0 false)).
  { unfold k3e, update_block. simpl. rewrite lookup_alter_eq, lookup_insert_eq. reflexivity. }
  assert (Hv : sema_value k3e (LoadSem a) = Some 0%nat).
  { unfold sema_value. rewrite Hb. reflexivity. }
  unfold sema_down at 1. rewrite Hv.
  assert (Hthr : threads k3e !! t = Some (mkThread Sched.THREAD_READY None)).
  { unfold k3e, update_block. simpl. apply lookup_insert_eq. }
  assert (Hg : get_thread_block k3e t = Some a).
  { apply (appended_record_found k k3e a (mkBlock t ppid (-1) false 0 0 false) t
             Hnorec eq_refl Hnotin); [|exact Hb|reflexivity].
    intros y Hy. unfold k3e, update_block. simpl.
    rewrite lookup_alter_ne, lookup_insert_ne by congruence. reflexivity. }
  assert (Hstart : exists k2,
            start_process fuel t file_name fn new_pcb (NotLoaded pdo opened) m k3e = Exit k2 /\
            blocks k2 !! a = Some (mkBlock t ppid (-1) false 0 1 false) /\
            threads k2 !! t = Some (mkThread Sched.THREAD_DYING None) /\
            pcbs k2 = pcbs k /\
            freed_pages k2 = freed_pages k ++ [fn] /\
            closed_files k2 = closed_files k ++
              match new_pcb, opened with Some _, Some f => [f] | _, _ => [] end /\
            destroyed_pagedirs k2 = destroyed_pagedirs k).
  { unfold start_process. rewrite Hthr. destruct new_pcb as [p|].
    - destruct Hnew as [Hp [argv Hargv]]. rewrite Hargv.
      set (k1s := update_thread (set_pcb (Some p)) t _).
      change (get_thread_block k1s t) with (get_thread_block k3e t). rewrite Hg.
      unfold thread_exit. eexists. split; [reflexivity|].
      unfold sema_up, sema_map, update_block, update_pcb, k1s, update_thread, k3e,
        update_block.
      destruct opened as [f|]; simpl.
      + split; [rewrite !lookup_alter_eq, lookup_insert_eq; reflexivity|].
        split; [rewrite !lookup_alter_eq, lookup_insert_eq; reflexivity|].
        split; [|repeat split].
        apply map_eq. intros q. destruct (decide (p = q)) as [<-|Hne].
        * rewrite lookup_delete_eq, Hp. reflexivity.
        * rewrite lookup_delete_ne, lookup_alter_ne, lookup_insert_ne by exact Hne.
          reflexivity.
      + split; [rewrite !lookup_alter_eq, lookup_insert_eq; reflexivity|].
        split; [rewrite !lookup_alter_eq, lookup_insert_eq; reflexivity|].
        split; [|rewrite app_nil_r; repeat split].
        apply map_eq. intros q. destruct (decide (p = q)) as [<-|Hne].
        * rewrite lookup_delete_eq, Hp. reflexivity.
        * rewrite lookup_delete_ne, lookup_alter_ne, lookup_insert_ne by exact Hne.
          reflexivity.
    - rewrite Hg. unfold thread_exit. eexists. split; [reflexivity|].
      unfold sema_up, sema_map, update_block, update_thread, k3e, update_block. simpl.
      split; [rewrite !lookup_alter_eq, lookup_insert_eq; reflexivity|].
      split; [rewrite !lookup_alter_eq, lookup_insert_eq; reflexivity|].
      rewrite app_nil_r. repeat split. }
  destruct Hstart as (k2 & Hs & Hb2 & Ht2 & Hp2 & Hf2 & Hc2 & Hd2).
  eexists k3e, _, k2, (sema_map pred (LoadSem a) k2).
  split; [reflexivity|]. split; [exact Hs|]. split.
  { unfold sema_down. rewrite Hv. unfold wake.
    assert (Hv2 : sema_value k2 (LoadSem a) = Some 1%nat).
    { unfold sema_value. rewrite Hb2. reflexivity. }
    rewrite Hv2.
    assert (Hb3 : blocks (sema_map pred (LoadSem a) k2) !! a
                  = Some (mkBlock t ppid (-1) false 0 0 false)).
    { unfold sema_map, update_block. cbn [blocks with_blocks].
      rewrite lookup_alter_eq, Hb2. reflexivity. }
    rewrite Hb3. reflexivity. }
  split; [exact Ht2|]. split; [exact Hp2|]. split; [exact Hf2|]. split; [exact Hc2|exact Hd2].
Qed.

Lemma spawn_load_fails_witness :
  (exists k1 resume k2 k3,
     process_execute 1 (Some 4096) 1%positive (Some 5) spawn_demo
       = Block k1 (LoadSem 1%positive) resume /\
     start_process 20 5 Args.echo_cmd 4096 (Some 1%positive) (NotLoaded (Some 7) (Some 99))
       Args.zero_mem k1 = Exit k2 /\
     wake (process_execute 1 (Some 4096) 1%positive (Some 5) spawn_demo) k2
       = Ret TID_ERROR k3 /\
     threads k3 !! 5 = Some (mkThread Sched.THREAD_DYING None) /\
     pcbs k3 = pcbs spawn_demo /\
     freed_pages k3 = freed_pages spawn_demo ++ [4096] /\
     closed_files k3 = closed_files spawn_demo ++ [99] /\
     destroyed_pagedirs k3 = destroyed_pagedirs spawn_demo) /\
  (forall junk, junk <> 5 ->
     start_process 20 5 Args.echo_cmd 4096 (Some 1%positive) (NotLoaded (Some 7) (Some 99))
       Args.zero_mem (process_execute_created 1 1%positive junk (Some 5) spawn_demo) = Fault).
Proof.
  apply (spawn_load_fails 20 spawn_demo 1 1 4096 1%positive 5 Args.echo_cmd (Some 1%positive)
           (Some 7) (Some 99) Args.zero_mem).
  - reflexivity.
  - reflexivity.
  - discriminate.
  - reflexivity.
  - reflexivity.
  - apply not_elem_of_nil.
  - split; [reflexivity|]. eexists. vm_compute. reflexivity.
Defined.

Lemma thread_added_found k k' p pr t st a b roster :
  thread_added k k' p pr t st a b roster ->
  get_thread_block k t = None -> (a ∉ thread_block_list k) -> b_tid b = t ->
  get_thread_block k' t = Some a.
Proof.
  intros (Hb & Hoth & Hl & _) Hnone Hnotin Htid.
  apply (appended_record_found k k' a b t Hnone Hl Hnotin Hoth Hb Htid).
Qed.

Lemma filter_snoc_fresh (l : list tid_t) t :
  (t ∉ l) -> filter (fun x => x <> t) (l ++ [t]) = l.
Proof.
  intros Hnotin. rewrite filter_app, filter_cons, decide_False by auto.
  rewrite filter_nil, app_nil_r.
  induction l as [|x l IH]; [reflexivity|].
  rewrite filter_cons, decide_True.
  - f_equal. apply IH. intros Hin. apply Hnotin. apply elem_of_cons. auto.
  - intros ->. apply Hnotin. apply elem_of_cons. auto.
Qed.

(** What [pthread_join] does with an unjoined record of a peer: it sleeps
    when the peer has not exited, and returns the tid when it has. *)
Lemma pthread_join_first k cur p pr mt tid a b :
  peer_of k p cur -> pcbs k !! p = Some pr -> main_thread pr = Some mt ->
  tid <> mt -> get_thread_block k tid = Some a -> blocks k !! a = Some b ->
  b_pid b = mt -> was_waited b = false ->
  match semapth b with
  | O => exists resume,
      pthread_join cur tid k
        = Block (update_block (set_was_waited true) a k) (JoinSem a) resume
  | S _ =>
      pthread_join cur tid k
        = Ret tid (sema_map pred (JoinSem a) (update_block (set_was_waited true) a k))
  end.
Proof.
  intros (tc & Ht & Hp) Hpr Hmt Hne Hg Hb Hpid Hw. unfold pthread_join.
  rewrite Ht, Hp, Hpr, Hmt.
  destruct (Z.eqb_spec tid mt) as [E|_]; [contradiction|].
  rewrite Hg, Hb, Hw, Hpid, Z.eqb_refl. cbn [negb].
  unfold sema_down, sema_value, update_block. cbn [blocks with_blocks].
  rewrite lookup_alter_eq, Hb. cbn [fmap option_fmap option_map semapth set_was_waited].
  destruct (semapth b); [eexists|]; reflexivity.
Qed.

(** X28.  The life of a user thread.  In the schedule in which the
    creator stores the new tid in the join record before the new thread
    first runs: [pthread_execute] appends the join record, made in the name
    of the process's main thread, and sleeps on the load barrier;
    [start_pthread] with a stack puts the new thread on the roster and
    signals the barrier, and the creator wakes up and returns the new tid.
    A join of the thread then sleeps.  Once the thread has called
    [pthread_exit] -- which signals its record, takes it off the roster and
    gives the frame of its stack back -- a first join by a thread of the
    process returns its tid at once, and a second join returns
    [TID_ERROR].  In the other schedule, in which the new thread runs
    before the creator has stored its tid, [start_pthread] finds no record
    and follows a NULL pointer, with a stack or without. *)
Theorem pthread_lifecycle fuel k cur p pr mt a t kpage :
  peer_of k p cur -> pcbs k !! p = Some pr -> main_thread pr = Some mt ->
  threads k !! t = None -> t <> TID_ERROR -> t <> mt -> (t ∉ all_threads pr) ->
  get_thread_block k t = None -> blocks k !! a = None -> (a ∉ thread_block_list k) ->
  (exists k1 resume k2 k3 k4 k5,
     pthread_execute cur a (Some t) k = Block k1 (LoadSem a) resume /\
     start_pthread fuel t p true k1 = Ret true k2 /\
     wake (pthread_execute cur a (Some t) k) k2 = Ret t k3 /\
     thread_added k k3 p pr t Sched.THREAD_READY a (mkBlock t mt (-1) false 0 0 true)
       (all_threads pr ++ [t]) /\
     (exists kb r, pthread_join cur t k3 = Block kb (JoinSem a) r) /\
     pthread_exit fuel t kpage k3 = Exit k4 /\
     thread_added k k4 p pr t Sched.THREAD_DYING a (mkBlock t mt (-1) false 1 0 true)
       (all_threads pr) /\
     freed_pages k4 = freed_pages k ++
       match pagedir pr, kpage with Some _, Some f => [f] | _, _ => [] end /\
     pthread_join cur t k4 = Ret t k5 /\
     pthread_join cur t k5 = Ret TID_ERROR k5) /\
  (forall junk stack, junk <> t ->
     start_pthread fuel t p stack (pthread_execute_created mt a junk (Some t) k) = Fault).
Proof.
  intros (tc & Hcur & Hcp) Hpr Hmt Hfresh Herr Hne Hnotr Hnorec Ha Hnotin.
  assert (Hct : cur <> t) by (intros ->; rewrite Hfresh in Hcur; discriminate).
  split.
  2:{ intros junk stack Hj. apply start_pthread_without_record.
      change (pthread_execute_created mt a junk (Some t) k)
        with (process_execute_created mt a junk (Some t) k).
      apply created_record_not_found; assumption. }
  unfold pthread_execute. rewrite Hcur, Hcp, Hpr, Hmt.
  unfold pthread_execute_store, pthread_execute_created.
  set (k3e := update_block (set_b_tid t) a _).
  assert (Hb : blocks k3e !! a = Some (mkBlock t mt (-1) false 0 0 false)).
  { unfold k3e, update_block. simpl. rewrite lookup_alter_eq, lookup_insert_eq. reflexivity. }
  assert (Hv : sema_value k3e (LoadSem a) = Some 0%nat).
  { unfold sema_value. rewrite Hb. reflexivity. }
  unfold sema_down at 1. rewrite Hv.
  assert (Hthr : threads k3e !! t = Some (mkThread Sched.THREAD_READY None)).
  { unfold k3e, update_block. simpl. apply lookup_insert_eq. }
  assert (Hg : get_thread_block k3e t = Some a).
  { apply (appended_record_found k k3e a (mkBlock t mt (-1) false 0 0 false) t
             Hnorec eq_refl Hnotin); [|exact Hb|reflexivity].
    intros y Hy. unfold k3e, update_block. simpl.
    rewrite lookup_alter_ne, lookup_insert_ne by congruence. reflexivity. }
  (* the new thread starts *)
  assert (Hstart : exists k2,
            start_pthread fuel t p true k3e = Ret true k2 /\
            thread_added k k2 p pr t Sched.THREAD_READY a
              (mkBlock t mt (-1) false 0 1 true) (all_threads pr ++ [t]) /\
            freed_pages k2 = freed_pages k /\ initial_thread k2 = initial_thread k).
  { unfold start_pthread. rewrite Hthr, Hg.
    set (k2' := update_block (set_load_success true) a _).
    assert (Hp2 : pcbs k2' !! p = Some pr) by exact Hpr.
    rewrite Hp2. eexists. split; [reflexivity|].
    unfold thread_added, sema_up, sema_map, update_block, update_pcb, k2', update_block,
      update_thread, k3e, update_block. simpl.
    split; [|split; reflexivity].
    split; [rewrite !lookup_alter_eq, lookup_insert_eq; reflexivity|].
    split; [intros y Hy; rewrite !lookup_alter_ne, lookup_insert_ne by congruence;
            reflexivity|].
    split; [reflexivity|].
    split; [rewrite lookup_alter_eq, lookup_insert_eq; reflexivity|].
    split; [intros u Hu; rewrite lookup_alter_ne, lookup_insert_ne by congruence;
            reflexivity|].
    split; [rewrite lookup_alter_eq, Hpr; reflexivity|].
    intros q Hq. rewrite lookup_alter_ne by congruence. reflexivity. }
  destruct Hstart as (k2 & Hs & (Hb2 & Hoth2 & Hl2 & Ht2 & Hu2 & Hp2 & Hq2) & Hf2 & Hi2).
  (* the creator wakes up *)
  set (k3 := sema_map pred (LoadSem a) k2).
  assert (Hadd3 : thread_added k k3 p pr t Sched.THREAD_READY a
                    (mkBlock t mt (-1) false 0 0 true) (all_threads pr ++ [t])).
  { unfold thread_added, k3, sema_map, update_block. cbn [blocks with_blocks
      thread_block_list threads pcbs].
    split; [rewrite lookup_alter_eq, Hb2; reflexivity|].
    split; [intros y Hy; rewrite lookup_alter_ne by congruence; apply Hoth2; exact Hy|].
    split; [exact Hl2|]. split; [exact Ht2|]. split; [exact Hu2|]. split; [exact Hp2|exact Hq2]. }
  pose proof Hadd3 as (Hb3 & Hoth3 & Hl3 & Ht3 & Hu3 & Hp3 & Hq3).
  assert (Hg3 : get_thread_block k3 t = Some a)
    by (apply (thread_added_found _ _ _ _ _ _ _ _ _ Hadd3 Hnorec Hnotin eq_refl)).
  assert (Hpeer3 : peer_of k3 p cur).
  { exists tc. split; [rewrite Hu3 by exact Hct; exact Hcur|exact Hcp]. }
  (* the thread exits *)
  assert (Hexit : exists k4,
            pthread_exit fuel t kpage k3 = Exit k4 /\
            thread_added k k4 p pr t Sched.THREAD_DYING a
              (mkBlock t mt (-1) false 1 0 true) (all_threads pr) /\
            freed_pages k4 = freed_pages k ++
              match pagedir pr, kpage with Some _, Some f => [f] | _, _ => [] end).
  { unfold pthread_exit, pthread_exit_from. rewrite Ht3. cbn [t_pcb]. rewrite Hp3.
    rewrite decide_False by (cbn [main_thread set_roster]; rewrite Hmt; congruence).
    rewrite bool_decide_eq_true_2
      by (cbn [all_threads set_roster]; apply elem_of_app; right; apply elem_of_cons; now left).
    rewrite Hg3. cbv zeta. unfold thread_exit. eexists. split; [reflexivity|].
    assert (Hfil : filter (fun x => x <> t) (all_threads pr ++ [t]) = all_threads pr).
    { apply filter_snoc_fresh. exact Hnotr. }
    split.
    - unfold thread_added.
      assert (Hcommon : forall kk,
                blocks kk = blocks (signal_own (Some a) k3) ->
                thread_block_list kk = thread_block_list k3 ->
                threads kk = threads k3 ->
                pcbs kk = alter (drop_roster t) p (pcbs k3) ->
                thread_added k (update_thread (set_status Sched.THREAD_DYING) t kk) p pr t
                  Sched.THREAD_DYING a (mkBlock t mt (-1) false 1 0 true) (all_threads pr)).
      { intros kk E1 E2 E3 E4. unfold thread_added, update_thread.
        cbn [blocks with_threads thread_block_list threads pcbs].
        rewrite E1, E2, E3, E4. unfold signal_own, sema_up, sema_map, update_block.
        cbn [blocks with_blocks].
        split; [rewrite lookup_alter_eq, Hb3; reflexivity|].
        split; [intros y Hy; rewrite lookup_alter_ne by congruence; apply Hoth3; exact Hy|].
        split; [exact Hl3|].
        split; [rewrite lookup_alter_eq, Ht3; reflexivity|].
        split; [intros u Hu; rewrite lookup_alter_ne by congruence; apply Hu3; exact Hu|].
        split; [rewrite lookup_alter_eq, Hp3; unfold drop_roster; cbn [fmap option_fmap
                  option_map all_threads set_roster]; rewrite Hfil; reflexivity|].
        intros q Hq. rewrite lookup_alter_ne by congruence. apply Hq3. exact Hq. }
      destruct (pagedir (set_roster (all_threads pr ++ [t]) pr)), kpage;
        apply Hcommon; reflexivity.
    - change (pagedir (set_roster (all_threads pr ++ [t]) pr)) with (pagedir pr).
      destruct (pagedir pr), kpage; cbn [freed_pages update_thread with_threads with_freed
        update_pcb with_pcbs signal_own sema_up sema_map update_block with_blocks];
        change (freed_pages k3) with (freed_pages k2); rewrite Hf2, ?app_nil_r; reflexivity. }
  destruct Hexit as (k4 & He & Hadd4 & Hf4).
  pose proof Hadd4 as (Hb4 & Hoth4 & Hl4 & Ht4 & Hu4 & Hp4 & Hq4).
  assert (Hg4 : get_thread_block k4 t = Some a)
    by (apply (thread_added_found _ _ _ _ _ _ _ _ _ Hadd4 Hnorec Hnotin eq_refl)).
  assert (Hpeer4 : peer_of k4 p cur).
  { exists tc. split; [rewrite Hu4 by exact Hct; exact Hcur|exact Hcp]. }
  (* the joins *)
  pose proof (pthread_join_first k3 cur p _ mt t a _ Hpeer3 Hp3 Hmt Hne Hg3 Hb3
                eq_refl eq_refl) as Hj3. cbn [semapth] in Hj3.
  pose proof (pthread_join_first k4 cur p _ mt t a _ Hpeer4 Hp4 Hmt Hne Hg4 Hb4
                eq_refl eq_refl) as Hj4. cbn [semapth] in Hj4.
  set (k5 := sema_map pred (JoinSem a) (update_block (set_was_waited true) a k4)) in *.
  assert (Hb5 : blocks k5 !! a = Some (mkBlock t mt (-1) true 0 0 true)).
  { unfold k5, sema_map, update_block. cbn [blocks with_blocks].
    rewrite !lookup_alter_eq, Hb4. reflexivity. }
  assert (Hg5 : get_thread_block k5 t = Some a).
  { rewrite <- Hg4. apply get_thread_block_ext; [reflexivity|].
    intros y. unfold k5, sema_map, update_block. cbn [blocks with_blocks].
    destruct (decide (a = y)) as [<-|Hy].
    - rewrite !lookup_alter_eq, Hb4. reflexivity.
    - rewrite !lookup_alter_ne by exact Hy. reflexivity. }
  eexists k3e, _, k2, k3, k4, k5.
  split; [reflexivity|]. split; [exact Hs|]. split.
  { unfold sema_down. rewrite Hv. unfold wake.
    assert (Hv2 : sema_value k2 (LoadSem a) = Some 1%nat).
    { unfold sema_value. rewrite Hb2. reflexivity. }
    rewrite Hv2. fold k3. rewrite Hb3. reflexivity. }
  split; [exact Hadd3|]. split; [destruct Hj3 as [r Hr]; eauto|].
  split; [exact He|]. split; [exact Hadd4|]. split; [exact Hf4|]. split; [exact Hj4|].
  apply (ProcFacts.pthread_join_already_joined k5 cur p (set_roster (all_threads pr) pr) mt t a
           (mkBlock t mt (-1) true 0 0 true)).
  - exists tc. split; [|exact Hcp]. change (threads k5) with (threads k4).
    rewrite Hu4 by exact Hct. exact Hcur.
  - exact Hp4.
  - exact Hmt.
  - exact Hne.
  - exact Hg5.
  - exact Hb5.
  - reflexivity.
Qed.

(** Thread 5, the main thread of [solo_demo], creates thread 6. *)
Lemma pthread_lifecycle_witness :
  (exists k1 resume k2 k3 k4 k5,
     pthread_execute 5 2%positive (Some 6) solo_demo = Block k1 (LoadSem 2%positive) resume /\
     start_pthread 1 6 1%positive true k1 = Ret true k2 /\
     wake (pthread_execute 5 2%positive (Some 6) solo_demo) k2 = Ret 6 k3 /\
     thread_added solo_demo k3 1%positive
       (mkProcess (Some 7) (Some 5) [] 2 [] 0 [] 1 (Some 99) 1 []) 6 Sched.THREAD_READY
       2%positive (mkBlock 6 5 (-1) false 0 0 true) ([] ++ [6]) /\
     (exists kb r, pthread_join 5 6 k3 = Block kb (JoinSem 2%positive) r) /\
     pthread_exit 1 6 (Some 102) k3 = Exit k4 /\
     thread_added solo_demo k4 1%positive
       (mkProcess (Some 7) (Some 5) [] 2 [] 0 [] 1 (Some 99) 1 []) 6 Sched.THREAD_DYING
       2%positive (mkBlock 6 5 (-1) false 1 0 true) [] /\
     freed_pages k4 = freed_pages solo_demo ++ [102] /\
     pthread_join 5 6 k4 = Ret 6 k5 /\
     pthread_join 5 6 k5 = Ret TID_ERROR k5) /\
  (forall junk stack, junk <> 6 ->
     start_pthread 1 6 1%positive stack
       (pthread_execute_created 5 2%positive junk (Some 6) solo_demo) = Fault).
Proof.
  apply (pthread_lifecycle 1 solo_demo 5 1%positive
           (mkProcess (Some 7) (Some 5) [] 2 [] 0 [] 1 (Some 99) 1 []) 5 2%positive 6
           (Some 102)).
  - eexists. split; reflexivity.
  - reflexivity.
  - reflexivity.
  - reflexivity.
  - discriminate.
  - discriminate.
  - apply not_elem_of_nil.
  - reflexivity.
  - reflexivity.
  - intros H. apply elem_of_cons in H as [H|H]; [discriminate|].
    apply elem_of_nil in H. contradiction.
Defined.

(** X29.  [pthread_exit] by the main thread of a process that has no other
    thread.  It signals the PCB semaphore, on which joiners of the main
    thread wait, and the thread's own join record, and ends the thread.  It
    does not go through [process_exit]: the PCB stays allocated with its
    file table and page directory, nothing is closed, destroyed or freed,
    and the exit code in the record is left as it was. *)
Theorem main_thread_pthread_exit fuel k cur p pr kpage :
  peer_of k p cur -> pcbs k !! p = Some pr ->
  main_thread pr = Some cur -> all_threads pr = [] -> (0 < fuel)%nat ->
  exists k', pthread_exit fuel cur kpage k = Exit k' /\
    pcbs k' = <[p := map_p_semapth S pr]> (pcbs k) /\
    threads k' !! cur = Some (mkThread Sched.THREAD_DYING (Some p)) /\
    closed_files k' = closed_files k /\
    destroyed_pagedirs k' = destroyed_pagedirs k /\
    freed_pages k' = freed_pages k /\
    thread_block_list k' = thread_block_list k /\
    match get_thread_block k cur with
    | Some a =>
        exists b, blocks k !! a = Some b /\ b_tid b = cur /\
                  blocks k' = <[a := map_semapth S b]> (blocks k)
    | None => blocks k' = blocks k
    end.
Proof.
  intros (tc & Hcur & Hcp) Hpr Hmt Hroster Hfuel.
  destruct fuel as [|fuel]; [lia|].
  unfold pthread_exit, pthread_exit_from. rewrite Hcur, Hcp, Hpr.
  rewrite decide_True by exact Hmt.
  unfold pthread_exit_main. rewrite Hcur, Hcp, Hpr.
  cbn [join_roster].
  assert (Hp1 : pcbs (sema_up (PcbSem p) k) !! p = Some (map_p_semapth S pr)).
  { unfold sema_up, sema_map, update_pcb. simpl. rewrite lookup_alter_eq, Hpr. reflexivity. }
  rewrite Hp1. cbn [all_threads map_p_semapth]. rewrite Hroster. cbn [bind].
  unfold thread_exit. eexists. split; [reflexivity|].
  change (get_thread_block (sema_up (PcbSem p) k) cur) with (get_thread_block k cur).
  destruct (get_thread_block k cur) as [a|] eqn:Hg.
  - destruct (ProcFacts.get_thread_block_some _ _ _ Hg) as (_ & b & Hb & Htid).
    unfold signal_own, sema_up, sema_map, update_block, update_pcb, update_thread. simpl.
    split; [apply ProcFacts.alter_as_insert; exact Hpr|].
    split; [rewrite lookup_alter_eq, Hcur; destruct tc; simpl in *; subst; reflexivity|].
    repeat (split; [reflexivity|]).
    exists b. split; [exact Hb|]. split; [exact Htid|].
    apply ProcFacts.alter_as_insert. exact Hb.
  - unfold signal_own, sema_up, sema_map, update_pcb, update_thread. simpl.
    split; [apply ProcFacts.alter_as_insert; exact Hpr|].
    split; [rewrite lookup_alter_eq, Hcur; destruct tc; simpl in *; subst; reflexivity|].
    repeat split.
Qed.

Lemma main_thread_pthread_exit_witness :
  exists k', pthread_exit 1 5 None solo_demo = Exit k' /\
    pcbs k' = <[1%positive := map_p_semapth S
                  (mkProcess (Some 7) (Some 5) [] 2 [] 0 [] 1 (Some 99) 1 [])]>
                (pcbs solo_demo) /\
    threads k' !! 5 = Some (mkThread Sched.THREAD_DYING (Some 1%positive)) /\
    closed_files k' = closed_files solo_demo /\
    destroyed_pagedirs k' = destroyed_pagedirs solo_demo /\
    freed_pages k' = freed_pages solo_demo /\
    thread_block_list k' = thread_block_list solo_demo /\
    exists b, blocks solo_demo !! 1%positive = Some b /\ b_tid b = 5 /\
              blocks k' = <[1%positive := map_semapth S b]> (blocks solo_demo).
Proof.
  apply (main_thread_pthread_exit 1 solo_demo 5 1%positive
           (mkProcess (Some 7) (Some 5) [] 2 [] 0 [] 1 (Some 99) 1 []) None).
  - eexists. split; reflexivity.
  - reflexivity.
  - reflexivity.
  - reflexivity.
  - lia.
Defined.

(** The signalling loop of [process_exit] touches the join table only. *)
Lemma signal_roster_frame roster : forall k,
  NoDup roster ->
  (forall t, t ∈ roster -> is_Some (get_thread_block k t)) ->
  exists k', signal_roster roster k = Some k' /\
    threads k' = threads k /\ pcbs k' = pcbs k /\
    initial_thread k' = initial_thread k /\ closed_files k' = closed_files k /\
    destroyed_pagedirs k' = destroyed_pagedirs k /\ freed_pages k' = freed_pages k /\
    (forall u, (u ∉ roster) -> get_thread_block k' u = get_thread_block k u).
Proof.
  induction roster as [|t rest IH]; intros k Hnd Hall.
  - exists k. repeat split; reflexivity.
  - apply NoDup_cons in Hnd as [Hnotin Hnd].
    destruct (Hall t ltac:(apply elem_of_cons; now left)) as [x Hx].
    simpl. rewrite Hx.
    destruct (ProcFacts.get_thread_block_some _ _ _ Hx) as (_ & bx & Hbx & Htx).
    assert (Hskip : forall u, u <> t ->
              get_thread_block (unlink x (sema_up (JoinSem x) k)) u = get_thread_block k u).
    { intros u Hu. apply ProcFacts.get_thread_block_signal_unlink.
      unfold block_has_tid, has_tid. rewrite Hbx. apply Z.eqb_neq. congruence. }
    destruct (IH (unlink x (sema_up (JoinSem x) k)) Hnd) as (k' & E & H1 & H2 & H3 & H4 & H5 & H6 & H7).
    + intros u Hu. rewrite Hskip; [apply Hall; apply elem_of_cons; now right|].
      intros ->. contradiction.
    + exists k'. split; [exact E|]. rewrite H1, H2, H3, H4, H5, H6.
      repeat (split; [reflexivity|]).
      intros u Hu. rewrite H7 by (intros Hin; apply Hu; apply elem_of_cons; now right).
      apply Hskip. intros ->. apply Hu. apply elem_of_cons. now left.
Qed.

(** The killing loop frees the page of every thread on the roster but the
    caller's, and nothing else. *)
Lemma kill_roster_kills cur roster : forall k,
  (forall t, t ∈ roster -> t <> initial_thread k /\ is_Some (threads k !! t)) ->
  NoDup roster ->
  exists k', kill_roster cur roster k = Some k' /\
    blocks k' = blocks k /\ thread_block_list k' = thread_block_list k /\
    pcbs k' = pcbs k /\ closed_files k' = closed_files k /\
    destroyed_pagedirs k' = destroyed_pagedirs k /\ freed_pages k' = freed_pages k /\
    (forall u, (u ∉ roster) \/ u = cur -> threads k' !! u = threads k !! u) /\
    (forall u, u ∈ roster -> u <> cur -> threads k' !! u = None).
Proof.
  induction roster as [|t rest IH]; intros k Hall Hnd.
  - exists k. repeat split; try reflexivity. intros u Hu. apply elem_of_nil in Hu. contradiction.
  - apply NoDup_cons in Hnd as [Hnotin Hnd]. simpl.
    destruct (decide (cur = t)) as [<-|Hne].
    + destruct (IH k) as (k' & E & H1 & H2 & H3 & H4 & H5 & H6 & H7 & H8); [|exact Hnd|].
      * intros u Hu. apply Hall. apply elem_of_cons. now right.
      * exists k'. split; [exact E|]. repeat (split; [assumption|]). split.
        -- intros u [Hu|Hu]; apply H7; [left|right; exact Hu].
           intros Hin. apply Hu. apply elem_of_cons. now right.
        -- intros u Hu Huc. apply elem_of_cons in Hu as [->|Hu]; [contradiction|].
           apply H8; assumption.
    + destruct (Hall t ltac:(apply elem_of_cons; now left)) as [Hti [tt Htt]].
      unfold kill_thread. rewrite decide_False by exact Hti. rewrite Htt.
      set (k1 := with_threads (delete t (threads k)) k).
      destruct (IH k1) as (k' & E & H1 & H2 & H3 & H4 & H5 & H6 & H7 & H8); [|exact Hnd|].
      * intros u Hu. destruct (Hall u ltac:(apply elem_of_cons; now right)) as [Hui Hus].
        split; [exact Hui|]. unfold k1. simpl.
        rewrite lookup_delete_ne by (intros ->; contradiction). exact Hus.
      * exists k'. split; [exact E|]. repeat (split; [assumption|]). split.
        -- intros u Hu.
           assert (Hut : u <> t).
           { destruct Hu as [Hu| ->]; [|congruence].
             intros ->. apply Hu. apply elem_of_cons. now left. }
           rewrite H7.
           ++ unfold k1. simpl. apply lookup_delete_ne. congruence.
           ++ destruct Hu as [Hu|Hu]; [left|right; exact Hu].
              intros Hin. apply Hu. apply elem_of_cons. now right.
        -- intros u Hu Huc. apply elem_of_cons in Hu as [->|Hu].
           ++ rewrite H7 by (left; exact Hnotin). unfold k1. simpl. apply lookup_delete_eq.
           ++ apply H8; assumption.
Qed.

Lemma remove_blocks_none_left pid l : forall bs l' bs',
  remove_blocks pid l bs = (l', bs') ->
  forall y b, y ∈ l' -> bs' !! y = Some b -> b_pid b <> pid.
Proof.
  induction l as [|x l IH]; intros bs l' bs' E y b Hy Hb; simpl in E.
  - injection E as <- <-. apply elem_of_nil in Hy. contradiction.
  - destruct (bs !! x) as [bx|] eqn:Hx.
    + destruct (Z.eqb_spec (b_pid bx) pid) as [Hpid|Hpid].
      * apply (IH _ _ _ E y b Hy Hb).
      * destruct (remove_blocks pid l bs) as [l2 bs2] eqn:E2. injection E as <- <-.
        apply elem_of_cons in Hy as [->|Hy]; [|apply (IH _ _ _ E2 y b Hy Hb)].
        destruct (ProcFacts.remove_blocks_spec _ _ _ _ _ E2) as (_ & H2 & _).
        apply H2 in Hb. rewrite Hx in Hb. injection Hb as <-. exact Hpid.
    + destruct (remove_blocks pid l bs) as [l2 bs2] eqn:E2. injection E as <- <-.
      apply elem_of_cons in Hy as [->|Hy]; [|apply (IH _ _ _ E2 y b Hy Hb)].
      destruct (ProcFacts.remove_blocks_spec _ _ _ _ _ E2) as (_ & H2 & _).
      apply H2 in Hb. rewrite Hx in Hb. discriminate.
Qed.

Lemma delete_alter_same {V : Type} (f : V -> V) (i : paddr) (m : gmap paddr V) :
  delete i (alter f i m) = delete i m.
Proof.
  apply map_eq. intros j. destruct (decide (i = j)) as [->|Hne].
  - rewrite !lookup_delete_eq. reflexivity.
  - rewrite !lookup_delete_ne, lookup_alter_ne by exact Hne. reflexivity.
Qed.

(** X30.  What [process_exit] gives back.  When a thread of a live process
    calls [process_exit], every open file of the process is closed, last
    opened first, and then its executable; its page directory is
    destroyed and its PCB freed; the caller ends as a dying thread without
    PCB, and the page of every other thread of the process is freed.  No
    join record made by the caller is left in the table, and threads
    outside the process are not touched. *)
Theorem process_exit_releases k child pc prc ex :
  live_process k child pc prc -> thread_of child prc ex ->
  exists k', process_exit ex k = Exit k' /\
    closed_files k' = closed_files k ++ rev (map snd (all_files_list prc)) ++
                      match file prc with Some f => [f] | None => [] end /\
    destroyed_pagedirs k' = destroyed_pagedirs k ++
                            match pagedir prc with Some pd => [pd] | None => [] end /\
    freed_pages k' = freed_pages k /\
    pcbs k' = delete pc (pcbs k) /\
    threads k' !! ex = Some (mkThread Sched.THREAD_DYING None) /\
    (forall u, thread_of child prc u -> u <> ex -> threads k' !! u = None) /\
    (forall u, ~ thread_of child prc u -> threads k' !! u = threads k !! u) /\
    (forall y b, y ∈ thread_block_list k' -> blocks k' !! y = Some b -> b_pid b <> ex).
Proof.
  intros ((tc & Htc & Hpc) & Hinit & Hprc & Hmain & Hnd & Hroster) Hex.
  assert (Hext : exists tex, threads k !! ex = Some tex /\ t_pcb tex = Some pc).
  { destruct Hex as [->|Hin]; [eauto|]. destruct (Hroster ex Hin) as (_ & _ & H & _). exact H. }
  destruct Hext as (tex & Htex & Hpex).
  unfold process_exit. rewrite Htex, Hpex, Hprc.
  set (k2 := with_closed _ _).
  destruct (signal_roster_frame (all_threads prc) k2 Hnd) as
    (k3 & E3 & Ht3 & Hp3 & Hi3 & Hc3 & Hd3 & Hf3 & _).
  { intros t Hin. destruct (Hroster t Hin) as (_ & _ & _ & H). exact H. }
  rewrite E3.
  (* the main thread goes, unless it is the caller *)
  assert (Hk4 : exists k4,
            (if decide (main_thread prc = Some ex) then Some k3
             else match main_thread prc with
                  | None => None
                  | Some mt => kill_thread mt (signal_own (get_thread_block k3 mt) k3)
                  end) = Some k4 /\
            pcbs k4 = pcbs k3 /\ initial_thread k4 = initial_thread k /\
            closed_files k4 = closed_files k3 /\
            destroyed_pagedirs k4 = destroyed_pagedirs k /\ freed_pages k4 = freed_pages k /\
            threads k4 = (if decide (child = ex) then threads k
                          else delete child (threads k))).
  { rewrite Hmain. destruct (decide (Some child = Some ex)) as [E|NE].
    - injection E as E. exists k3. rewrite decide_True by exact E.
      split; [reflexivity|]. rewrite Hi3, Hd3, Hf3, Ht3. repeat split.
    - assert (Hce : child <> ex) by congruence. rewrite decide_False by exact Hce.
      unfold kill_thread.
      assert (Hik : initial_thread (signal_own (get_thread_block k3 child) k3)
                    = initial_thread k).
      { transitivity (initial_thread k3); [|exact Hi3].
        destruct (get_thread_block k3 child); reflexivity. }
      rewrite Hik, decide_False by exact Hinit.
      assert (Htk : threads (signal_own (get_thread_block k3 child) k3) = threads k).
      { transitivity (threads k3); [|exact Ht3].
        destruct (get_thread_block k3 child); reflexivity. }
      rewrite Htk, Htc. eexists. split; [reflexivity|].
      destruct (get_thread_block k3 child); simpl; rewrite ?Hd3, ?Hf3;
        repeat split; exact Hi3. }
  destruct Hk4 as (k4 & E4 & Hp4 & Hi4 & Hc4 & Hd4 & Hf4 & Ht4).
  rewrite E4.
  destruct (kill_roster_kills ex (all_threads prc) k4) as
    (k5 & E5 & Hb5 & Hl5 & Hp5 & Hc5 & Hd5 & Hf5 & Hkeep & Hgone).
  { intros t Hin. destruct (Hroster t Hin) as (Hc & Hi & (tt & Htt & _) & _).
    rewrite Hi4. split; [exact Hi|]. rewrite Ht4.
    destruct (decide (child = ex)); [eauto|].
    rewrite lookup_delete_ne by congruence. eauto. }
  { exact Hnd. }
  rewrite E5.
  assert (Hex5 : threads k5 !! ex = Some tex).
  { rewrite Hkeep.
    - rewrite Ht4. destruct (decide (child = ex)) as [_|Hce]; [exact Htex|].
      rewrite lookup_delete_ne by exact Hce. exact Htex.
    - destruct Hex as [->|Hin]; [left|right; reflexivity].
      intros Hin. destruct (Hroster child Hin) as (H & _). congruence. }
  unfold release_process, thread_exit. eexists. split; [reflexivity|].
  set (k9 := with_pcbs _ _).
  assert (H9 : closed_files k9 = closed_files k ++ rev (map snd (all_files_list prc)) ++
                 match file prc with Some f => [f] | None => [] end /\
               destroyed_pagedirs k9 = destroyed_pagedirs k ++
                 match pagedir prc with Some pd => [pd] | None => [] end /\
               freed_pages k9 = freed_pages k /\
               pcbs k9 = delete pc (pcbs k) /\
               threads k9 = alter (set_pcb None) ex (threads k5)).
  { unfold k9. destruct (file prc), (pagedir prc); cbn [closed_files destroyed_pagedirs
      freed_pages pcbs threads with_pcbs update_thread with_threads with_destroyed
      with_closed update_pcb];
      rewrite ?Hc5, ?Hc4, ?Hc3, ?Hd5, ?Hd4, ?Hf5, ?Hf4, ?Hp5, ?Hp4, ?Hp3, ?app_nil_r;
      unfold k2; cbn [closed_files with_closed pcbs update_pcb with_pcbs];
      rewrite ?delete_alter_same, <- ?app_assoc; repeat split. }
  destruct H9 as (Hc9 & Hd9 & Hf9 & Hp9 & Ht9).
  assert (Hfin : forall kk, closed_files kk = closed_files k9 ->
            destroyed_pagedirs kk = destroyed_pagedirs k9 -> freed_pages kk = freed_pages k9 ->
            pcbs kk = pcbs k9 -> threads kk = threads k9 ->
            let k' := update_thread (set_status Sched.THREAD_DYING) ex
                        (remove_thread_block ex kk) in
            closed_files k' = closed_files k9 /\ destroyed_pagedirs k' = destroyed_pagedirs k9 /\
            freed_pages k' = freed_pages k9 /\ pcbs k' = pcbs k9 /\
            threads k' = alter (set_status Sched.THREAD_DYING) ex (threads k9) /\
            (forall y b, y ∈ thread_block_list k' -> blocks k' !! y = Some b -> b_pid b <> ex)).
  { intros kk A1 A2 A3 A4 A5. unfold remove_thread_block.
    destruct (remove_blocks ex (thread_block_list kk) (blocks kk)) as [l bs] eqn:Er.
    simpl. rewrite A1, A2, A3, A4, A5. repeat (split; [reflexivity|]).
    apply (remove_blocks_none_left _ _ _ _ _ Er). }
  destruct (Hfin (signal_own (get_thread_block k ex) k9)) as (B1 & B2 & B3 & B4 & B5 & B6);
    try (destruct (get_thread_block k ex); reflexivity).
  rewrite B1, B2, B3, B4, B5, Hc9, Hd9, Hf9, Hp9, Ht9.
  repeat (split; [reflexivity|]).
  split; [rewrite !lookup_alter_eq, Hex5; reflexivity|].
  split; [|split; [|exact B6]].
  - intros u Hu Hne. rewrite !lookup_alter_ne by congruence.
    destruct Hu as [->|Hin].
    + rewrite Hkeep.
      * rewrite Ht4, decide_False by exact Hne. apply lookup_delete_eq.
      * left. intros Hin. destruct (Hroster child Hin) as (H & _). congruence.
    + apply Hgone; assumption.
  - intros u Hu.
    assert (Hune : u <> ex) by (intros ->; contradiction).
    rewrite !lookup_alter_ne by congruence.
    rewrite Hkeep by (left; intros Hin; apply Hu; right; exact Hin).
    rewrite Ht4. destruct (decide (child = ex)); [reflexivity|].
    apply lookup_delete_ne. intros <-. apply Hu. left. reflexivity.
Qed.

(** [peer_demo]: process 5 with the peer 6; the peer calls [process_exit]. *)
Lemma process_exit_releases_witness :
  exists k', process_exit 6 peer_demo = Exit k' /\
    closed_files k' = closed_files peer_demo ++ [] ++ [99] /\
    destroyed_pagedirs k' = destroyed_pagedirs peer_demo ++ [7] /\
    freed_pages k' = freed_pages peer_demo /\
    pcbs k' = delete 1%positive (pcbs peer_demo) /\
    threads k' !! 6 = Some (mkThread Sched.THREAD_DYING None) /\
    (forall u, thread_of 5 (mkProcess (Some 7) (Some 5) [] 2 [6] 0 [] 1 (Some 99) 1 []) u ->
       u <> 6 -> threads k' !! u = None) /\
    (forall u, ~ thread_of 5 (mkProcess (Some 7) (Some 5) [] 2 [6] 0 [] 1 (Some 99) 1 []) u ->
       threads k' !! u = threads peer_demo !! u) /\
    (forall y b, y ∈ thread_block_list k' -> blocks k' !! y = Some b -> b_pid b <> 6).
Proof.
  apply (process_exit_releases peer_demo 5 1%positive
           (mkProcess (Some 7) (Some 5) [] 2 [6] 0 [] 1 (Some 99) 1 []) 6).
  - split; [eexists; split; reflexivity|]. split; [discriminate|]. split; [reflexivity|].
    split; [reflexivity|]. split; [repeat constructor; apply not_elem_of_nil|].
    intros t Ht. apply elem_of_cons in Ht as [->|Ht]; [|apply elem_of_nil in Ht; contradiction].
    split; [discriminate|]. split; [discriminate|].
    split; [eexists; split; reflexivity|]. eexists. reflexivity.
  - right. apply elem_of_cons. now left.
Defined.

End SpawnFacts.
